(** * DIYPCR: the thermal-cycler sketches [pcrssv.ino] and [pcrfv.ino]

    A shallow embedding of the two Arduino sketches of the repository and
    the properties of their phase sequencer, their three temperature
    regulators ([heatUp], [coolDown], [holdConstantTemp]) and their logger.

    Conventions of the embedding.
    - The sketches keep their run state in global variables; the record
      [state] holds them, together with the board (millisecond clock, output
      pins) and everything the sketch has done to the outside world
      ([trace]).
    - The outside world is given by two streams: the successive results of
      [thermocouple.readCelsius()] and of [digitalRead(START_STOP_PIN)].
      Every property below is proved for all streams.  [loop] of
      [pcrssv.ino] has a third, the bytes [serialEvent] finds on the
      console.
    - The clock advances in [delay] only: a time below is the time the
      sketch has asked the board to wait.
    - A [double] is an exact rational.  The MAX6675 converter delivers
      multiples of 0.25 degrees and every temperature constant of the
      sketches is such a multiple, so the sketches' comparisons and
      differences are exact on them.  A reading that is not a number is
      outside the model.
    - Loops that need not terminate take fuel; a computation that runs out
      of fuel still delivers the state it has reached ([OutOfFuel]), so that
      what is proved of every reached state also holds along a run that
      never ends. *)

From Stdlib Require Import ZArith QArith Qround List Ascii Bool Lia Lqa.
Import ListNotations.

Local Open Scope Z_scope.

(** ** Numbers of the target *)

(** [unsigned long] arithmetic of the AVR target: 32 bits, wrapping. *)
Definition ulong (x : Z) : Z := x mod 2 ^ 32.

Definition usub (a b : Z) : Z := ulong (a - b).

(** [int] of the AVR target: 16 bits, two's complement. *)
Definition int16 (x : Z) : Z := (x + 2 ^ 15) mod 2 ^ 16 - 2 ^ 15.

(** A [double] that is a number.  What a regulator leaves of its last
    sample when a comparison of its code is found false is stated of the
    comparison ([dlt], [dgt], [dge] equal to [false]), not of the order
    of the two numbers. *)
Definition double := Q.

(** Conversion of a [double] to an integer type truncates toward zero.
    The bound of the integer type is not part of it: the pulse of
    [heatUp] lies within it, and what is proved of the fields of a log
    line is proved of samples within it. *)
Definition double_to_int (x : double) : Z := Z.quot (Qnum x) (Z.pos (Qden x)).

Definition dlt (x y : double) : bool := negb (Qle_bool y x).   (* x < y  *)
Definition dgt (x y : double) : bool := dlt y x.               (* x > y  *)
Definition dge (x y : double) : bool := Qle_bool y x.          (* x >= y *)

(** Arduino's [min] is the macro [((a)<(b)?(a):(b))]. *)
Definition dmin (a b : double) : double := if dlt a b then a else b.

(** ** The two sketches *)

Inductive sketch := pcrssv | pcrfv.

(** ** Hardware definition *)

Inductive pin := HEAT_PIN | FAN_PIN | RED_PIN | GREEN_PIN | BLUE_PIN.

Inductive level := LOW | HIGH.

Definition pin_eqb (p q : pin) : bool :=
  match p, q with
  | HEAT_PIN, HEAT_PIN | FAN_PIN, FAN_PIN | RED_PIN, RED_PIN
  | GREEN_PIN, GREEN_PIN | BLUE_PIN, BLUE_PIN => true
  | _, _ => false
  end.

Definition level_eqb (a b : level) : bool :=
  match a, b with
  | LOW, LOW | HIGH, HIGH => true
  | _, _ => false
  end.

(** ** PCR parameters (the operative set; [DEBUG_PARAM] is not defined) *)

Definition NUM_CYCLES : Z := 32.

Definition DENATURE_TEMP : double := 94%Q.
Definition ANNEALING_TEMP : double := 60%Q.
Definition EXTENSION_TEMP : double := 72%Q.
Definition FAN_THRESHOLD_TEMP : double := (3 # 4)%Q.
Definition SETPOINT_THRESHOLD_TEMP : double := (1 # 2)%Q.
Definition STABILITY_THRESHOLD_TEMP : double := (5 # 4)%Q.
Definition APPROACH_THRESHOLD_TEMP (v : sketch) : double :=
  match v with pcrssv => 2%Q | pcrfv => 1%Q end.

Definition MAX_PULSE_DURATION : Z := 650.
Definition PULSE_DURATION_MULT : Z := 600.
Definition MIN_PULSE_DURATION : Z := 80.
Definition OVERHEAT_TEST : Z := 30.
Definition OVERHEAT_TIME : Z := 250.

Definition DENATURE_TIME : Z := 33000.
Definition ANNEALING_TIME : Z := 33000.
Definition EXTENSION_TIME : Z := 35000.
Definition INITIAL_DENATURE_TIME : Z := 300000.
Definition FINAL_EXTENSION_TIME : Z := 600000.
Definition COOL_SAMPLE_TIME : Z := 300.
Definition HOLD_PULSE_DURATION (v : sketch) : Z :=
  match v with pcrssv => 210 | pcrfv => 90 end.
Definition HOLD_PAUSE_DURATION (v : sketch) : Z :=
  match v with pcrssv => 90 | pcrfv => 210 end.

Definition ROOM_TEMP : double := 18%Q.
Definition MAX_ALLOWED_TEMP : double := 100%Q.
Definition MAX_HEAT_INCREASE : double := (5 # 2)%Q.
Definition MAX_ALLOWED_TEMP_TIME : Z := 1000.
Definition MAX_HEAT_INCREASE_TIME : Z := 1000.

(** ** Phases *)

Inductive phase :=
  IDLE | HEATING | COOLING | DENATURATION | ANNEALING | EXTENSION | FAULT.

Definition phase_eqb (p q : phase) : bool :=
  match p, q with
  | IDLE, IDLE | HEATING, HEATING | COOLING, COOLING
  | DENATURATION, DENATURATION | ANNEALING, ANNEALING
  | EXTENSION, EXTENSION | FAULT, FAULT => true
  | _, _ => false
  end.

(** First letter of [phases[currPhase]]. *)
Definition phase_letter (p : phase) : ascii :=
  match p with
  | IDLE => "I" | HEATING => "H" | COOLING => "C" | DENATURATION => "D"
  | ANNEALING => "A" | EXTENSION => "E" | FAULT => "F"
  end%char.

(** ** What the sketch does to the outside world *)

(** One CSV line of [log], field by field as [log] computes them. *)
Record logline := mkLogline {
  ll_h : Z; ll_m : Z; ll_s : Z;      (* total time  *)
  ll_cycle : Z;                      (* currCycle+1 *)
  ll_phase : phase;
  ll_pm : Z; ll_ps : Z;              (* phase time  *)
  ll_iPart : Z; ll_dPart : Z;        (* temperature *)
  ll_fault : ascii
}.

Inductive event :=
| DigitalWrite (p : pin) (l : level)
| Delay (ms : Z)
| LogLine (r : logline).

(** ** Global variables and board *)

Record state := mkState {
  currInButton : level;
  prevInButton : level;
  startCycleTime : Z;
  startPhaseTime : Z;
  timeCounter : Z;
  currCycle : Z;
  currPhase : phase;
  currTemp : double;
  prevTemp : double;
  faultCode : ascii;
  (* board *)
  clock : Z;              (* milliseconds since power-up, unwrapped *)
  pins : pin -> level;    (* last level written to each output *)
  reads : nat;            (* thermocouple conversions made so far *)
  polls : nat;            (* reads of START_STOP_PIN made so far *)
  trace : list event
}.

(** Assignments.  They take the record apart, so that a state built by
    assignments from a record of known fields is again such a record. *)

Definition set_currInButton (x : level) (s : state) : state :=
  let (a, b, c, d, e, f, g, h, i, j, k, l, m, n, o) := s in
  mkState x b c d e f g h i j k l m n o.

Definition set_prevInButton (x : level) (s : state) : state :=
  let (a, b, c, d, e, f, g, h, i, j, k, l, m, n, o) := s in
  mkState a x c d e f g h i j k l m n o.

Definition set_startCycleTime (x : Z) (s : state) : state :=
  let (a, b, c, d, e, f, g, h, i, j, k, l, m, n, o) := s in
  mkState a b x d e f g h i j k l m n o.

Definition set_startPhaseTime (x : Z) (s : state) : state :=
  let (a, b, c, d, e, f, g, h, i, j, k, l, m, n, o) := s in
  mkState a b c x e f g h i j k l m n o.

Definition set_timeCounter (x : Z) (s : state) : state :=
  let (a, b, c, d, e, f, g, h, i, j, k, l, m, n, o) := s in
  mkState a b c d x f g h i j k l m n o.

Definition set_currCycle (x : Z) (s : state) : state :=
  let (a, b, c, d, e, f, g, h, i, j, k, l, m, n, o) := s in
  mkState a b c d e x g h i j k l m n o.

Definition set_currPhase (x : phase) (s : state) : state :=
  let (a, b, c, d, e, f, g, h, i, j, k, l, m, n, o) := s in
  mkState a b c d e f x h i j k l m n o.

Definition set_currTemp (x : double) (s : state) : state :=
  let (a, b, c, d, e, f, g, h, i, j, k, l, m, n, o) := s in
  mkState a b c d e f g x i j k l m n o.

Definition set_prevTemp (x : double) (s : state) : state :=
  let (a, b, c, d, e, f, g, h, i, j, k, l, m, n, o) := s in
  mkState a b c d e f g h x j k l m n o.

Definition set_faultCode (x : ascii) (s : state) : state :=
  let (a, b, c, d, e, f, g, h, i, j, k, l, m, n, o) := s in
  mkState a b c d e f g h i x k l m n o.

Definition set_clock (x : Z) (s : state) : state :=
  let (a, b, c, d, e, f, g, h, i, j, k, l, m, n, o) := s in
  mkState a b c d e f g h i j x l m n o.

Definition set_pins (x : pin -> level) (s : state) : state :=
  let (a, b, c, d, e, f, g, h, i, j, k, l, m, n, o) := s in
  mkState a b c d e f g h i j k x m n o.

Definition set_reads (x : nat) (s : state) : state :=
  let (a, b, c, d, e, f, g, h, i, j, k, l, m, n, o) := s in
  mkState a b c d e f g h i j k l x n o.

Definition set_polls (x : nat) (s : state) : state :=
  let (a, b, c, d, e, f, g, h, i, j, k, l, m, n, o) := s in
  mkState a b c d e f g h i j k l m x o.

(** What the sketch does is appended to the trace. *)
Definition emits (es : list event) (s : state) : state :=
  let (a, b, c, d, e, f, g, h, i, j, k, l, m, n, o) := s in
  mkState a b c d e f g h i j k l m n (o ++ es).

Definition emit (e : event) (s : state) : state := emits [e] s.

(** ** Programs *)

Inductive outcome (A : Type) :=
| Done (a : A) (s : state)
| OutOfFuel (s : state).

Arguments Done {A} a s.
Arguments OutOfFuel {A} s.

Definition prog (A : Type) := state -> outcome A.

Definition ret {A} (a : A) : prog A := fun s => Done a s.

Definition bind {A B} (m : prog A) (f : A -> prog B) : prog B :=
  fun s => match m s with
           | Done a s' => f a s'
           | OutOfFuel s' => OutOfFuel s'
           end.

Declare Scope prog_scope.
Delimit Scope prog_scope with prog.
Bind Scope prog_scope with prog.

Notation "x <- m ;; k" := (bind m (fun x => k))
  (at level 61, m at next level, right associativity) : prog_scope.
Notation "m ;; k" := (bind m (fun _ => k))
  (at level 61, right associativity) : prog_scope.

Local Open Scope prog_scope.

(** Reading a global, and an assignment given by its effect on the state. *)
Definition gets {A} (f : state -> A) : prog A := fun s => Done (f s) s.
Definition upd (f : state -> state) : prog unit := fun s => Done tt (f s).

(** The state a computation ends in, however it ends. *)
Definition final {A} (o : outcome A) : state :=
  match o with Done _ s => s | OutOfFuel s => s end.

(** Flow of control out of a loop body: [Break b] is the source's [break],
    with the value [b] of the local [ris] assigned just before it where
    there is one; [Continue a] falls through to the loop test with the
    loop's local variable [a]. *)
Inductive flow (B A : Type) :=
| Break (b : B)
| Continue (a : A).

Arguments Break {B A} b.
Arguments Continue {B A} a.

(** ** Board primitives *)

Definition millis : prog Z := gets (fun s => ulong (clock s)).

Definition delay (ms : Z) : prog unit :=
  upd (fun s => emit (Delay ms) (set_clock (clock s + ms) s)).

Definition digitalWrite (p : pin) (l : level) : prog unit :=
  upd (fun s =>
         emit (DigitalWrite p l)
              (set_pins (fun q => if pin_eqb q p then l else pins s q) s)).

Definition when (c : bool) (m : prog unit) : prog unit :=
  if c then m else ret tt.

(** ** The sketches *)

Section Sketch.

(** Which sketch is compiled. *)
Variable v : sketch.

(** The outside world: the [n]-th conversion of the thermocouple and the
    [n]-th level read on the start/stop pushbutton since power-up. *)
Variable thermocouple : nat -> double.
Variable pushbutton : nat -> level.

(** [thermocouple.readCelsius()]; [getTemperature()] of [pcrfv.ino], which
    is the same call when [DEBUG_SENS] is not defined. *)
Definition readCelsius : prog double :=
  fun s => Done (thermocouple (reads s)) (set_reads (S (reads s)) s).

(** [digitalRead(START_STOP_PIN)] *)
Definition digitalRead_START_STOP : prog level :=
  fun s => Done (pushbutton (polls s)) (set_polls (S (polls s)) s).

(** [buttonPressed]: falling edge of the start/stop button. *)
Definition buttonPressed : prog bool :=
  l <- digitalRead_START_STOP;;
  upd (set_currInButton l);;
  cur <- gets currInButton;;
  prev <- gets prevInButton;;
  let ris := negb (level_eqb cur prev) && level_eqb cur LOW in
  upd (set_prevInButton cur);;
  ret ris.

(** [setStatus] of [pcrfv.ino] sets the phase and the RGB diagnostic LED;
    [pcrssv.ino] assigns [currPhase] directly. *)
Definition rgb (p : phase) : level * level * level :=
  match p with
  | IDLE => (LOW, HIGH, LOW)
  | HEATING => (HIGH, LOW, LOW)
  | COOLING => (LOW, LOW, HIGH)
  | DENATURATION => (HIGH, LOW, HIGH)
  | ANNEALING => (LOW, HIGH, HIGH)
  | EXTENSION => (HIGH, HIGH, LOW)
  | FAULT => (HIGH, HIGH, HIGH)
  end.

Definition setStatus (p : phase) : prog unit :=
  match v with
  | pcrssv => upd (set_currPhase p)
  | pcrfv =>
      upd (set_currPhase p);;
      let '(red, green, blue) := rgb p in
      digitalWrite RED_PIN red;;
      digitalWrite GREEN_PIN green;;
      digitalWrite BLUE_PIN blue
  end.

(** [log]: one CSV line on the console when a second has elapsed since the
    last line, or when forced.  The line is kept as its fields; the LCD of
    [pcrfv.ino] shows the same fields and is not modelled apart. *)
Definition log (force : bool) : prog unit :=
  now <- millis;;
  sct <- gets startCycleTime;;
  let cycleTime := usub now sct in
  now' <- millis;;
  spt <- gets startPhaseTime;;
  let phaseTime := usub now' spt in
  let ts := cycleTime / 1000 in
  let h := ts / 3600 in
  let t := ts mod 3600 in
  let m := t / 60 in
  let s := t mod 60 in
  tc <- gets timeCounter;;
  if (tc <? ts) || force then
    upd (set_timeCounter ts);;
    cyc <- gets currCycle;;
    ph <- gets currPhase;;
    let ts' := phaseTime / 1000 in
    let t' := match v with
              | pcrssv => ts' mod 3600      (* t = ts % 3600 *)
              | pcrfv => t mod 3600         (* t = t % 3600  *)
              end in
    let m' := t' / 60 in
    let s' := t' mod 60 in
    ct <- gets currTemp;;
    let iPart := double_to_int ct in
    let dPart := double_to_int ((ct - inject_Z iPart) * 100)%Q in
    fc <- gets faultCode;;
    upd (emit (LogLine (mkLogline h m s (cyc + 1) ph m' s' iPart dPart fc)))
  else ret tt.

(** *** heatUp *)

(** The heating pulse, [pcrssv.ino] line 291: shorter as the setpoint is
    approached. *)
Definition pulseDuration (setpoint currTemp : double) : Z :=
  double_to_int
    (dmin (inject_Z MAX_PULSE_DURATION)
          (inject_Z PULSE_DURATION_MULT * (setpoint - currTemp)
           + inject_Z MIN_PULSE_DURATION)%Q).

(** [do { ... } while(currTemp > prevTemp);] *)
Fixpoint overheat_wait (fuel : nat) : prog unit :=
  fun s0 =>
    match fuel with
    | O => OutOfFuel s0
    | S fuel' =>
        (ct <- gets currTemp;;
         upd (set_prevTemp ct);;
         delay OVERHEAT_TIME;;
         t <- readCelsius;;
         upd (set_currTemp t);;
         log false;;
         ct <- gets currTemp;;
         pt <- gets prevTemp;;
         if dgt ct pt then overheat_wait fuel' else ret tt) s0
    end.

(** [while ((currTemp-prevTemp) >= MAX_HEAT_INCREASE) { ... }] *)
Fixpoint slope_wait (fuel : nat) : prog unit :=
  fun s0 =>
    if dge (currTemp s0 - prevTemp s0)%Q MAX_HEAT_INCREASE then
      match fuel with
      | O => OutOfFuel s0
      | S fuel' =>
          (ct <- gets currTemp;;
           upd (set_prevTemp ct);;
           delay MAX_HEAT_INCREASE_TIME;;
           t <- readCelsius;;
           upd (set_currTemp t);;
           log false;;
           slope_wait fuel') s0
      end
    else Done tt s0.

(** [while(currTemp >= MAX_ALLOWED_TEMP) { ... }] *)
Fixpoint ceiling_wait (fuel : nat) : prog unit :=
  fun s0 =>
    if dge (currTemp s0) MAX_ALLOWED_TEMP then
      match fuel with
      | O => OutOfFuel s0
      | S fuel' =>
          (delay MAX_ALLOWED_TEMP_TIME;;
           t <- readCelsius;;
           upd (set_currTemp t);;
           log false;;
           ceiling_wait fuel') s0
      end
    else Done tt s0.

(** When the wait between heat pulses is inserted. *)
Definition approaching (setpoint currTemp : double) (curIteration : Z) : bool :=
  match v with
  | pcrssv => dlt (setpoint - currTemp)%Q (APPROACH_THRESHOLD_TEMP v)
  | pcrfv => dlt (setpoint - currTemp)%Q (APPROACH_THRESHOLD_TEMP v)
             || (Z.rem curIteration OVERHEAT_TEST =? 0)
  end.

(** What a turn of the rise ramp does once its pulse is over: the checks
    of the sample, from [//check if setpoint reached] to the end of the
    loop body. *)
Definition heatUp_after_pulse (inner : nat) (setpoint : double)
  (curIteration : Z) : prog (flow bool Z) :=
  ct <- gets currTemp;;
  if dge ct setpoint then
    upd (set_faultCode "0");; ret (Break true)
  else
    when (approaching setpoint ct curIteration) (overheat_wait inner);;
    ct <- gets currTemp;;
    if dge ct setpoint then
      upd (set_faultCode "0");; ret (Break true)
    else
      pt <- gets prevTemp;;
      let rest :=
        slope_wait inner;;
        ceiling_wait inner;;
        ret (Continue curIteration) in
      if Z.rem curIteration 2 =? 0 then
        if dlt ct (pt - STABILITY_THRESHOLD_TEMP)%Q then
          upd (set_faultCode "4");; ret (Break false)
        else rest
      else
        upd (set_prevTemp ct);; rest.

(** One turn of the rise ramp, entered with [currTemp < setpoint]. *)
Definition heatUp_body (inner : nat) (setpoint : double) (curIteration : Z)
  : prog (flow bool Z) :=
  b <- buttonPressed;;
  if b then
    upd (set_faultCode "1");; ret (Break false)
  else
    let curIteration := int16 (curIteration + 1) in
    ct <- gets currTemp;;
    let pulse := pulseDuration setpoint ct in
    digitalWrite HEAT_PIN HIGH;;
    delay pulse;;
    t <- readCelsius;;
    upd (set_currTemp t);;
    log false;;
    digitalWrite HEAT_PIN LOW;;
    heatUp_after_pulse inner setpoint curIteration.

(** [while (currTemp < setpoint) { ... }]; [ris] is the local of [heatUp],
    assigned only where the body breaks. *)
Fixpoint heatUp_while (inner fuel : nat) (setpoint : double)
  (curIteration : Z) (ris : bool) : prog bool :=
  fun s0 =>
    if dlt (currTemp s0) setpoint then
      match fuel with
      | O => OutOfFuel s0
      | S fuel' =>
          (r <- heatUp_body inner setpoint curIteration;;
           match r with
           | Break ris' => ret ris'
           | Continue curIteration' =>
               heatUp_while inner fuel' setpoint curIteration' ris
           end) s0
      end
    else Done ris s0.

Definition heatUp (fuel : nat) (setpoint : double) : prog bool :=
  let ris := false in
  let curIteration := 0 in
  digitalWrite FAN_PIN LOW;;
  now <- millis;;
  upd (set_startPhaseTime now);;
  t <- readCelsius;;
  upd (set_prevTemp t);;
  pt <- gets prevTemp;;
  upd (set_currTemp pt);;
  log false;;
  ct <- gets currTemp;;
  if dlt ct ROOM_TEMP then
    upd (set_faultCode "2");; ret false
  else if dgt ct setpoint then
    upd (set_faultCode "3");; ret false
  else
    heatUp_while fuel fuel setpoint curIteration ris.

(** *** coolDown *)

Definition coolDown_body (maxTimeout : Z) : prog (flow bool unit) :=
  digitalWrite FAN_PIN HIGH;;
  delay maxTimeout;;
  t <- readCelsius;;
  upd (set_currTemp t);;
  log false;;
  b <- buttonPressed;;
  if b then
    upd (set_faultCode "1");; ret (Break false)
  else ret (Continue tt).

Fixpoint coolDown_while (fuel : nat) (setpoint : double) (maxTimeout : Z)
  (ris : bool) : prog bool :=
  fun s0 =>
    if dgt (currTemp s0) (setpoint + FAN_THRESHOLD_TEMP)%Q then
      match fuel with
      | O => OutOfFuel s0
      | S fuel' =>
          (r <- coolDown_body maxTimeout;;
           match r with
           | Break ris' => ret ris'
           | Continue _ => coolDown_while fuel' setpoint maxTimeout ris
           end) s0
      end
    else Done ris s0.

Definition coolDown (fuel : nat) (setpoint : double) (maxTimeout : Z)
  : prog bool :=
  let ris := true in
  now <- millis;;
  upd (set_startPhaseTime now);;
  t <- readCelsius;;
  upd (set_currTemp t);;
  log false;;
  ris <- coolDown_while fuel setpoint maxTimeout ris;;
  digitalWrite FAN_PIN LOW;;
  ret ris.

(** *** holdConstantTemp *)

(** The correction of one turn of the hold loop, after the sample. *)
Definition hold_adjust (setpoint : double) : prog unit :=
  ct <- gets currTemp;;
  if dlt ct setpoint then
    digitalWrite HEAT_PIN HIGH;;
    delay (HOLD_PULSE_DURATION v);;
    digitalWrite HEAT_PIN LOW
  else if dgt ct (setpoint + SETPOINT_THRESHOLD_TEMP)%Q then
    digitalWrite FAN_PIN HIGH;;
    delay (HOLD_PULSE_DURATION v);;
    digitalWrite FAN_PIN LOW
  else
    match v with
    | pcrssv => delay (HOLD_PULSE_DURATION v)
    | pcrfv => ret tt                (* no [else] in pcrfv.ino *)
    end.

Definition holdConstantTemp_body (setpoint : double) : prog (flow bool Z) :=
  b <- buttonPressed;;
  if b then
    upd (set_faultCode "1");; ret (Break false)
  else
    t <- readCelsius;;
    upd (set_currTemp t);;
    log false;;
    hold_adjust setpoint;;
    delay (HOLD_PAUSE_DURATION v);;
    now <- millis;;
    spt <- gets startPhaseTime;;
    ret (Continue (usub now spt)).

Fixpoint holdConstantTemp_while (fuel : nat) (duration : Z)
  (setpoint : double) (holdTimeElapsed : Z) (ris : bool) : prog bool :=
  fun s0 =>
    if holdTimeElapsed <? ulong duration then
      match fuel with
      | O => OutOfFuel s0
      | S fuel' =>
          (r <- holdConstantTemp_body setpoint;;
           match r with
           | Break ris' => ret ris'
           | Continue holdTimeElapsed' =>
               holdConstantTemp_while fuel' duration setpoint
                 holdTimeElapsed' ris
           end) s0
      end
    else Done ris s0.

Definition holdConstantTemp (fuel : nat) (duration : Z) (setpoint : double)
  : prog bool :=
  let ris := true in
  now <- millis;;
  upd (set_startPhaseTime now);;
  let holdTimeElapsed := 0 in
  holdConstantTemp_while fuel duration setpoint holdTimeElapsed ris.

(** *** runPCR *)

(** One phase of a cycle: set the phase, run the regulator, and on a
    fault stop the sequence; [next] is the rest of the cycle. *)
Definition phase_step (p : phase) (call : prog bool)
  (next : prog (flow unit unit)) : prog (flow unit unit) :=
  setStatus p;;
  ris <- call;;
  if negb ris then
    upd (set_currCycle NUM_CYCLES);;
    setStatus FAULT;;
    log false;;
    ret (Break tt)
  else next.

Definition denaturation (fuel : nat) : prog bool :=
  c <- gets currCycle;;
  if c =? 0 then
    holdConstantTemp fuel INITIAL_DENATURE_TIME DENATURE_TEMP
  else
    holdConstantTemp fuel DENATURE_TIME DENATURE_TEMP.

Definition extension (fuel : nat) : prog bool :=
  c <- gets currCycle;;
  if c <? NUM_CYCLES - 1 then
    holdConstantTemp fuel EXTENSION_TIME EXTENSION_TEMP
  else
    holdConstantTemp fuel FINAL_EXTENSION_TIME EXTENSION_TEMP.

(** The body of the [for] loop. *)
Definition cycle (fuel : nat) : prog (flow unit unit) :=
  phase_step HEATING (heatUp fuel DENATURE_TEMP)
  (phase_step DENATURATION (denaturation fuel)
  (phase_step COOLING (coolDown fuel ANNEALING_TEMP COOL_SAMPLE_TIME)
  (phase_step ANNEALING (holdConstantTemp fuel ANNEALING_TIME ANNEALING_TEMP)
  (phase_step HEATING (heatUp fuel EXTENSION_TEMP)
  (phase_step EXTENSION (extension fuel)
  (ret (Continue tt))))))).

(** [for(...;currCycle<NUM_CYCLES;currCycle++) { ... }] *)
Fixpoint runPCR_for (inner fuel : nat) : prog unit :=
  fun s0 =>
    if currCycle s0 <? NUM_CYCLES then
      match fuel with
      | O => OutOfFuel s0
      | S fuel' =>
          (r <- cycle inner;;
           match r with
           | Break _ => ret tt
           | Continue _ =>
               c <- gets currCycle;;
               upd (set_currCycle (int16 (c + 1)));;
               runPCR_for inner fuel'
           end) s0
      end
    else Done tt s0.

(** What [runPCR] does once the loop is left. *)
Definition runPCR_end : prog unit :=
  digitalWrite FAN_PIN HIGH;;
  ph <- gets currPhase;;
  when (negb (phase_eqb ph FAULT)) (setStatus IDLE);;
  log true.

Definition runPCR (fuel : nat) : prog unit :=
  now <- millis;;
  upd (set_startCycleTime now);;
  upd (set_timeCounter 0);;
  upd (set_faultCode "0");;
  upd (set_currCycle 0);;
  runPCR_for fuel fuel;;
  runPCR_end.

(** ** Reading the code: comparisons *)

Lemma dlt_true (x y : double) : dlt x y = true <-> (x < y)%Q.
Proof.
  unfold dlt. rewrite negb_true_iff, <- not_true_iff_false, Qle_bool_iff.
  split; [apply Qnot_le_lt | apply Qlt_not_le].
Qed.

Lemma dlt_false (x y : double) : dlt x y = false <-> (y <= x)%Q.
Proof.
  unfold dlt. rewrite negb_false_iff. apply Qle_bool_iff.
Qed.

Lemma dge_true (x y : double) : dge x y = true <-> (y <= x)%Q.
Proof. apply Qle_bool_iff. Qed.

Lemma dge_false (x y : double) : dge x y = false <-> (x < y)%Q.
Proof.
  unfold dge. rewrite <- not_true_iff_false, Qle_bool_iff.
  split; [apply Qnot_le_lt | apply Qlt_not_le].
Qed.

Lemma dgt_true (x y : double) : dgt x y = true <-> (y < x)%Q.
Proof. apply dlt_true. Qed.

Lemma dgt_false (x y : double) : dgt x y = false <-> (x <= y)%Q.
Proof. apply dlt_false. Qed.

(** ** Reading the code: [log] as one assignment *)

(** Whole seconds since the run started, as [log] computes them. *)
Definition seconds (s : state) : Z :=
  usub (ulong (clock s)) (startCycleTime s) / 1000.

(** Whether a call of [log] prints. *)
Definition due (force : bool) (s : state) : bool :=
  (timeCounter s <? seconds s) || force.

(** The line [log] prints in state [s], when it prints. *)
Definition log_line (s : state) : logline :=
  let ts := seconds s in
  let t := ts mod 3600 in
  let ts' := usub (ulong (clock s)) (startPhaseTime s) / 1000 in
  let t' := match v with pcrssv => ts' mod 3600 | pcrfv => t mod 3600 end in
  let iPart := double_to_int (currTemp s) in
  mkLogline (ts / 3600) (t / 60) (t mod 60) (currCycle s + 1) (currPhase s)
    (t' / 60) (t' mod 60) iPart
    (double_to_int ((currTemp s - inject_Z iPart) * 100)%Q) (faultCode s).

(** What [log] prints, and the value it leaves in [timeCounter]. *)
Definition log_out (force : bool) (s : state) : list event :=
  if due force s then [LogLine (log_line s)] else [].

Definition log_mark (force : bool) (s : state) : Z :=
  if due force s then seconds s else timeCounter s.

Definition log_upd (force : bool) (s : state) : state :=
  emits (log_out force s) (set_timeCounter (log_mark force s) s).

Lemma log_eq (force : bool) (s : state) :
  log force s = Done tt (log_upd force s).
Proof.
  destruct s.
  unfold log, log_upd, log_out, log_mark, log_line, due, seconds, bind,
    millis, gets, upd, ret.
  cbn [timeCounter clock startCycleTime startPhaseTime currCycle currPhase
       currTemp faultCode set_timeCounter emit emits].
  destruct (_ || force); cbn [emits set_timeCounter];
    rewrite ?app_nil_r; reflexivity.
Qed.

Lemma log_upd_idle (s : state) : due false s = false -> log_upd false s = s.
Proof.
  destruct s. unfold log_upd, log_out, log_mark. intros ->.
  cbn. rewrite app_nil_r. reflexivity.
Qed.

Lemma trace_log_upd force s :
  trace (log_upd force s) = trace s ++ log_out force s.
Proof. destruct s. reflexivity. Qed.

Lemma timeCounter_log_upd force s :
  timeCounter (log_upd force s) = log_mark force s.
Proof. destruct s. reflexivity. Qed.

Lemma currCycle_log_upd f s : currCycle (log_upd f s) = currCycle s.
Proof. destruct s. reflexivity. Qed.

Lemma currPhase_log_upd f s : currPhase (log_upd f s) = currPhase s.
Proof. destruct s. reflexivity. Qed.

Lemma faultCode_log_upd f s : faultCode (log_upd f s) = faultCode s.
Proof. destruct s. reflexivity. Qed.

(** [log] assigns no other global and touches nothing of the board. *)
Lemma log_upd_frame f s :
  let s' := log_upd f s in
  currInButton s' = currInButton s /\ prevInButton s' = prevInButton s
  /\ startCycleTime s' = startCycleTime s
  /\ startPhaseTime s' = startPhaseTime s
  /\ currTemp s' = currTemp s /\ prevTemp s' = prevTemp s
  /\ clock s' = clock s /\ pins s' = pins s
  /\ reads s' = reads s /\ polls s' = polls s.
Proof. destruct s. repeat split. Qed.

(** ** The run logger *)

(** C9.  A call of [log] prints a line if and only if the whole seconds of
    the run have advanced past [timeCounter], the value kept at the last
    line, or the call is forced; a line that is printed, forced or not,
    sets [timeCounter] to the current second, and a call that prints
    nothing changes nothing.  Hence after a forced call an unforced call
    in the same whole second prints nothing. *)
Theorem log_rate_limited (force : bool) (s : state) :
  let printing := timeCounter s < seconds s \/ force = true in
  let s' := final (log force s) in
  log force s = Done tt s'
  /\ ((exists r, trace s' = trace s ++ [LogLine r]) <-> printing)
  /\ (printing -> trace s' = trace s ++ [LogLine (log_line s)]
                  /\ timeCounter s' = seconds s)
  /\ (~ printing -> s' = s)
  /\ timeCounter (final (log true s)) = seconds s
  /\ (forall s2 : state,
        seconds s2 = seconds s ->
        timeCounter s2 = timeCounter (final (log true s)) ->
        final (log false s2) = s2).
Proof.
  intros printing s'. subst s'. rewrite !log_eq. cbn [final].
  rewrite trace_log_upd, !timeCounter_log_upd.
  assert (Hdue : due force s = true <-> printing).
  { unfold due, printing. rewrite orb_true_iff, Z.ltb_lt. tauto. }
  unfold log_out, log_mark.
  split; [reflexivity|].
  split.
  { rewrite <- Hdue. destruct (due force s).
    - split; [reflexivity | intros _; eexists; reflexivity].
    - split; [intros [r Hr] | discriminate].
      apply app_inv_head in Hr. discriminate. }
  split.
  { intros Hd. apply Hdue in Hd. rewrite Hd. split; reflexivity. }
  split.
  { intros Hd. destruct force.
    - exfalso. apply Hd. right. reflexivity.
    - apply log_upd_idle. apply not_true_is_false. intros E.
      apply Hd, Hdue, E. }
  assert (Hforced : due true s = true) by apply orb_true_r.
  rewrite Hforced.
  split; [reflexivity|].
  intros s2 Hsec Htc. rewrite log_eq. cbn [final].
  apply log_upd_idle. unfold due.
  rewrite Htc, Hsec, Z.ltb_irrefl. reflexivity.
Qed.

(** ** The heating pulse *)

Lemma double_to_int_floor (q : Q) : (0 <= q)%Q -> double_to_int q = Qfloor q.
Proof.
  destruct q as [n d]. unfold Qle, double_to_int, Qfloor. cbn [Qnum Qden].
  intros H. apply Z.quot_div_nonneg; lia.
Qed.

Lemma dmin_le_l (a b : Q) : (dmin a b <= a)%Q.
Proof.
  unfold dmin. destruct (dlt a b) eqn:E.
  - apply Qle_refl.
  - apply dlt_false in E. exact E.
Qed.

Lemma dmin_mono (a b c : Q) : (b <= c)%Q -> (dmin a b <= dmin a c)%Q.
Proof.
  intros H. unfold dmin.
  destruct (dlt a b) eqn:E1, (dlt a c) eqn:E2;
    rewrite ?dlt_true, ?dlt_false in *; lra.
Qed.

Lemma dmin_ge (a b c : Q) : (c <= a)%Q -> (c <= b)%Q -> (c <= dmin a b)%Q.
Proof. intros. unfold dmin. destruct (dlt a b); assumption. Qed.

(** The [double] of which the pulse is the integer part. *)
Definition pulse_ms (setpoint currTemp : double) : Q :=
  dmin (inject_Z MAX_PULSE_DURATION)
       (inject_Z PULSE_DURATION_MULT * (setpoint - currTemp)
        + inject_Z MIN_PULSE_DURATION)%Q.

Lemma pulse_ms_ge (S T : double) :
  (T < S)%Q -> (inject_Z MIN_PULSE_DURATION <= pulse_ms S T)%Q.
Proof.
  intros H. apply dmin_ge.
  - unfold MIN_PULSE_DURATION, MAX_PULSE_DURATION, inject_Z, Qle. cbn. lia.
  - unfold PULSE_DURATION_MULT, MIN_PULSE_DURATION.
    change (inject_Z 600) with 600%Q. change (inject_Z 80) with 80%Q. lra.
Qed.

Lemma pulse_ms_mono (S T1 T2 : double) :
  (T1 <= T2)%Q -> (pulse_ms S T2 <= pulse_ms S T1)%Q.
Proof.
  intros H. apply dmin_mono. unfold PULSE_DURATION_MULT.
  change (inject_Z 600) with 600%Q. lra.
Qed.

Lemma pulseDuration_floor (S T : double) :
  (T < S)%Q -> pulseDuration S T = Qfloor (pulse_ms S T).
Proof.
  intros H. apply double_to_int_floor.
  apply Qle_trans with (inject_Z MIN_PULSE_DURATION); [|apply pulse_ms_ge, H].
  unfold MIN_PULSE_DURATION, inject_Z, Qle. cbn. lia.
Qed.

(** The pulse as the specification words it: the gap times the multiplier
    plus the minimum, clamped between minimum and maximum.  The code only
    caps it; below the setpoint the two agree. *)
Definition clamp (x lo hi : Q) : Q :=
  if dlt x lo then lo else if dlt hi x then hi else x.

Lemma pulse_ms_clamp (S T : double) :
  (T < S)%Q ->
  pulse_ms S T
  = clamp (inject_Z PULSE_DURATION_MULT * (S - T)
           + inject_Z MIN_PULSE_DURATION)%Q
          (inject_Z MIN_PULSE_DURATION) (inject_Z MAX_PULSE_DURATION).
Proof.
  intros H. unfold pulse_ms, clamp, dmin.
  assert (E : dlt (inject_Z PULSE_DURATION_MULT * (S - T)
                   + inject_Z MIN_PULSE_DURATION)%Q
                  (inject_Z MIN_PULSE_DURATION) = false).
  { apply dlt_false. unfold PULSE_DURATION_MULT, MIN_PULSE_DURATION.
    change (inject_Z 600) with 600%Q. change (inject_Z 80) with 80%Q. lra. }
  rewrite E. reflexivity.
Qed.

(** ** Running the code symbolically *)

(** What a computation guarantees: [Q] of its result and state when it
    returns, [R] of the state it has reached when the fuel is spent. *)
Definition post {A} (o : outcome A) (Q : A -> state -> Prop)
  (R : state -> Prop) : Prop :=
  match o with
  | Done a s => Q a s
  | OutOfFuel s => R s
  end.

Lemma bind_log {A} f (k : unit -> prog A) s :
  bind (log f) k s = k tt (log_upd f s).
Proof. unfold bind. rewrite log_eq. reflexivity. Qed.

Lemma bind_assoc {A B C} (m : prog A) (f : A -> prog B) (g : B -> prog C) s :
  bind (bind m f) g s = bind m (fun a => bind (f a) g) s.
Proof. unfold bind. destruct (m s); reflexivity. Qed.

Lemma bind_if {A B} (c : bool) (a b : prog A) (k : A -> prog B) s :
  bind (if c then a else b) k s = if c then bind a k s else bind b k s.
Proof. destruct c; reflexivity. Qed.

(** One step of symbolic execution from a state of known fields: unfold
    the monad and the straight-line code, keep [log] as the assignment
    [log_upd]. *)
Ltac exec1 :=
  cbn [bind ret gets upd when final post millis delay digitalWrite
       readCelsius digitalRead_START_STOP buttonPressed log_upd
       currInButton prevInButton startCycleTime startPhaseTime timeCounter
       currCycle currPhase currTemp prevTemp faultCode clock pins reads polls
       trace set_currInButton set_prevInButton set_startCycleTime
       set_startPhaseTime set_timeCounter set_currCycle set_currPhase
       set_currTemp set_prevTemp set_faultCode set_clock set_pins set_reads
       set_polls emit emits pin_eqb].

(** The monad laws are applied where they match as written, so that no
    procedure is unfolded to make them match. *)
Ltac exec2 :=
  repeat match goal with
         | |- context [bind (log ?f) ?k ?s] => rewrite (bind_log f k s)
         | |- context [log ?f ?s] => rewrite (log_eq f s)
         | |- context [bind (bind ?m ?f) ?g ?s] =>
             rewrite (bind_assoc m f g s)
         | |- context [bind (if ?c then ?a else ?b) ?k ?s] =>
             rewrite (bind_if c a b k s)
         end.

Ltac exec := repeat (progress (exec1; exec2)).

(** Falling edge seen by the next call of [buttonPressed]. *)
Definition pressed (s : state) : bool :=
  negb (level_eqb (pushbutton (polls s)) (prevInButton s))
  && level_eqb (pushbutton (polls s)) LOW.

(** The events of a trace that command the board: writes and delays. *)
Definition commands (l : list event) : list event :=
  filter (fun e => match e with LogLine _ => false | _ => true end) l.

Lemma commands_app l1 l2 : commands (l1 ++ l2) = commands l1 ++ commands l2.
Proof. apply filter_app. Qed.

Lemma commands_log_out f s : commands (log_out f s) = [].
Proof. unfold log_out. destruct (due f s); reflexivity. Qed.

(** The heater is never switched on in [l]. *)
Definition heater_untouched (l : list event) : Prop :=
  ~ In (DigitalWrite HEAT_PIN HIGH) l.

Lemma heater_untouched_commands l :
  ~ In (DigitalWrite HEAT_PIN HIGH) (commands l) -> heater_untouched l.
Proof.
  unfold heater_untouched, commands. intros H Hin. apply H.
  apply filter_In. split; [exact Hin | reflexivity].
Qed.

(** ** heatUp: the checks on entry *)

(** The state in which [heatUp] makes its checks: fan off, phase timer
    started, first sample taken and logged. *)
Definition heatUp_entry (s : state) : state :=
  let t := thermocouple (reads s) in
  log_upd false
    (set_currTemp t
       (set_prevTemp t
          (set_reads (S (reads s))
             (set_startPhaseTime (ulong (clock s))
                (emit (DigitalWrite FAN_PIN LOW)
                   (set_pins (fun q => if pin_eqb q FAN_PIN then LOW
                                       else pins s q) s)))))).

Lemma heatUp_eq (fuel : nat) (setpoint : double) (s : state) :
  heatUp fuel setpoint s =
  let s1 := heatUp_entry s in
  if dlt (currTemp s1) ROOM_TEMP then Done false (set_faultCode "2" s1)
  else if dgt (currTemp s1) setpoint then Done false (set_faultCode "3" s1)
  else heatUp_while fuel fuel setpoint 0 false s1.
Proof.
  destruct s. unfold heatUp, heatUp_entry. exec.
  destruct (dlt _ ROOM_TEMP); [reflexivity|].
  destruct (dgt _ setpoint); reflexivity.
Qed.

Lemma currTemp_heatUp_entry s :
  currTemp (heatUp_entry s) = thermocouple (reads s).
Proof. destruct s. reflexivity. Qed.

Lemma faultCode_heatUp_entry s : faultCode (heatUp_entry s) = faultCode s.
Proof. destruct s. reflexivity. Qed.

Lemma entry_commands s :
  exists evs, trace (heatUp_entry s) = trace s ++ evs
              /\ commands evs = [DigitalWrite FAN_PIN LOW].
Proof.
  destruct s. unfold heatUp_entry. exec. rewrite <- app_assoc.
  eexists. split; [reflexivity|].
  rewrite commands_app, commands_log_out. reflexivity.
Qed.

Lemma pins_heatUp_entry s : pins (heatUp_entry s) HEAT_PIN = pins s HEAT_PIN.
Proof. destruct s. reflexivity. Qed.

Lemma entry_heater_untouched evs :
  commands evs = [DigitalWrite FAN_PIN LOW] -> heater_untouched evs.
Proof.
  intros Hc. apply heater_untouched_commands. rewrite Hc.
  intros [E | []]. discriminate.
Qed.

Lemma faultCode_set_faultCode c x : faultCode (set_faultCode c x) = c.
Proof. destruct x. reflexivity. Qed.

Lemma trace_set_faultCode c x : trace (set_faultCode c x) = trace x.
Proof. destruct x. reflexivity. Qed.

Lemma pins_set_faultCode c x : pins (set_faultCode c x) = pins x.
Proof. destruct x. reflexivity. Qed.

(** C1.  Whatever the setpoint, when the first sample of [heatUp] is below
    [ROOM_TEMP], [heatUp] returns [false] with fault code '2', and between
    its call and its return the heater is never switched on: the only
    command to the board is the fan being switched off. *)
Theorem heatUp_sensor_failure (fuel : nat) (setpoint : double) (s : state) :
  (thermocouple (reads s) < ROOM_TEMP)%Q ->
  exists s' evs,
    heatUp fuel setpoint s = Done false s'
    /\ faultCode s' = "2"%char
    /\ trace s' = trace s ++ evs
    /\ commands evs = [DigitalWrite FAN_PIN LOW]
    /\ heater_untouched evs
    /\ pins s' HEAT_PIN = pins s HEAT_PIN.
Proof.
  intros H. apply dlt_true in H.
  destruct (entry_commands s) as (evs & Ht & Hc).
  exists (set_faultCode "2" (heatUp_entry s)), evs.
  rewrite heatUp_eq. cbv zeta. rewrite currTemp_heatUp_entry, H.
  rewrite trace_set_faultCode, pins_set_faultCode.
  split; [reflexivity|]. split; [apply faultCode_set_faultCode|].
  split; [exact Ht|]. split; [exact Hc|].
  split; [exact (entry_heater_untouched evs Hc) | apply pins_heatUp_entry].
Qed.

(** C2.  Whatever the setpoint, when the first sample of [heatUp] is at or
    above [ROOM_TEMP] and above the setpoint, [heatUp] returns [false] with
    fault code '3', and the heater is never switched on in between. *)
Theorem heatUp_entry_above_setpoint (fuel : nat) (setpoint : double)
  (s : state) :
  (ROOM_TEMP <= thermocouple (reads s))%Q ->
  (setpoint < thermocouple (reads s))%Q ->
  exists s' evs,
    heatUp fuel setpoint s = Done false s'
    /\ faultCode s' = "3"%char
    /\ trace s' = trace s ++ evs
    /\ commands evs = [DigitalWrite FAN_PIN LOW]
    /\ heater_untouched evs
    /\ pins s' HEAT_PIN = pins s HEAT_PIN.
Proof.
  intros Hroom H. apply dlt_false in Hroom. apply dgt_true in H.
  destruct (entry_commands s) as (evs & Ht & Hc).
  exists (set_faultCode "3" (heatUp_entry s)), evs.
  rewrite heatUp_eq. cbv zeta. rewrite currTemp_heatUp_entry, Hroom, H.
  rewrite trace_set_faultCode, pins_set_faultCode.
  split; [reflexivity|]. split; [apply faultCode_set_faultCode|].
  split; [exact Ht|]. split; [exact Hc|].
  split; [exact (entry_heater_untouched evs Hc) | apply pins_heatUp_entry].
Qed.

(** When the first sample equals the setpoint, neither check fires, the
    rise ramp is not entered, and [heatUp] returns its initial [ris],
    [false], without having assigned the fault code. *)
Lemma heatUp_entry_at_setpoint (fuel : nat) (setpoint : double) (s : state) :
  (ROOM_TEMP <= thermocouple (reads s))%Q ->
  (thermocouple (reads s) == setpoint)%Q ->
  heatUp fuel setpoint s = Done false (heatUp_entry s)
  /\ faultCode (heatUp_entry s) = faultCode s.
Proof.
  intros Hroom H. apply dlt_false in Hroom.
  rewrite heatUp_eq. cbv zeta. rewrite currTemp_heatUp_entry, Hroom.
  assert (Hgt : dgt (thermocouple (reads s)) setpoint = false).
  { apply dgt_false. rewrite H. apply Qle_refl. }
  assert (Hlt : dlt (thermocouple (reads s)) setpoint = false).
  { apply dlt_false. rewrite H. apply Qle_refl. }
  rewrite Hgt. split; [|apply faultCode_heatUp_entry].
  destruct fuel; cbn [heatUp_while];
    rewrite currTemp_heatUp_entry, Hlt; reflexivity.
Qed.

(** ** What a regulator leaves alone *)

(** A line printed while the globals are those of [s]. *)
Definition logged_from (s : state) (e : event) : Prop :=
  forall r, e = LogLine r ->
            ll_fault r = faultCode s /\ ll_phase r = currPhase s
            /\ ll_cycle r = currCycle s + 1.

(** [ran s s']: from [s] the sketch has reached [s'] without assigning the
    cycle, the phase or the start of the run, and every line printed on
    the way shows the fault code and the phase of [s]. *)
Record ran (s s' : state) : Prop := mkRan {
  ran_cycle : currCycle s' = currCycle s;
  ran_phase : currPhase s' = currPhase s;
  ran_start : startCycleTime s' = startCycleTime s;
  ran_trace : exists evs, trace s' = trace s ++ evs
                          /\ Forall (logged_from s) evs
}.

(** [steady s s']: moreover the fault code has not been assigned. *)
Definition steady (s s' : state) : Prop :=
  ran s s' /\ faultCode s' = faultCode s.

Lemma steady_refl s : steady s s.
Proof.
  split; [split|]; try reflexivity.
  exists []. split; [symmetry; apply app_nil_r | constructor].
Qed.

Lemma logged_from_eq s x e :
  faultCode x = faultCode s -> currPhase x = currPhase s ->
  currCycle x = currCycle s -> logged_from x e -> logged_from s e.
Proof. unfold logged_from. intros <- <- <-. auto. Qed.

Lemma steady_then_ran a b c : steady a b -> ran b c -> ran a c.
Proof.
  intros [[Hc Hp Hs (e1 & Ht1 & Hf1)] Hfc] [Hc' Hp' Hs' (e2 & Ht2 & Hf2)].
  split; try congruence.
  exists (e1 ++ e2). split.
  - rewrite Ht2, Ht1. symmetry. apply app_assoc.
  - apply Forall_app. split; [exact Hf1|].
    eapply Forall_impl; [|exact Hf2]. intros e. now apply logged_from_eq.
Qed.

Lemma steady_trans a b c : steady a b -> steady b c -> steady a c.
Proof.
  intros Hab [Hbc Hfc]. split.
  - eapply steady_then_ran; eassumption.
  - destruct Hab as [_ Hfa]. congruence.
Qed.

Lemma steady_ran s s' : steady s s' -> ran s s'.
Proof. intros [H _]. exact H. Qed.

Lemma ran_refl s : ran s s.
Proof. apply steady_ran, steady_refl. Qed.

Ltac steady_frame :=
  intros s x [[Hc Hp Hs (evs & Ht & Hf)] Hfc]; destruct x;
  split; [split|]; try assumption;
  exists evs; split; assumption.

Lemma steady_set_currInButton a : forall s x,
  steady s x -> steady s (set_currInButton a x).
Proof. steady_frame. Qed.
Lemma steady_set_prevInButton a : forall s x,
  steady s x -> steady s (set_prevInButton a x).
Proof. steady_frame. Qed.
Lemma steady_set_startPhaseTime a : forall s x,
  steady s x -> steady s (set_startPhaseTime a x).
Proof. steady_frame. Qed.
Lemma steady_set_timeCounter a : forall s x,
  steady s x -> steady s (set_timeCounter a x).
Proof. steady_frame. Qed.
Lemma steady_set_currTemp a : forall s x,
  steady s x -> steady s (set_currTemp a x).
Proof. steady_frame. Qed.
Lemma steady_set_prevTemp a : forall s x,
  steady s x -> steady s (set_prevTemp a x).
Proof. steady_frame. Qed.
Lemma steady_set_clock a : forall s x,
  steady s x -> steady s (set_clock a x).
Proof. steady_frame. Qed.
Lemma steady_set_pins a : forall s x,
  steady s x -> steady s (set_pins a x).
Proof. steady_frame. Qed.
Lemma steady_set_reads a : forall s x,
  steady s x -> steady s (set_reads a x).
Proof. steady_frame. Qed.
Lemma steady_set_polls a : forall s x,
  steady s x -> steady s (set_polls a x).
Proof. steady_frame. Qed.

Lemma steady_emits es s x :
  Forall (logged_from x) es -> steady s x -> steady s (emits es x).
Proof.
  intros He [[Hc Hp Hs (evs & Ht & Hf)] Hfc]. destruct x.
  split; [split|]; try assumption.
  exists (evs ++ es). split.
  - cbn [trace emits] in *. rewrite Ht. symmetry. apply app_assoc.
  - apply Forall_app. split; [exact Hf|].
    eapply Forall_impl; [|exact He]. intros e.
    now apply logged_from_eq.
Qed.

Lemma steady_delay ms s x : steady s x -> steady s (emit (Delay ms) x).
Proof.
  apply steady_emits. constructor; [|constructor]. intros r E. discriminate.
Qed.

Lemma steady_write p l s x :
  steady s x -> steady s (emit (DigitalWrite p l) x).
Proof.
  apply steady_emits. constructor; [|constructor]. intros r E. discriminate.
Qed.

Lemma steady_log_upd f s x : steady s x -> steady s (log_upd f x).
Proof.
  intros H. unfold log_upd. apply steady_emits.
  - unfold log_out. destruct (due f x); constructor; [|constructor].
    intros r E. injection E as <-. destruct x. cbn. auto.
  - now apply steady_set_timeCounter.
Qed.

Lemma ran_set_faultCode c s x : steady s x -> ran s (set_faultCode c x).
Proof.
  intros [[Hc Hp Hs (evs & Ht & Hf)] Hfc]. destruct x.
  split; try assumption.
  exists evs. split; assumption.
Qed.

Lemma ran_set_pins a s x : ran s x -> ran s (set_pins a x).
Proof. intros [Hc Hp Hs Ht]. destruct x. split; assumption. Qed.

Lemma ran_write p l s x : ran s x -> ran s (emit (DigitalWrite p l) x).
Proof.
  intros [Hc Hp Hs (evs & Ht & Hf)]. destruct x. split; try assumption.
  exists (evs ++ [DigitalWrite p l]). split.
  - cbn [trace emit emits] in *. rewrite Ht. symmetry. apply app_assoc.
  - apply Forall_app. split; [exact Hf|].
    constructor; [|constructor]. intros r E. discriminate.
Qed.

Lemma post_mono {A} (o : outcome A) (Q Q' : A -> state -> Prop)
  (R R' : state -> Prop) :
  post o Q R -> (forall a s, Q a s -> Q' a s) -> (forall s, R s -> R' s) ->
  post o Q' R'.
Proof. destruct o; cbn; auto. Qed.

Lemma post_bind {A B} (m : prog A) (k : A -> prog B) (s : state)
  (Q : B -> state -> Prop) (R : state -> Prop) :
  post (m s) (fun a s' => post (k a s') Q R) R -> post (bind m k s) Q R.
Proof. unfold bind. destruct (m s); cbn; auto. Qed.

(** *** Code that keeps the globals steady *)

Definition keeps {A} (m : prog A) : Prop :=
  forall s, post (m s) (fun _ s' => steady s s') (steady s).

Lemma keeps_ret {A} (a : A) : keeps (ret a).
Proof. intros s. apply steady_refl. Qed.

Lemma keeps_gets {A} (f : state -> A) : keeps (gets f).
Proof. intros s. apply steady_refl. Qed.

Lemma keeps_upd (f : state -> state) :
  (forall s x, steady s x -> steady s (f x)) -> keeps (upd f).
Proof. intros H s. apply H, steady_refl. Qed.

Lemma keeps_bind {A B} (m : prog A) (k : A -> prog B) :
  keeps m -> (forall a, keeps (k a)) -> keeps (bind m k).
Proof.
  intros Hm Hk s. apply post_bind.
  eapply post_mono; [apply Hm| |auto]. cbn beta. intros a s1 H1.
  eapply post_mono; [apply Hk| |]; cbn beta; intros;
    eapply steady_trans; eassumption.
Qed.

Lemma keeps_if {A} (c : bool) (a b : prog A) :
  keeps a -> keeps b -> keeps (if c then a else b).
Proof. destruct c; auto. Qed.

Lemma keeps_millis : keeps millis.
Proof. apply keeps_gets. Qed.

Lemma keeps_delay ms : keeps (delay ms).
Proof.
  apply keeps_upd. intros s x H. now apply steady_delay, steady_set_clock.
Qed.

Lemma keeps_digitalWrite p l : keeps (digitalWrite p l).
Proof.
  apply keeps_upd. intros s x H. now apply steady_write, steady_set_pins.
Qed.

Lemma keeps_readCelsius : keeps readCelsius.
Proof. intros s. apply steady_set_reads, steady_refl. Qed.

Lemma keeps_digitalRead_START_STOP : keeps digitalRead_START_STOP.
Proof. intros s. apply steady_set_polls, steady_refl. Qed.

Lemma keeps_log f : keeps (log f).
Proof. intros s. rewrite log_eq. apply steady_log_upd, steady_refl. Qed.

Create HintDb keeps.
Hint Resolve keeps_ret keeps_gets keeps_bind keeps_if keeps_millis
  keeps_delay keeps_digitalWrite keeps_readCelsius
  keeps_digitalRead_START_STOP keeps_log : keeps.
Hint Extern 1 (keeps (upd _)) =>
  apply keeps_upd; auto using steady_set_currInButton,
    steady_set_prevInButton, steady_set_startPhaseTime,
    steady_set_timeCounter, steady_set_currTemp, steady_set_prevTemp : keeps.

Ltac keeps := solve [unfold when; eauto 40 with keeps].

Lemma keeps_buttonPressed : keeps buttonPressed.
Proof. unfold buttonPressed. keeps. Qed.

Hint Resolve keeps_buttonPressed : keeps.

Lemma keeps_hold_adjust setpoint : keeps (hold_adjust setpoint).
Proof. unfold hold_adjust. destruct v; keeps. Qed.

(** A goal about straight-line code run in [s], closed as [keeps]. *)
Ltac keeps_at :=
  match goal with
  | |- post (?m ?s) _ _ => apply ((ltac:(keeps) : keeps m) s)
  end.

Lemma keeps_overheat_wait fuel : keeps (overheat_wait fuel).
Proof.
  induction fuel as [|fuel IH]; intros s; cbn [overheat_wait].
  - apply steady_refl.
  - keeps_at.
Qed.

Lemma keeps_slope_wait fuel : keeps (slope_wait fuel).
Proof.
  induction fuel as [|fuel IH]; intros s; cbn [slope_wait];
    (destruct (dge _ _); [|apply steady_refl]).
  - apply steady_refl.
  - keeps_at.
Qed.

Lemma keeps_ceiling_wait fuel : keeps (ceiling_wait fuel).
Proof.
  induction fuel as [|fuel IH]; intros s; cbn [ceiling_wait];
    (destruct (dge _ _); [|apply steady_refl]).
  - apply steady_refl.
  - keeps_at.
Qed.

Hint Resolve keeps_hold_adjust keeps_overheat_wait keeps_slope_wait
  keeps_ceiling_wait : keeps.

(** *** Code that may leave with a fault code *)

(** What is known when a regulator returns [ris] in [s'], having been
    called in [s]: a [true] comes with the fault code '0' or the fault code
    of the call; a [false] may have assigned it. *)
Definition reg_post (s : state) (ris : bool) (s' : state) : Prop :=
  ran s s'
  /\ (ris = true ->
      faultCode s' = "0"%char \/ faultCode s' = faultCode s).

Definition flow_post {A} (s : state) (r : flow bool A) (s' : state) : Prop :=
  match r with
  | Break ris => reg_post s ris s'
  | Continue _ => steady s s'
  end.

Definition brings (m : prog bool) : Prop :=
  forall s, post (m s) (reg_post s) (ran s).

Definition leaves {A} (m : prog (flow bool A)) : Prop :=
  forall s, post (m s) (flow_post s) (ran s).

Lemma reg_post_after s s1 ris s' :
  steady s s1 -> reg_post s1 ris s' -> reg_post s ris s'.
Proof.
  intros H [H1 H2]. split; [eapply steady_then_ran; eassumption|].
  destruct H as [_ Hfc]. rewrite <- Hfc. exact H2.
Qed.

Lemma reg_post_steady s ris s' : steady s s' -> reg_post s ris s'.
Proof. intros [H Hfc]. split; [exact H | auto]. Qed.

Lemma flow_post_after {A} s s1 (r : flow bool A) s' :
  steady s s1 -> flow_post s1 r s' -> flow_post s r s'.
Proof.
  destruct r; cbn; intros H H1;
    [eapply reg_post_after | eapply steady_trans]; eassumption.
Qed.

Lemma brings_bind {A} (m : prog A) (k : A -> prog bool) :
  keeps m -> (forall a, brings (k a)) -> brings (bind m k).
Proof.
  intros Hm Hk s. apply post_bind.
  eapply post_mono; [apply Hm| |auto using steady_ran]. cbn beta.
  intros a s1 H1. eapply post_mono; [apply Hk| |]; cbn beta; intros.
  - eapply reg_post_after; eassumption.
  - eapply steady_then_ran; eassumption.
Qed.

Lemma leaves_bind {A B} (m : prog A) (k : A -> prog (flow bool B)) :
  keeps m -> (forall a, leaves (k a)) -> leaves (bind m k).
Proof.
  intros Hm Hk s. apply post_bind.
  eapply post_mono; [apply Hm| |auto using steady_ran]. cbn beta.
  intros a s1 H1. eapply post_mono; [apply Hk| |]; cbn beta; intros.
  - eapply flow_post_after; eassumption.
  - eapply steady_then_ran; eassumption.
Qed.

Lemma brings_if (c : bool) (a b : prog bool) :
  brings a -> brings b -> brings (if c then a else b).
Proof. destruct c; auto. Qed.

Lemma leaves_if {A} (c : bool) (a b : prog (flow bool A)) :
  leaves a -> leaves b -> leaves (if c then a else b).
Proof. destruct c; auto. Qed.

Lemma brings_fault c : brings (upd (set_faultCode c);; ret false).
Proof.
  intros s. split; [|discriminate]. apply ran_set_faultCode, steady_refl.
Qed.

Lemma reg_post_reached s x :
  steady s x -> reg_post s true (set_faultCode "0" x).
Proof.
  intros H. split; [now apply ran_set_faultCode|].
  intros _. left. apply faultCode_set_faultCode.
Qed.

Lemma leaves_fault {A} c :
  leaves (upd (set_faultCode c);; ret (@Break bool A false)).
Proof.
  intros s. split; [|discriminate]. apply ran_set_faultCode, steady_refl.
Qed.

Lemma leaves_reached {A} :
  leaves (upd (set_faultCode "0");; ret (@Break bool A true)).
Proof. intros s. apply reg_post_reached, steady_refl. Qed.

Lemma leaves_continue {A} (a : A) : leaves (ret (@Continue bool A a)).
Proof. intros s. apply steady_refl. Qed.

Create HintDb leaves.
Hint Resolve brings_bind leaves_bind brings_if leaves_if brings_fault
  leaves_fault leaves_reached leaves_continue : leaves.
Hint Extern 1 (keeps _) => keeps : leaves.

Ltac leaves := solve [eauto 40 with leaves].

(** A loop around a body that [leaves]. *)
Lemma brings_loop {A} (body : prog (flow bool A)) (again : A -> prog bool) :
  leaves body -> (forall a, brings (again a)) ->
  brings (r <- body;;
          match r with
          | Break ris' => ret ris'
          | Continue a => again a
          end).
Proof.
  intros Hb Ha s. apply post_bind.
  eapply post_mono; [apply Hb| |auto]. cbn beta.
  intros [ris'|a] s1 H1; cbn in H1 |- *; [exact H1|].
  eapply post_mono; [apply Ha| |]; cbn beta; intros.
  - eapply reg_post_after; eassumption.
  - eapply steady_then_ran; eassumption.
Qed.

Lemma brings_exit ris s : post (Done ris s) (reg_post s) (ran s).
Proof. apply reg_post_steady, steady_refl. Qed.

(** *** coolDown *)

Lemma leaves_coolDown_body maxTimeout : leaves (coolDown_body maxTimeout).
Proof. unfold coolDown_body. leaves. Qed.

Lemma brings_coolDown_while fuel setpoint maxTimeout ris :
  brings (coolDown_while fuel setpoint maxTimeout ris).
Proof.
  induction fuel as [|fuel IH]; intros s; cbn [coolDown_while];
    (destruct (dgt _ _); [|apply brings_exit]).
  - apply ran_refl.
  - apply brings_loop; [apply leaves_coolDown_body | intros _; exact IH].
Qed.

Lemma reg_post_write s ris s' p l f :
  reg_post s ris s' ->
  reg_post s ris (emit (DigitalWrite p l) (set_pins f s')).
Proof.
  intros [H Hfc]. split; [now apply ran_write, ran_set_pins|].
  destruct s'. exact Hfc.
Qed.

Lemma brings_coolDown fuel setpoint maxTimeout :
  brings (coolDown fuel setpoint maxTimeout).
Proof.
  unfold coolDown.
  repeat (apply brings_bind; [keeps | intros ?]).
  intros s. apply post_bind.
  eapply post_mono; [apply brings_coolDown_while| |]; cbn beta.
  - intros ris s1 H. now apply reg_post_write.
  - auto.
Qed.

(** *** holdConstantTemp *)

Lemma leaves_holdConstantTemp_body setpoint :
  leaves (holdConstantTemp_body setpoint).
Proof. unfold holdConstantTemp_body. leaves. Qed.

Lemma brings_holdConstantTemp_while fuel duration setpoint elapsed ris :
  brings (holdConstantTemp_while fuel duration setpoint elapsed ris).
Proof.
  revert elapsed.
  induction fuel as [|fuel IH]; intros elapsed s;
    cbn [holdConstantTemp_while];
    (destruct (_ <? _); [|apply brings_exit]).
  - apply ran_refl.
  - apply brings_loop; [apply leaves_holdConstantTemp_body | exact IH].
Qed.

Lemma brings_holdConstantTemp fuel duration setpoint :
  brings (holdConstantTemp fuel duration setpoint).
Proof.
  unfold holdConstantTemp.
  repeat (apply brings_bind; [keeps | intros ?]).
  apply brings_holdConstantTemp_while.
Qed.

(** *** heatUp *)

Lemma leaves_heatUp_after_pulse inner setpoint curIteration :
  leaves (heatUp_after_pulse inner setpoint curIteration).
Proof.
  unfold heatUp_after_pulse.
  apply leaves_bind; [keeps | intros ct].
  apply leaves_if; [leaves|].
  repeat (apply leaves_bind; [keeps | intros ?]).
  apply leaves_if; [leaves|].
  apply leaves_bind; [keeps | intros pt].
  destruct (_ =? 0); leaves.
Qed.

Lemma leaves_heatUp_body inner setpoint curIteration :
  leaves (heatUp_body inner setpoint curIteration).
Proof.
  unfold heatUp_body.
  apply leaves_bind; [keeps | intros b].
  apply leaves_if; [leaves|]. cbv zeta.
  do 7 (apply leaves_bind; [keeps | intros ?]).
  apply leaves_heatUp_after_pulse.
Qed.

Lemma brings_heatUp_while inner fuel setpoint curIteration ris :
  brings (heatUp_while inner fuel setpoint curIteration ris).
Proof.
  revert curIteration.
  induction fuel as [|fuel IH]; intros curIteration s; cbn [heatUp_while];
    (destruct (dlt _ _); [|apply brings_exit]).
  - apply ran_refl.
  - apply brings_loop; [apply leaves_heatUp_body | exact IH].
Qed.

Lemma brings_heatUp fuel setpoint : brings (heatUp fuel setpoint).
Proof.
  unfold heatUp. cbv zeta.
  repeat (apply brings_bind; [keeps | intros ?]).
  repeat apply brings_if; try apply brings_fault.
  apply brings_heatUp_while.
Qed.

(** ** heatUp: the pulse of a turn *)

Lemma leaves_grows {A} (m : prog (flow bool A)) :
  leaves m -> forall x, exists evs, trace (final (m x)) = trace x ++ evs.
Proof.
  intros Hm x. specialize (Hm x).
  assert (H : ran x (final (m x))).
  { destruct (m x) as [[b|a] x'|x']; cbn in Hm |- *.
    - apply Hm.
    - apply steady_ran, Hm.
    - exact Hm. }
  destruct H as [_ _ _ (evs & H & _)]. exists evs. exact H.
Qed.

(** A turn of the rise ramp that does not see the stop button begins by
    switching the heater on for [pulseDuration setpoint currTemp]. *)
Lemma heatUp_body_pulse (inner : nat) (setpoint : double) (curIteration : Z)
  (s : state) :
  pressed s = false ->
  exists rest,
    trace (final (heatUp_body inner setpoint curIteration s))
    = trace s ++ [DigitalWrite HEAT_PIN HIGH;
                  Delay (pulseDuration setpoint (currTemp s))] ++ rest.
Proof.
  destruct s. unfold heatUp_body, pressed. cbn [polls prevInButton].
  intros Hp. exec. rewrite Hp. exec.
  match goal with
  | |- context [heatUp_after_pulse ?i ?S ?c ?x] =>
      destruct (leaves_grows _ (leaves_heatUp_after_pulse i S c) x)
        as (evs & ->)
  end.
  cbn [trace]. rewrite <- !app_assoc. eexists. reflexivity.
Qed.

(** C7.  A turn of the rise ramp of [heatUp] is entered with
    [currTemp < setpoint] and, unless the stop button ends it, begins by
    switching the heater on for [pulseDuration setpoint currTemp].  That
    pulse lies between [MIN_PULSE_DURATION] and [MAX_PULSE_DURATION]; and
    of two samples [T1 <= T2] below the setpoint, the one closer to the
    setpoint gets the pulse that is not longer. *)
Theorem pulseDuration_bounded_monotone (S : double) :
  (forall T : double,
      (T < S)%Q ->
      MIN_PULSE_DURATION <= pulseDuration S T <= MAX_PULSE_DURATION)
  /\ (forall T1 T2 : double,
        (T1 <= T2)%Q -> (T2 < S)%Q ->
        pulseDuration S T2 <= pulseDuration S T1)
  /\ (forall (inner : nat) (curIteration : Z) (s : state),
        (currTemp s < S)%Q -> pressed s = false ->
        MIN_PULSE_DURATION <= pulseDuration S (currTemp s)
                           <= MAX_PULSE_DURATION
        /\ exists rest,
            trace (final (heatUp_body inner S curIteration s))
            = trace s ++ [DigitalWrite HEAT_PIN HIGH;
                          Delay (pulseDuration S (currTemp s))] ++ rest)
  /\ (forall (inner fuel : nat) (curIteration : Z) (ris : bool) (s : state),
        (S <= currTemp s)%Q ->
        heatUp_while inner fuel S curIteration ris s = Done ris s).
Proof.
  assert (Hb : forall T : double,
             (T < S)%Q ->
             MIN_PULSE_DURATION <= pulseDuration S T <= MAX_PULSE_DURATION).
  { intros T H. rewrite pulseDuration_floor by exact H. split.
    - rewrite <- (Qfloor_Z MIN_PULSE_DURATION).
      apply Qfloor_resp_le, pulse_ms_ge, H.
    - rewrite <- (Qfloor_Z MAX_PULSE_DURATION).
      apply Qfloor_resp_le, dmin_le_l. }
  split; [exact Hb|split; [|split]].
  - intros T1 T2 H12 H2.
    rewrite !pulseDuration_floor by lra.
    apply Qfloor_resp_le, pulse_ms_mono, H12.
  - intros inner curIteration s Hlt Hp.
    split; [apply Hb, Hlt | now apply heatUp_body_pulse].
  - intros inner fuel curIteration ris s H. apply dlt_false in H.
    destruct fuel; cbn [heatUp_while]; rewrite H; reflexivity.
Qed.

(** ** coolDown *)

(** The state in which [coolDown] reaches its loop. *)
Definition coolDown_entry (s : state) : state :=
  log_upd false
    (set_currTemp (thermocouple (reads s))
       (set_reads (S (reads s)) (set_startPhaseTime (ulong (clock s)) s))).

Lemma coolDown_eq fuel setpoint maxTimeout s :
  coolDown fuel setpoint maxTimeout s =
  (ris <- coolDown_while fuel setpoint maxTimeout true;;
   digitalWrite FAN_PIN LOW;; ret ris) (coolDown_entry s).
Proof. destruct s. unfold coolDown, coolDown_entry. exec. reflexivity. Qed.

(** The state after one turn of the cooling loop. *)
Definition coolDown_turn (maxTimeout : Z) (s : state) : state :=
  set_prevInButton (pushbutton (polls s))
    (set_currInButton (pushbutton (polls s))
       (set_polls (S (polls s))
          (log_upd false
             (set_currTemp (thermocouple (reads s))
                (set_reads (S (reads s))
                   (emit (Delay maxTimeout)
                      (set_clock (clock s + maxTimeout)
                         (emit (DigitalWrite FAN_PIN HIGH)
                            (set_pins (fun q => if pin_eqb q FAN_PIN then HIGH
                                                else pins s q) s))))))))).

Lemma coolDown_body_eq maxTimeout s :
  coolDown_body maxTimeout s =
  if pressed s
  then Done (Break false) (set_faultCode "1" (coolDown_turn maxTimeout s))
  else Done (Continue tt) (coolDown_turn maxTimeout s).
Proof.
  destruct s. unfold coolDown_body, coolDown_turn, pressed. exec.
  destruct (_ && _); reflexivity.
Qed.

Lemma coolDown_turn_sample maxTimeout s :
  currTemp (coolDown_turn maxTimeout s) = thermocouple (reads s)
  /\ reads (coolDown_turn maxTimeout s) = S (reads s).
Proof. destruct s. split; reflexivity. Qed.

(** The loop is left within [n] turns when the [n]-th sample to come is
    at or below [limit]; for [n = 0] that sample is [currTemp]. *)
Lemma coolDown_while_returns (setpoint : double) (maxTimeout : Z) (ris : bool)
  (n : nat) :
  forall (fuel : nat) (s : state),
    (n <= fuel)%nat ->
    (match n with
     | O => currTemp s
     | S n' => thermocouple (reads s + n')
     end <= setpoint + FAN_THRESHOLD_TEMP)%Q ->
    exists ris' s', coolDown_while fuel setpoint maxTimeout ris s
                    = Done ris' s'.
Proof.
  induction n as [|n IH]; intros fuel s Hn Hcool.
  - apply dgt_false in Hcool.
    destruct fuel; cbn [coolDown_while]; rewrite Hcool; eauto.
  - destruct fuel as [|fuel]; [lia|]. cbn [coolDown_while].
    destruct (dgt _ _); [|eauto].
    unfold bind. rewrite coolDown_body_eq.
    destruct (pressed s); [cbn; eauto|].
    apply IH; [lia|].
    destruct (coolDown_turn_sample maxTimeout s) as [Ht Hr].
    destruct n as [|n].
    + rewrite Ht. rewrite Nat.add_0_r in Hcool. exact Hcool.
    + rewrite Hr. rewrite Nat.add_succ_r in Hcool. exact Hcool.
Qed.

Lemma coolDown_entry_frame s :
  currTemp (coolDown_entry s) = thermocouple (reads s)
  /\ reads (coolDown_entry s) = S (reads s)
  /\ polls (coolDown_entry s) = polls s
  /\ faultCode (coolDown_entry s) = faultCode s
  /\ exists es, trace (coolDown_entry s) = trace s ++ es
                /\ commands es = [].
Proof.
  destruct s. repeat split; try reflexivity.
  eexists. split; [reflexivity | apply commands_log_out].
Qed.

(** The last thing [coolDown] does. *)
Definition fan_off (s : state) : state :=
  emit (DigitalWrite FAN_PIN LOW)
       (set_pins (fun q => if pin_eqb q FAN_PIN then LOW else pins s q) s).

Lemma fan_off_frame s :
  pins (fan_off s) FAN_PIN = LOW
  /\ polls (fan_off s) = polls s
  /\ faultCode (fan_off s) = faultCode s
  /\ trace (fan_off s) = trace s ++ [DigitalWrite FAN_PIN LOW].
Proof. destruct s. repeat split; reflexivity. Qed.

Lemma coolDown_done fuel setpoint maxTimeout s ris s' :
  coolDown fuel setpoint maxTimeout s = Done ris s' ->
  exists s1, coolDown_while fuel setpoint maxTimeout true (coolDown_entry s)
             = Done ris s1
             /\ s' = fan_off s1.
Proof.
  rewrite coolDown_eq. unfold bind.
  destruct (coolDown_while _ _ _ _ _) as [ris1 s1|s1]; [|discriminate].
  destruct s1. cbn. intros E. injection E as <- <-.
  eexists. split; reflexivity.
Qed.

(** C10.  When the first sample of [coolDown] is at or below the setpoint
    plus [FAN_THRESHOLD_TEMP], [coolDown] returns [true] at once: its only
    command to the board is the final fan-off, the button is not polled
    and the fault code is unchanged.  Whenever [coolDown] returns, with
    [true] or [false], its last command has switched the fan off.  And it
    does return as soon as a sample is at or below that limit. *)
Theorem coolDown_fan (fuel : nat) (setpoint : double) (maxTimeout : Z)
  (s : state) :
  let limit := (setpoint + FAN_THRESHOLD_TEMP)%Q in
  ((thermocouple (reads s) <= limit)%Q ->
   exists s' evs,
     coolDown fuel setpoint maxTimeout s = Done true s'
     /\ trace s' = trace s ++ evs
     /\ commands evs = [DigitalWrite FAN_PIN LOW]
     /\ polls s' = polls s
     /\ faultCode s' = faultCode s
     /\ pins s' FAN_PIN = LOW)
  /\ (forall ris s',
        coolDown fuel setpoint maxTimeout s = Done ris s' ->
        pins s' FAN_PIN = LOW
        /\ exists evs,
            trace s' = trace s ++ evs ++ [DigitalWrite FAN_PIN LOW])
  /\ (forall n : nat,
        (n <= fuel)%nat -> (thermocouple (reads s + n) <= limit)%Q ->
        exists ris s', coolDown fuel setpoint maxTimeout s = Done ris s').
Proof.
  intros limit.
  destruct (coolDown_entry_frame s) as (Ht & Hr & Hp & Hfc & es & Htr & Hes).
  split; [|split].
  - intros H. apply dgt_false in H. rewrite <- Ht in H.
    assert (Hw : coolDown_while fuel setpoint maxTimeout true
                   (coolDown_entry s) = Done true (coolDown_entry s)).
    { destruct fuel; cbn [coolDown_while]; fold limit; rewrite H;
        reflexivity. }
    destruct (fan_off_frame (coolDown_entry s)) as (Hpin & Hp' & Hfc' & Htr').
    exists (fan_off (coolDown_entry s)), (es ++ [DigitalWrite FAN_PIN LOW]).
    split.
    { rewrite coolDown_eq. unfold bind. rewrite Hw.
      destruct (coolDown_entry s). reflexivity. }
    split; [rewrite Htr', Htr; symmetry; apply app_assoc|].
    split; [rewrite commands_app, Hes; reflexivity|].
    split; [congruence|]. split; [congruence | exact Hpin].
  - intros ris s' H. apply coolDown_done in H. destruct H as (s1 & Hw & ->).
    destruct (fan_off_frame s1) as (Hpin & _ & _ & Htr').
    split; [exact Hpin|].
    pose proof (brings_coolDown_while fuel setpoint maxTimeout true
                  (coolDown_entry s)) as Hb.
    rewrite Hw in Hb. destruct Hb as [[_ _ _ (evs & He & _)] _].
    exists (es ++ evs). rewrite Htr', He, Htr, <- !app_assoc. reflexivity.
  - intros n Hn Hcool.
    destruct (coolDown_while_returns setpoint maxTimeout true n fuel
                (coolDown_entry s) Hn) as (ris & s1 & Hw).
    { destruct n as [|n].
      - rewrite Ht. rewrite Nat.add_0_r in Hcool. exact Hcool.
      - rewrite Hr. rewrite Nat.add_succ_r in Hcool. exact Hcool. }
    exists ris, (fan_off s1).
    rewrite coolDown_eq. unfold bind. rewrite Hw.
    destruct s1. reflexivity.
Qed.

(** ** holdConstantTemp *)

Definition heater_pulse : list event :=
  [DigitalWrite HEAT_PIN HIGH; Delay (HOLD_PULSE_DURATION v);
   DigitalWrite HEAT_PIN LOW].

Definition fan_pulse : list event :=
  [DigitalWrite FAN_PIN HIGH; Delay (HOLD_PULSE_DURATION v);
   DigitalWrite FAN_PIN LOW].

(** What a turn of the hold loop does when the sample is in the dead
    band: [pcrssv.ino] waits as long as a pulse lasts, [pcrfv.ino] has no
    such branch. *)
Definition dead_band_idle : list event :=
  match v with
  | pcrssv => [Delay (HOLD_PULSE_DURATION v)]
  | pcrfv => []
  end.

Definition hold_pause : list event := [Delay (HOLD_PAUSE_DURATION v)].

Lemma holdConstantTemp_body_cases (setpoint : double) (s : state) :
  exists r s' evs,
    holdConstantTemp_body setpoint s = Done r s'
    /\ trace s' = trace s ++ evs
    /\ if pressed s then r = Break false /\ commands evs = []
       else (exists elapsed, r = Continue elapsed)
            /\ commands evs =
               (if dlt (thermocouple (reads s)) setpoint then heater_pulse
                else if dgt (thermocouple (reads s))
                            (setpoint + SETPOINT_THRESHOLD_TEMP)%Q
                     then fan_pulse
                     else dead_band_idle) ++ hold_pause.
Proof.
  destruct s.
  unfold holdConstantTemp_body, hold_adjust, pressed, dead_band_idle,
    heater_pulse, fan_pulse, hold_pause.
  exec. destruct (_ && _); exec.
  - do 2 eexists. exists []. rewrite app_nil_r. repeat split.
  - destruct (dlt _ _); [|destruct (dgt _ _); [|destruct v]]; exec;
      unfold ret; rewrite <- !app_assoc;
      (do 3 eexists; split; [reflexivity|]; cbn [trace];
       split; [reflexivity|]; split; [eexists; reflexivity|]);
      rewrite commands_app, commands_log_out; reflexivity.
Qed.

(** C8, as far as both sketches go.  A turn of the hold loop switches on at
    most one of heater and fan: below the setpoint it pulses the heater
    only, above the setpoint plus [SETPOINT_THRESHOLD_TEMP] the fan only,
    and in the dead band in between it switches nothing.  Every such turn
    ends with the pause of [HOLD_PAUSE_DURATION]; before it a dead-band
    turn of [pcrssv.ino] waits [HOLD_PULSE_DURATION], as long as a pulse
    lasts, while a dead-band turn of [pcrfv.ino] goes straight to the
    pause.  A turn that sees the stop button commands nothing. *)
Theorem holdConstantTemp_turn (setpoint : double) (s : state) :
  let T := thermocouple (reads s) in
  let pulse := Delay (HOLD_PULSE_DURATION v) in
  let pause := Delay (HOLD_PAUSE_DURATION v) in
  exists r s' evs,
    holdConstantTemp_body setpoint s = Done r s'
    /\ trace s' = trace s ++ evs
    /\ ~ (In (DigitalWrite HEAT_PIN HIGH) evs
          /\ In (DigitalWrite FAN_PIN HIGH) evs)
    /\ (pressed s = true -> r = Break false /\ commands evs = [])
    /\ (pressed s = false ->
        (exists elapsed, r = Continue elapsed)
        /\ ((T < setpoint)%Q ->
            commands evs =
            [DigitalWrite HEAT_PIN HIGH; pulse; DigitalWrite HEAT_PIN LOW;
             pause])
        /\ ((setpoint + SETPOINT_THRESHOLD_TEMP < T)%Q ->
            commands evs =
            [DigitalWrite FAN_PIN HIGH; pulse; DigitalWrite FAN_PIN LOW;
             pause])
        /\ ((setpoint <= T)%Q ->
            (T <= setpoint + SETPOINT_THRESHOLD_TEMP)%Q ->
            commands evs =
            match v with
            | pcrssv => [pulse; pause]
            | pcrfv => [pause]
            end)).
Proof.
  intros T pulse pause.
  destruct (holdConstantTemp_body_cases setpoint s)
    as (r & s' & evs & Hrun & Htr & Hcases).
  exists r, s', evs. split; [exact Hrun|]. split; [exact Htr|].
  assert (Hin : forall e, In e evs -> (forall l, e <> LogLine l) ->
                          In e (commands evs)).
  { intros e He Hl. apply filter_In. split; [exact He|].
    destruct e; try reflexivity. exfalso. eapply Hl. reflexivity. }
  assert (Hthr : (0 < SETPOINT_THRESHOLD_TEMP)%Q) by reflexivity.
  destruct (pressed s).
  - destruct Hcases as [-> Hc].
    split; [|split; [auto | discriminate]].
    intros [H _]. apply Hin in H; [|discriminate]. rewrite Hc in H.
    destruct H.
  - destruct Hcases as [Hr Hc]. fold T in Hc.
    split; [|split; [discriminate|]].
    + intros [Hh Hf].
      apply Hin in Hh; [|discriminate]. apply Hin in Hf; [|discriminate].
      rewrite Hc in Hh, Hf.
      unfold heater_pulse, fan_pulse, dead_band_idle, hold_pause in Hh, Hf.
      destruct (dlt T setpoint); [|destruct (dgt T _); [|destruct v]];
        cbn in Hh, Hf; intuition discriminate.
    + intros _. split; [exact Hr|].
      split; [|split].
      * intros H. apply dlt_true in H. rewrite H in Hc. exact Hc.
      * intros H. assert (Hlt : dlt T setpoint = false).
        { apply dlt_false. lra. }
        apply dgt_true in H. rewrite Hlt, H in Hc. exact Hc.
      * intros H1 H2. apply dlt_false in H1. apply dgt_false in H2.
        rewrite H1, H2 in Hc. rewrite Hc.
        unfold dead_band_idle, hold_pause. destruct v; reflexivity.
Qed.

(** ** runPCR *)

(** [setStatus] as one assignment. *)
Definition status_out (p : phase) : list event :=
  match v with
  | pcrssv => []
  | pcrfv =>
      let '(red, green, blue) := rgb p in
      [DigitalWrite RED_PIN red; DigitalWrite GREEN_PIN green;
       DigitalWrite BLUE_PIN blue]
  end.

Definition status_upd (p : phase) (s : state) : state :=
  match v with
  | pcrssv => set_currPhase p s
  | pcrfv =>
      let '(red, green, blue) := rgb p in
      let s1 := set_currPhase p s in
      let s2 :=
        emit (DigitalWrite RED_PIN red)
          (set_pins (fun q => if pin_eqb q RED_PIN then red else pins s1 q)
             s1) in
      let s3 :=
        emit (DigitalWrite GREEN_PIN green)
          (set_pins (fun q => if pin_eqb q GREEN_PIN then green
                              else pins s2 q) s2) in
      emit (DigitalWrite BLUE_PIN blue)
        (set_pins (fun q => if pin_eqb q BLUE_PIN then blue else pins s3 q)
           s3)
  end.

Lemma setStatus_eq p s : setStatus p s = Done tt (status_upd p s).
Proof.
  unfold setStatus, status_upd. destruct v; [reflexivity|].
  destruct (rgb p) as [[red green] blue]. reflexivity.
Qed.

Lemma status_upd_frame p s :
  currPhase (status_upd p s) = p
  /\ currCycle (status_upd p s) = currCycle s
  /\ faultCode (status_upd p s) = faultCode s
  /\ startCycleTime (status_upd p s) = startCycleTime s
  /\ timeCounter (status_upd p s) = timeCounter s
  /\ trace (status_upd p s) = trace s ++ status_out p.
Proof.
  destruct s. unfold status_upd, status_out. destruct v.
  - cbn. rewrite app_nil_r. repeat split.
  - destruct (rgb p) as [[red green] blue]. cbn.
    rewrite <- !app_assoc. repeat split.
Qed.

Lemma commands_status_out p :
  ~ In (DigitalWrite HEAT_PIN HIGH) (status_out p)
  /\ forall r, ~ In (LogLine r) (status_out p).
Proof.
  unfold status_out. destruct v; [cbn; tauto|].
  destruct (rgb p) as [[red green] blue].
  split; [|intros r]; cbn; intuition discriminate.
Qed.

(** The state in which a failed phase leaves the [for] loop: the cycle
    index at [NUM_CYCLES], the phase [FAULT], the unforced [log()] of the
    handler done. *)
Definition stopped (s : state) : state :=
  log_upd false (status_upd FAULT (set_currCycle NUM_CYCLES s)).

Lemma stopped_frame s :
  currCycle (stopped s) = NUM_CYCLES
  /\ currPhase (stopped s) = FAULT
  /\ faultCode (stopped s) = faultCode s.
Proof.
  unfold stopped. rewrite currCycle_log_upd, currPhase_log_upd,
    faultCode_log_upd.
  destruct (status_upd_frame FAULT (set_currCycle NUM_CYCLES s))
    as (Hp & Hc & Hf & _).
  rewrite Hp, Hc, Hf. destruct s. repeat split.
Qed.

Lemma phase_step_fails p call next s s1 :
  (setStatus p;; call) s = Done false s1 ->
  phase_step p call next s = Done (Break tt) (stopped s1).
Proof.
  unfold phase_step, bind. intros H.
  destruct (setStatus p s) as [[] s0|s0]; [|discriminate].
  rewrite H. cbn [negb upd]. rewrite setStatus_eq, log_eq. reflexivity.
Qed.

Lemma phase_step_succeeds p call next s s1 :
  (setStatus p;; call) s = Done true s1 ->
  phase_step p call next s = next s1.
Proof.
  unfold phase_step, bind. intros H.
  destruct (setStatus p s) as [[] s0|s0]; [|discriminate].
  rewrite H. reflexivity.
Qed.

(** The fan is switched on when the loop is left. *)
Definition fan_on (s : state) : state :=
  emit (DigitalWrite FAN_PIN HIGH)
       (set_pins (fun q => if pin_eqb q FAN_PIN then HIGH else pins s q) s).

Lemma runPCR_end_fault s :
  currPhase s = FAULT -> runPCR_end s = Done tt (log_upd true (fan_on s)).
Proof.
  destruct s. cbn [currPhase]. intros ->. unfold runPCR_end, fan_on. exec.
  cbn [phase_eqb negb]. exec. reflexivity.
Qed.

Lemma due_forced s : due true s = true.
Proof. apply orb_true_r. Qed.

Lemma forced_line s :
  trace (log_upd true s) = trace s ++ [LogLine (log_line s)].
Proof. rewrite trace_log_upd. unfold log_out. rewrite due_forced. reflexivity. Qed.

Lemma fan_on_frame s :
  currPhase (fan_on s) = currPhase s
  /\ currCycle (fan_on s) = currCycle s
  /\ faultCode (fan_on s) = faultCode s
  /\ pins (fan_on s) FAN_PIN = HIGH
  /\ trace (fan_on s) = trace s ++ [DigitalWrite FAN_PIN HIGH].
Proof. destruct s. repeat split. Qed.

Lemma runPCR_for_over inner fuel s :
  currCycle s = NUM_CYCLES -> runPCR_for inner fuel s = Done tt s.
Proof.
  intros H. destruct fuel; cbn [runPCR_for]; rewrite H; reflexivity.
Qed.

Lemma runPCR_for_break inner fuel s s' :
  currCycle s < NUM_CYCLES ->
  cycle inner s = Done (Break tt) s' ->
  runPCR_for inner (S fuel) s = Done tt s'.
Proof.
  intros Hlt H. cbn [runPCR_for]. apply Z.ltb_lt in Hlt. rewrite Hlt.
  unfold bind. rewrite H. reflexivity.
Qed.

(** The handler of a phase that returns [false], whichever phase [p] and
    whichever regulator [call]: [currCycle] is set to [NUM_CYCLES] and the
    phase to [FAULT], none of the phases that would follow ([next]) is
    run, the [for] loop is left from there, and the end of [runPCR]
    switches the fan on and prints a line that shows the phase [FAULT]. *)
Lemma phase_step_stops (p : phase) (call : prog bool)
  (next : prog (flow unit unit)) (s s1 : state) :
  (setStatus p;; call) s = Done false s1 ->
  let s2 := stopped s1 in
  phase_step p call next s = Done (Break tt) s2
  /\ currCycle s2 = NUM_CYCLES
  /\ currPhase s2 = FAULT
  /\ (forall inner fuel, runPCR_for inner fuel s2 = Done tt s2)
  /\ (forall inner fuel s0,
        currCycle s0 < NUM_CYCLES ->
        cycle inner s0 = Done (Break tt) s2 ->
        runPCR_for inner (S fuel) s0 = Done tt s2)
  /\ exists s3 r,
      runPCR_end s2 = Done tt s3
      /\ trace s3 = trace s2 ++ [DigitalWrite FAN_PIN HIGH; LogLine r]
      /\ ll_phase r = FAULT
      /\ ll_fault r = faultCode s1
      /\ currCycle s3 = NUM_CYCLES
      /\ currPhase s3 = FAULT.
Proof.
  intros H s2.
  destruct (stopped_frame s1) as (Hc & Hp & Hf). fold s2 in Hc, Hp, Hf.
  destruct (fan_on_frame s2) as (Hp' & Hc' & Hf' & _ & Ht').
  split; [now apply phase_step_fails|].
  split; [exact Hc|]. split; [exact Hp|].
  split; [intros; now apply runPCR_for_over|].
  split; [intros; now apply runPCR_for_break|].
  exists (log_upd true (fan_on s2)), (log_line (fan_on s2)).
  split; [now apply runPCR_end_fault|].
  split; [rewrite forced_line, Ht', <- app_assoc; reflexivity|].
  rewrite currCycle_log_upd, currPhase_log_upd.
  unfold log_line. cbn [ll_phase ll_fault]. repeat split; congruence.
Qed.

(** ** The holds of a cycle *)

(** The durations as the specification words them: the first cycle has the
    initial denaturation, the last cycle the final extension, every other
    hold its standard duration. *)
Definition denature_time (i : Z) : Z :=
  if i =? 0 then INITIAL_DENATURE_TIME else DENATURE_TIME.

Definition extension_time (i : Z) : Z :=
  if i =? NUM_CYCLES - 1 then FINAL_EXTENSION_TIME else EXTENSION_TIME.

(** Cycle [i] with these durations. *)
Definition cycle_of (i : Z) (fuel : nat) : prog (flow unit unit) :=
  phase_step HEATING (heatUp fuel DENATURE_TEMP)
  (phase_step DENATURATION
     (holdConstantTemp fuel (denature_time i) DENATURE_TEMP)
  (phase_step COOLING (coolDown fuel ANNEALING_TEMP COOL_SAMPLE_TIME)
  (phase_step ANNEALING (holdConstantTemp fuel ANNEALING_TIME ANNEALING_TEMP)
  (phase_step HEATING (heatUp fuel EXTENSION_TEMP)
  (phase_step EXTENSION
     (holdConstantTemp fuel (extension_time i) EXTENSION_TEMP)
  (ret (Continue tt))))))).

Lemma brings_currCycle (m : prog bool) :
  brings m ->
  forall x r x', m x = Done r x' -> currCycle x' = currCycle x.
Proof.
  intros Hm x r x' H. specialize (Hm x). rewrite H in Hm.
  destruct Hm as [[Hc _ _ _] _]. exact Hc.
Qed.

(** Two cycles built of the same phases agree from a state on, when their
    regulators agree as long as [currCycle] is [i]. *)
Lemma phase_step_agree (i : Z) p (call call' : prog bool)
  (next next' : prog (flow unit unit)) :
  brings call' ->
  (forall x, currCycle x = i -> call x = call' x) ->
  (forall x, currCycle x = i -> next x = next' x) ->
  forall s, currCycle s = i ->
            phase_step p call next s = phase_step p call' next' s.
Proof.
  intros Hb Hcall Hnext s Hs. unfold phase_step, bind.
  rewrite setStatus_eq.
  destruct (status_upd_frame p s) as (_ & Hc & _).
  rewrite Hcall by congruence.
  destruct (call' (status_upd p s)) as [[] x|x] eqn:E; try reflexivity.
  cbn [negb]. apply Hnext.
  rewrite (brings_currCycle call' Hb _ _ _ E). congruence.
Qed.

Lemma denaturation_eq fuel x :
  denaturation fuel x
  = holdConstantTemp fuel (denature_time (currCycle x)) DENATURE_TEMP x.
Proof.
  unfold denaturation, denature_time, bind, gets.
  destruct (currCycle x =? 0); reflexivity.
Qed.

Lemma extension_eq fuel x :
  currCycle x < NUM_CYCLES ->
  extension fuel x
  = holdConstantTemp fuel (extension_time (currCycle x)) EXTENSION_TEMP x.
Proof.
  intros H. unfold extension, extension_time, bind, gets.
  destruct (currCycle x <? NUM_CYCLES - 1) eqn:E1,
           (currCycle x =? NUM_CYCLES - 1) eqn:E2; try reflexivity; lia.
Qed.

Lemma brings_denaturation fuel : brings (denaturation fuel).
Proof. intros x. rewrite denaturation_eq. apply brings_holdConstantTemp. Qed.

Lemma brings_extension fuel : brings (extension fuel).
Proof.
  intros x. unfold extension, bind, gets.
  destruct (_ <? _); apply brings_holdConstantTemp.
Qed.

(** The cycle entered with [currCycle = i] is the sequence heat, hold,
    cool, hold, heat, hold with the holds of [cycle_of i]; a cycle that
    completes leaves [currCycle] as it found it, for the loop to add 1. *)
Lemma cycle_agrees (fuel : nat) (s : state) :
  0 <= currCycle s < NUM_CYCLES ->
  cycle fuel s = cycle_of (currCycle s) fuel s
  /\ denature_time 0 = INITIAL_DENATURE_TIME
  /\ extension_time (NUM_CYCLES - 1) = FINAL_EXTENSION_TIME
  /\ (forall i, 0 < i < NUM_CYCLES -> denature_time i = DENATURE_TIME)
  /\ (forall i, 0 <= i < NUM_CYCLES - 1 ->
                extension_time i = EXTENSION_TIME)
  /\ (forall s', cycle fuel s = Done (Continue tt) s' ->
                 currCycle s' = currCycle s).
Proof.
  intros Hs.
  split; [|split; [reflexivity|split; [reflexivity|split; [|split]]]].
  - remember (currCycle s) as i eqn:Hi. symmetry in Hi. revert s Hi.
    unfold cycle, cycle_of.
    apply (phase_step_agree i); [apply brings_heatUp | reflexivity | ].
    apply (phase_step_agree i); [apply brings_holdConstantTemp | | ].
    { intros x Hx. rewrite denaturation_eq, Hx. reflexivity. }
    apply (phase_step_agree i); [apply brings_coolDown | reflexivity | ].
    apply (phase_step_agree i);
      [apply brings_holdConstantTemp | reflexivity | ].
    apply (phase_step_agree i); [apply brings_heatUp | reflexivity | ].
    apply (phase_step_agree i);
      [apply brings_holdConstantTemp | | reflexivity].
    intros x Hx. rewrite extension_eq, Hx by lia. reflexivity.
  - intros i Hi. unfold denature_time.
    destruct (i =? 0) eqn:E; [lia | reflexivity].
  - intros i Hi. unfold extension_time.
    destruct (i =? NUM_CYCLES - 1) eqn:E; [lia | reflexivity].
  - unfold cycle. revert s Hs.
    assert (He : forall s s',
               currCycle s < NUM_CYCLES ->
               phase_step EXTENSION (extension fuel) (ret (Continue tt)) s
               = Done (Continue tt) s' -> currCycle s' = currCycle s).
    { intros s s' Hlt. unfold phase_step, bind. rewrite setStatus_eq.
      destruct (status_upd_frame EXTENSION s) as (_ & Hc & _).
      rewrite extension_eq by lia.
      destruct (holdConstantTemp _ _ _ _) as [[] x|x] eqn:E;
        cbn [negb upd].
      - intros H. injection H as <-.
        rewrite (brings_currCycle _ (brings_holdConstantTemp _ _ _) _ _ _ E).
        exact Hc.
      - rewrite setStatus_eq, log_eq. discriminate.
      - discriminate. }
    intros s Hs s' H.
    assert (Hstep : forall p call next,
               brings call ->
               (forall x x', currCycle x < NUM_CYCLES ->
                             next x = Done (Continue tt) x' ->
                             currCycle x' = currCycle x) ->
               forall x x', currCycle x < NUM_CYCLES ->
                            phase_step p call next x = Done (Continue tt) x'
                            -> currCycle x' = currCycle x).
    { intros p call next Hb Hnext x x' Hlt. unfold phase_step, bind.
      rewrite setStatus_eq.
      destruct (status_upd_frame p x) as (_ & Hc & _).
      destruct (call (status_upd p x)) as [[] y|y] eqn:E; cbn [negb upd].
      - intros Hn.
        pose proof (brings_currCycle call Hb _ _ _ E) as Hy.
        apply Hnext in Hn; [|lia]. lia.
      - rewrite setStatus_eq, log_eq. discriminate.
      - discriminate. }
    revert H. apply Hstep; [apply brings_heatUp | | lia].
    apply Hstep; [apply brings_denaturation|].
    apply Hstep; [apply brings_coolDown|].
    apply Hstep; [apply brings_holdConstantTemp|].
    apply Hstep; [apply brings_heatUp|].
    exact He.
Qed.

(** ** Fault code and phase in the log *)

(** A printed line is in order when it shows the fault code '0' unless it
    shows the phase [FAULT]. *)
Definition line_ok (r : logline) : Prop :=
  ll_phase r <> FAULT -> ll_fault r = "0"%char.

Definition lines_ok (l : list event) : Prop :=
  forall r, In (LogLine r) l -> line_ok r.

(** No fault so far. *)
Definition clean (s : state) : Prop :=
  faultCode s = "0"%char /\ lines_ok (trace s).

(** The run has been stopped. *)
Definition faulted (s : state) : Prop :=
  currPhase s = FAULT /\ lines_ok (trace s).

Lemma lines_ok_app l1 l2 : lines_ok l1 -> lines_ok l2 -> lines_ok (l1 ++ l2).
Proof.
  intros H1 H2 r Hin. apply in_app_or in Hin. destruct Hin; auto.
Qed.

Lemma ran_lines_ok x x' :
  ran x x' -> faultCode x = "0"%char \/ currPhase x = FAULT ->
  lines_ok (trace x) -> lines_ok (trace x').
Proof.
  intros [_ _ _ (evs & -> & Hf)] Hx Hl. apply lines_ok_app; [exact Hl|].
  intros r Hin Hph. rewrite Forall_forall in Hf.
  destruct (Hf _ Hin r eq_refl) as (Hfc & Hp & _).
  destruct Hx as [Hx|Hx]; congruence.
Qed.

Lemma lines_ok_status p s :
  lines_ok (trace s) -> lines_ok (trace (status_upd p s)).
Proof.
  intros H. destruct (status_upd_frame p s) as (_ & _ & _ & _ & _ & ->).
  apply lines_ok_app; [exact H|].
  intros r Hin. exfalso. exact (proj2 (commands_status_out p) r Hin).
Qed.

Lemma lines_ok_log f s :
  lines_ok (trace s) -> line_ok (log_line s) -> lines_ok (trace (log_upd f s)).
Proof.
  intros H Hline. rewrite trace_log_upd. apply lines_ok_app; [exact H|].
  unfold log_out. intros r Hin. destruct (due f s); [|destruct Hin].
  destruct Hin as [E|[]]. injection E as <-. exact Hline.
Qed.

Lemma faulted_stopped s : lines_ok (trace s) -> faulted (stopped s).
Proof.
  intros H. destruct (stopped_frame s) as (_ & Hp & _).
  split; [exact Hp|]. unfold stopped. apply lines_ok_log.
  - apply lines_ok_status. destruct s. exact H.
  - intros Hne. exfalso. apply Hne. unfold log_line. cbn [ll_phase].
    apply (status_upd_frame FAULT).
Qed.

Lemma phase_step_out p call next s s1 :
  (setStatus p;; call) s = OutOfFuel s1 ->
  phase_step p call next s = OutOfFuel s1.
Proof.
  unfold phase_step, bind. intros H.
  destruct (setStatus p s) as [[] s0|s0]; [|congruence].
  rewrite H. reflexivity.
Qed.

(** How a phase of a cycle is left. *)
Definition cycle_post (r : flow unit unit) (s : state) : Prop :=
  match r with
  | Continue _ => clean s
  | Break _ => faulted s
  end.

Lemma phase_step_clean p (call : prog bool) (next : prog (flow unit unit)) :
  brings call ->
  (forall x, clean x -> post (next x) cycle_post (fun x' => lines_ok (trace x'))) ->
  forall s, clean s ->
            post (phase_step p call next s) cycle_post
                 (fun x' => lines_ok (trace x')).
Proof.
  intros Hb Hnext s [Hfc Hl].
  destruct (status_upd_frame p s) as (_ & _ & Hf & _).
  pose proof (lines_ok_status p s Hl) as Hl1.
  pose proof (Hb (status_upd p s)) as H.
  destruct ((setStatus p;; call) s) as [r s1|s1] eqn:E;
    unfold bind in E; rewrite setStatus_eq in E; rewrite E in H;
    cbn [post] in H.
  - destruct H as [Hran Hr].
    assert (Hl2 : lines_ok (trace s1)).
    { eapply ran_lines_ok; [exact Hran | left; congruence | exact Hl1]. }
    destruct r.
    + rewrite (phase_step_succeeds p call next s s1)
        by (unfold bind; rewrite setStatus_eq; exact E).
      apply Hnext. split; [|exact Hl2].
      destruct (Hr eq_refl); congruence.
    + rewrite (phase_step_fails p call next s s1)
        by (unfold bind; rewrite setStatus_eq; exact E).
      now apply faulted_stopped.
  - rewrite (phase_step_out p call next s s1)
      by (unfold bind; rewrite setStatus_eq; exact E).
    eapply ran_lines_ok; [exact H | left; congruence | exact Hl1].
Qed.

Lemma cycle_clean fuel s :
  clean s ->
  post (cycle fuel s) cycle_post (fun x' => lines_ok (trace x')).
Proof.
  revert s. unfold cycle.
  apply phase_step_clean; [apply brings_heatUp|].
  apply phase_step_clean; [apply brings_denaturation|].
  apply phase_step_clean; [apply brings_coolDown|].
  apply phase_step_clean; [apply brings_holdConstantTemp|].
  apply phase_step_clean; [apply brings_heatUp|].
  apply phase_step_clean; [apply brings_extension|].
  intros x Hx. exact Hx.
Qed.

Lemma clean_set_currCycle c s : clean s -> clean (set_currCycle c s).
Proof. destruct s. exact (fun H => H). Qed.

Lemma runPCR_for_clean inner fuel s :
  clean s ->
  post (runPCR_for inner fuel s) (fun _ x' => clean x' \/ faulted x')
       (fun x' => lines_ok (trace x')).
Proof.
  revert s. induction fuel as [|fuel IH]; intros s Hs; cbn [runPCR_for];
    (destruct (_ <? _); [|left; exact Hs]).
  - exact (proj2 Hs).
  - apply post_bind.
    eapply post_mono; [apply cycle_clean, Hs| |auto]. cbn beta.
    intros [[]|[]] x Hx; cbn in Hx |- *; [right; exact Hx|].
    apply IH, clean_set_currCycle, Hx.
Qed.

Lemma runPCR_end_lines s :
  clean s \/ faulted s ->
  exists s', runPCR_end s = Done tt s'
             /\ lines_ok (trace s')
             /\ (currPhase s' = FAULT
                 \/ currPhase s' = IDLE /\ faultCode s' = "0"%char).
Proof.
  intros Hs.
  destruct (fan_on_frame s) as (Hp & _ & Hf & _ & Ht).
  assert (Hl : lines_ok (trace (fan_on s))).
  { rewrite Ht. apply lines_ok_app; [destruct Hs as [[_ H]|[_ H]]; exact H|].
    intros r [E|[]]. discriminate. }
  destruct (phase_eqb (currPhase s) FAULT) eqn:E.
  - assert (Hph : currPhase s = FAULT) by (destruct (currPhase s); easy).
    exists (log_upd true (fan_on s)).
    split; [now apply runPCR_end_fault|].
    rewrite currPhase_log_upd.
    split; [|left; congruence].
    apply lines_ok_log; [exact Hl|].
    intros Hne. exfalso. apply Hne. unfold log_line. cbn [ll_phase].
    congruence.
  - destruct Hs as [[Hfc _]|[Hph _]];
      [|rewrite Hph in E; discriminate].
    exists (log_upd true (status_upd IDLE (fan_on s))).
    destruct (status_upd_frame IDLE (fan_on s)) as (Hp' & _ & Hf' & _).
    split.
    { unfold runPCR_end, bind, digitalWrite, upd, gets. fold (fan_on s).
      rewrite Hp, E. cbn [negb when]. rewrite setStatus_eq, log_eq.
      reflexivity. }
    rewrite currPhase_log_upd, faultCode_log_upd.
    split; [|right; split; congruence].
    apply lines_ok_log; [now apply lines_ok_status|].
    intros _. unfold log_line. cbn [ll_fault]. congruence.
Qed.

(** The state in which [runPCR] enters its loop. *)
Definition runPCR_entry (s : state) : state :=
  set_currCycle 0
    (set_faultCode "0"
       (set_timeCounter 0 (set_startCycleTime (ulong (clock s)) s))).

Lemma runPCR_eq fuel s :
  runPCR fuel s = (runPCR_for fuel fuel;; runPCR_end) (runPCR_entry s).
Proof. destruct s. reflexivity. Qed.

Lemma clean_runPCR_entry s : lines_ok (trace s) -> clean (runPCR_entry s).
Proof. destruct s. intros H. split; [reflexivity | exact H]. Qed.

(** A regulator that returns [true] returns with the fault code '0' and
    the phase it was called in, when called with the fault code '0'. *)
Definition returns_clean (m : prog bool) : Prop :=
  forall x x', faultCode x = "0"%char -> m x = Done true x' ->
               faultCode x' = "0"%char /\ currPhase x' = currPhase x.

Lemma brings_returns_clean m : brings m -> returns_clean m.
Proof.
  intros Hb x x' Hx H. specialize (Hb x). rewrite H in Hb.
  destruct Hb as [[_ Hp _ _] Hr]. split; [|exact Hp].
  destruct (Hr eq_refl); congruence.
Qed.

(** Every line that [runPCR] prints shows the fault code '0' unless it
    shows the phase [FAULT] -- along the whole run, also one that never
    ends; [runPCR] returns in the phase [FAULT], or in [IDLE] with the
    fault code '0'; and each regulator that returns [true] to [runPCR]
    returns with the fault code '0' in the phase it was called in. *)
Lemma runPCR_lines (fuel : nat) (s : state) :
  lines_ok (trace s) ->
  lines_ok (trace (final (runPCR fuel s)))
  /\ (forall s', runPCR fuel s = Done tt s' ->
                 currPhase s' = FAULT
                 \/ currPhase s' = IDLE /\ faultCode s' = "0"%char)
  /\ (forall setpoint, returns_clean (heatUp fuel setpoint))
  /\ (forall setpoint maxTimeout,
         returns_clean (coolDown fuel setpoint maxTimeout))
  /\ (forall duration setpoint,
         returns_clean (holdConstantTemp fuel duration setpoint)).
Proof.
  intros Hl.
  assert (H : post (runPCR fuel s)
                (fun _ s' => lines_ok (trace s')
                             /\ (currPhase s' = FAULT
                                 \/ currPhase s' = IDLE
                                    /\ faultCode s' = "0"%char))
                (fun s' => lines_ok (trace s'))).
  { rewrite runPCR_eq. apply post_bind.
    eapply post_mono;
      [apply runPCR_for_clean, clean_runPCR_entry, Hl| |auto].
    cbn beta. intros _ x Hx.
    destruct (runPCR_end_lines x Hx) as (s' & -> & Hs'). exact Hs'. }
  split; [|split].
  - destruct (runPCR fuel s); cbn in H |- *; tauto.
  - intros s' E. rewrite E in H. apply H.
  - split; [|split]; intros; apply brings_returns_clean.
    + apply brings_heatUp.
    + apply brings_coolDown.
    + apply brings_holdConstantTemp.
Qed.

(** * Further properties of the sketches *)

Lemma post_and {A} (o : outcome A) (Q1 Q2 : A -> state -> Prop)
  (R1 R2 : state -> Prop) :
  post o Q1 R1 -> post o Q2 R2 ->
  post o (fun a s => Q1 a s /\ Q2 a s) (fun s => R1 s /\ R2 s).
Proof. destruct o; cbn; auto. Qed.

(** ** buttonPressed *)

Lemma buttonPressed_eq (s : state) :
  buttonPressed s
  = Done (pressed s)
      (set_prevInButton (pushbutton (polls s))
         (set_currInButton (pushbutton (polls s))
            (set_polls (S (polls s)) s))).
Proof. destruct s. reflexivity. Qed.

(** X1.  [buttonPressed] reports a press exactly when the button reads
    [LOW] and read [HIGH] at the previous call, and it remembers the level
    it has read.  Hence of two calls in a row at most one reports a press,
    whatever the button does: a press that stops a run is not taken for a
    start by the next poll, and a button held down is reported once. *)
Theorem buttonPressed_edge (s : state) :
  exists s1,
    buttonPressed s = Done (pressed s) s1
    /\ (pressed s = true <->
        pushbutton (polls s) = LOW /\ prevInButton s = HIGH)
    /\ prevInButton s1 = pushbutton (polls s)
    /\ polls s1 = S (polls s)
    /\ trace s1 = trace s
    /\ (pressed s = true -> pressed s1 = false).
Proof.
  rewrite buttonPressed_eq. eexists. split; [reflexivity|].
  destruct s. unfold pressed. cbn [polls prevInButton set_prevInButton
    set_currInButton set_polls trace].
  split; [|repeat split].
  - destruct (pushbutton polls0), prevInButton0; cbn;
      (split; [intros H; try discriminate H; split; reflexivity
              |intros [H1 H2]; try discriminate H1; try discriminate H2;
               reflexivity]).
  - destruct (pushbutton polls0), prevInButton0, (pushbutton (S polls0));
      cbn; intros H; try discriminate H; reflexivity.
Qed.

(** ** What the regulators return *)

(** The setpoint is reached and the fault code cleared. *)
Definition reached (setpoint : double) (s : state) : Prop :=
  (setpoint <= currTemp s)%Q /\ faultCode s = "0"%char.

Lemma reached_set_faultCode setpoint s :
  dge (currTemp s) setpoint = true -> reached setpoint (set_faultCode "0" s).
Proof.
  intros H. apply dge_true in H. destruct s. split; [exact H | reflexivity].
Qed.

Lemma heatUp_after_pulse_result inner setpoint curIteration s :
  post (heatUp_after_pulse inner setpoint curIteration s)
       (fun r s' => match r with
                    | Break true => reached setpoint s'
                    | Break false => faultCode s' = "4"%char
                    | Continue _ => True
                    end)
       (fun _ => True).
Proof.
  unfold heatUp_after_pulse, bind, gets.
  destruct (dge (currTemp s) setpoint) eqn:E;
    [now apply reached_set_faultCode|].
  destruct (when _ _ s) as [[] s1|s1]; [|exact I].
  destruct (dge (currTemp s1) setpoint) eqn:E1;
    [now apply reached_set_faultCode|].
  cbv zeta.
  assert (Hrest : forall x,
             post (match slope_wait inner x with
                   | Done _ x1 =>
                       match ceiling_wait inner x1 with
                       | Done _ x2 => ret (Continue curIteration) x2
                       | OutOfFuel x2 => OutOfFuel x2
                       end
                   | OutOfFuel x1 => OutOfFuel x1
                   end)
                  (fun (r : flow bool Z) s' =>
                     match r with
                     | Break true => reached setpoint s'
                     | Break false => faultCode s' = "4"%char
                     | Continue _ => True
                     end)
                  (fun _ => True)).
  { intros x. destruct (slope_wait inner x) as [[] x1|x1]; [|exact I].
    destruct (ceiling_wait inner x1) as [[] x2|x2]; exact I. }
  destruct (Z.rem curIteration 2 =? 0).
  - destruct (dlt _ _); [|apply Hrest].
    cbn. apply faultCode_set_faultCode.
  - cbn [upd]. apply Hrest.
Qed.

(** How [heatUp] can have ended, called with the fault code [c].  The
    [false] that comes with no fault code of its own is that of the loop
    test [currTemp < setpoint] found false. *)
Definition heatUp_result (setpoint : double) (c : ascii) (ris : bool)
  (s' : state) : Prop :=
  if ris then reached setpoint s'
  else faultCode s' = "1"%char \/ faultCode s' = "2"%char
       \/ faultCode s' = "3"%char \/ faultCode s' = "4"%char
       \/ faultCode s' = c /\ dlt (currTemp s') setpoint = false.

(** Whatever comes first, what follows decides. *)
Lemma post_bind_any {A B} (m : prog A) (k : A -> prog B) (s : state)
  (Q : B -> state -> Prop) :
  (forall a x, post (k a x) Q (fun _ => True)) ->
  post (bind m k s) Q (fun _ => True).
Proof. intros H. unfold bind. destruct (m s); [apply H | exact I]. Qed.

Lemma heatUp_body_codes inner setpoint curIteration s :
  post (heatUp_body inner setpoint curIteration s)
       (fun r s' => match r with
                    | Break true => reached setpoint s'
                    | Break false =>
                        faultCode s' = "1"%char \/ faultCode s' = "4"%char
                    | Continue _ => True
                    end)
       (fun _ => True).
Proof.
  unfold heatUp_body. apply post_bind_any. intros b x.
  destruct b; [cbn; left; apply faultCode_set_faultCode|]. cbv zeta.
  do 7 (apply post_bind_any; intros ? ?).
  eapply post_mono; [apply heatUp_after_pulse_result| |auto].
  cbn beta. intros [[]|c] s' H; auto.
Qed.

Lemma heatUp_body_result inner setpoint curIteration s :
  post (heatUp_body inner setpoint curIteration s)
       (fun r s' => match r with
                    | Break ris => heatUp_result setpoint (faultCode s) ris s'
                    | Continue _ => faultCode s' = faultCode s
                    end)
       (fun _ => True).
Proof.
  eapply post_mono;
    [exact (post_and _ _ _ _ _
              (heatUp_body_codes inner setpoint curIteration s)
              (leaves_heatUp_body inner setpoint curIteration s))| |auto].
  cbn beta. intros [[]|c] s' [H1 H2]; cbn in H2 |- *.
  - exact H1.
  - destruct H1 as [H1|H1]; auto.
  - apply H2.
Qed.

Lemma heatUp_while_result inner fuel setpoint curIteration s :
  post (heatUp_while inner fuel setpoint curIteration false s)
       (heatUp_result setpoint (faultCode s)) (fun _ => True).
Proof.
  revert curIteration s.
  induction fuel as [|fuel IH]; intros curIteration s; cbn [heatUp_while];
    (destruct (dlt _ _) eqn:E;
     [|cbn; right; right; right; right;
       split; [reflexivity | exact E]]).
  - exact I.
  - apply post_bind.
    eapply post_mono; [apply heatUp_body_result| |auto]. cbn beta.
    intros [ris|c] s1 H1; [exact H1|].
    rewrite <- H1. apply IH.
Qed.

(** X2.  When [heatUp] returns [true], the last sample is at or above the
    setpoint and the fault code is '0'.  When it returns [false], it has
    set the fault code '1', '2', '3' or '4' -- or it has set none, and
    then the test [currTemp < setpoint] of its loop is false of the last
    sample: the only [false] without a fault code of its own is that of
    the rise ramp not entered, or left by its test. *)
Theorem heatUp_returns (fuel : nat) (setpoint : double) (s : state)
  (ris : bool) (s' : state) :
  heatUp fuel setpoint s = Done ris s' ->
  heatUp_result setpoint (faultCode s) ris s'.
Proof.
  rewrite heatUp_eq. cbv zeta. rewrite <- (faultCode_heatUp_entry s).
  destruct (dlt _ ROOM_TEMP).
  { intros H. injection H as <- <-. right. left.
    apply faultCode_set_faultCode. }
  destruct (dgt _ setpoint).
  { intros H. injection H as <- <-. right. right. left.
    apply faultCode_set_faultCode. }
  intros H.
  pose proof (heatUp_while_result fuel fuel setpoint 0 (heatUp_entry s))
    as Hw.
  rewrite H in Hw. exact Hw.
Qed.


Lemma coolDown_turn_frame maxTimeout s :
  faultCode (coolDown_turn maxTimeout s) = faultCode s.
Proof. destruct s. reflexivity. Qed.

Lemma coolDown_while_result fuel setpoint maxTimeout s :
  post (coolDown_while fuel setpoint maxTimeout true s)
       (fun ris s' =>
          if ris
          then dgt (currTemp s') (setpoint + FAN_THRESHOLD_TEMP)%Q = false
               /\ faultCode s' = faultCode s
          else faultCode s' = "1"%char)
       (fun _ => True).
Proof.
  revert s. induction fuel as [|fuel IH]; intros s; cbn [coolDown_while];
    (destruct (dgt _ _) eqn:E;
     [|cbn; split; [exact E | reflexivity]]).
  - exact I.
  - unfold bind. rewrite coolDown_body_eq. destruct (pressed s).
    + cbn. apply faultCode_set_faultCode.
    + rewrite <- (coolDown_turn_frame maxTimeout s). apply IH.
Qed.

Lemma fan_off_globals s :
  currTemp (fan_off s) = currTemp s /\ faultCode (fan_off s) = faultCode s.
Proof. destruct s. split; reflexivity. Qed.

(** X3.  When [coolDown] returns [true], the test
    [currTemp > setpoint+FAN_THRESHOLD_TEMP] of its loop is false of the
    last sample and the fault code is the one it was called with; it
    returns [false] only with the fault code '1'. *)
Theorem coolDown_returns (fuel : nat) (setpoint : double) (maxTimeout : Z)
  (s : state) (ris : bool) (s' : state) :
  coolDown fuel setpoint maxTimeout s = Done ris s' ->
  if ris
  then dgt (currTemp s') (setpoint + FAN_THRESHOLD_TEMP)%Q = false
       /\ faultCode s' = faultCode s
  else faultCode s' = "1"%char.
Proof.
  intros H. apply coolDown_done in H. destruct H as (s1 & Hw & ->).
  pose proof (coolDown_while_result fuel setpoint maxTimeout
                (coolDown_entry s)) as Hr.
  rewrite Hw in Hr. cbn [post] in Hr.
  destruct (fan_off_globals s1) as [-> ->].
  destruct (coolDown_entry_frame s) as (_ & _ & _ & Hf & _).
  rewrite Hf in Hr. exact Hr.
Qed.

(** *** holdConstantTemp *)

(** Time spent in the phase, as [holdConstantTemp] computes it. *)
Definition phase_elapsed (s : state) : Z :=
  usub (ulong (clock s)) (startPhaseTime s).

(** What a turn of the hold loop leaves behind. *)
Lemma holdConstantTemp_body_result (setpoint : double) (s : state) :
  exists r s',
    holdConstantTemp_body setpoint s = Done r s'
    /\ startPhaseTime s' = startPhaseTime s
    /\ (pins s HEAT_PIN = LOW -> pins s' HEAT_PIN = LOW)
    /\ (pins s FAN_PIN = LOW -> pins s' FAN_PIN = LOW)
    /\ if pressed s
       then r = Break false /\ faultCode s' = "1"%char
            /\ clock s' = clock s
       else r = Continue (phase_elapsed s')
            /\ faultCode s' = faultCode s
            /\ clock s + 210 <= clock s' <= clock s + 300.
Proof.
  destruct s.
  unfold holdConstantTemp_body, hold_adjust, pressed, phase_elapsed.
  exec. destruct (_ && _); exec.
  - do 2 eexists. repeat split; auto.
  - destruct (dlt _ _); [|destruct (dgt _ _); [|destruct v]]; exec;
      unfold ret; do 2 eexists; (split; [reflexivity|]);
      cbn [startPhaseTime pins faultCode clock pin_eqb];
      unfold HOLD_PULSE_DURATION, HOLD_PAUSE_DURATION;
      repeat split; auto; destruct v; lia.
Qed.

Lemma holdConstantTemp_while_result fuel duration setpoint s :
  post (holdConstantTemp_while fuel duration setpoint (phase_elapsed s)
          true s)
       (fun ris s' =>
          startPhaseTime s' = startPhaseTime s
          /\ if ris
             then ulong duration <= phase_elapsed s'
                  /\ faultCode s' = faultCode s
             else faultCode s' = "1"%char)
       (fun _ => True).
Proof.
  revert s. induction fuel as [|fuel IH]; intros s;
    cbn [holdConstantTemp_while];
    (destruct (_ <? _) eqn:E;
     [|cbn; split; [reflexivity|split; [lia | reflexivity]]]).
  - exact I.
  - unfold bind.
    destruct (holdConstantTemp_body_result setpoint s)
      as (r & s1 & -> & Hspt & _ & _ & Hr).
    destruct (pressed s).
    + destruct Hr as (-> & Hf & _). cbn. auto.
    + destruct Hr as (-> & Hf & _).
      eapply post_mono; [apply IH| |auto]. cbn beta.
      intros ris s' [H1 H2]. split; [congruence|].
      destruct ris; [|exact H2]. rewrite <- Hf. exact H2.
Qed.

(** The state in which [holdConstantTemp] reaches its loop. *)
Definition holdConstantTemp_entry (s : state) : state :=
  set_startPhaseTime (ulong (clock s)) s.

Lemma holdConstantTemp_eq fuel duration setpoint s :
  holdConstantTemp fuel duration setpoint s
  = holdConstantTemp_while fuel duration setpoint
      (phase_elapsed (holdConstantTemp_entry s)) true
      (holdConstantTemp_entry s).
Proof.
  destruct s. unfold holdConstantTemp, holdConstantTemp_entry, phase_elapsed.
  exec. unfold usub. rewrite Z.sub_diag. reflexivity.
Qed.

(** X4.  When [holdConstantTemp] returns [true], the time since it started
    the phase timer, as the 32-bit [millis()] counts it, is at least the
    duration (read as [unsigned long]), and the fault code is the one it
    was called with; it returns [false] only with the fault code '1'. *)
Theorem holdConstantTemp_returns (fuel : nat) (duration : Z)
  (setpoint : double) (s : state) (ris : bool) (s' : state) :
  holdConstantTemp fuel duration setpoint s = Done ris s' ->
  startPhaseTime s' = ulong (clock s)
  /\ if ris
     then ulong duration <= usub (ulong (clock s')) (startPhaseTime s')
          /\ faultCode s' = faultCode s
     else faultCode s' = "1"%char.
Proof.
  rewrite holdConstantTemp_eq. intros H.
  pose proof (holdConstantTemp_while_result fuel duration setpoint
                (holdConstantTemp_entry s)) as Hr.
  rewrite H in Hr. cbn [post] in Hr.
  assert (E : startPhaseTime (holdConstantTemp_entry s) = ulong (clock s)
              /\ faultCode (holdConstantTemp_entry s) = faultCode s)
    by (destruct s; split; reflexivity).
  destruct E as [E1 E2]. rewrite E1, E2 in Hr. exact Hr.
Qed.


(** Without a wrap of the 32-bit counter, the phase time is the time
    since the phase started. *)
Lemma phase_elapsed_plain (s : state) :
  0 <= startPhaseTime s <= clock s -> clock s < 2 ^ 32 ->
  phase_elapsed s = clock s - startPhaseTime s.
Proof.
  intros H1 H2. unfold phase_elapsed, usub, ulong.
  rewrite (Z.mod_small (clock s)) by lia. apply Z.mod_small. lia.
Qed.

Lemma holdConstantTemp_while_lasts (duration : Z) (setpoint : double)
  (fuel : nat) :
  forall s : state,
    let start := startPhaseTime s in
    0 <= start <= clock s ->
    clock s < start + ulong duration + 300 ->
    start + ulong duration + 300 <= 2 ^ 32 ->
    ulong duration - (clock s - start) <= 210 * Z.of_nat fuel ->
    exists ris s',
      holdConstantTemp_while fuel duration setpoint (phase_elapsed s) true s
      = Done ris s'
      /\ clock s <= clock s' < start + ulong duration + 300
      /\ (ris = true -> start + ulong duration <= clock s').
Proof.
  induction fuel as [|fuel IH]; intros s start H1 H2 H3 H4;
    cbn [holdConstantTemp_while];
    rewrite (phase_elapsed_plain s) by (fold start; lia); fold start;
    (destruct (_ <? _) eqn:E;
     [apply Z.ltb_lt in E
     |apply Z.ltb_ge in E; exists true, s;
      split; [reflexivity|split; lia]]).
  - lia.
  - unfold bind.
    destruct (holdConstantTemp_body_result setpoint s)
      as (r & s1 & -> & Hspt & _ & _ & Hr).
    destruct (pressed s).
    + destruct Hr as (-> & _ & Hc). exists false, s1.
      split; [reflexivity|]. split; [lia | discriminate].
    + destruct Hr as (-> & _ & Hc).
      destruct (IH s1) as (ris & s' & Hw & Hc' & Hd);
        rewrite ?Hspt; fold start; try lia.
      exists ris, s'. rewrite Hspt in Hc', Hd. fold start in Hc', Hd.
      split; [exact Hw|]. split; [lia | exact Hd].
Qed.

(** X5.  Counting the time the sketch spends in [delay], and as long as
    the 32-bit millisecond counter does not wrap during the phase,
    [holdConstantTemp] returns: each turn of its loop takes 210 ms at
    least and 300 ms at most, so [fuel] turns are enough when
    [210 * fuel] is at least the duration.  It returns less than 300 ms
    after the duration has elapsed, and when it returns [true] the whole
    duration has elapsed. *)
Theorem holdConstantTemp_lasts (fuel : nat) (duration : Z)
  (setpoint : double) (s : state) :
  0 <= clock s -> clock s + ulong duration + 300 <= 2 ^ 32 ->
  ulong duration <= 210 * Z.of_nat fuel ->
  exists ris s',
    holdConstantTemp fuel duration setpoint s = Done ris s'
    /\ clock s <= clock s' < clock s + ulong duration + 300
    /\ (ris = true -> clock s + ulong duration <= clock s').
Proof.
  intros H1 H2 H3. rewrite holdConstantTemp_eq.
  assert (Hd : 0 <= ulong duration) by (apply Z.mod_pos_bound; lia).
  assert (E : startPhaseTime (holdConstantTemp_entry s) = clock s
              /\ clock (holdConstantTemp_entry s) = clock s).
  { destruct s. cbn in *. split; [apply Z.mod_small; lia | reflexivity]. }
  destruct E as [E1 E2].
  destruct (holdConstantTemp_while_lasts duration setpoint fuel
              (holdConstantTemp_entry s)) as (ris & s' & Hw & Hc & Hr);
    rewrite ?E1, ?E2; try lia.
  exists ris, s'. rewrite E1, E2 in Hc. rewrite E1 in Hr.
  split; [exact Hw|]. split; assumption.
Qed.


(** ** The heater and the fan along a run *)

(** The two loads as the commands of a trace drive them: the heater is
    off, or on and has been so through [ms] milliseconds of [delay]; the
    fan is at the level last written. *)
Inductive heater := Off | On (ms : Z).

Definition rig : Type := heater * level.

(** One command seen by the rig.  [None] is what must not happen: the
    heater switched on while the fan is on or the fan switched on while
    the heater is on, and a wait that is negative or takes the heater
    past [MAX_PULSE_DURATION] milliseconds of heating at a stretch. *)
Definition drive (r : rig) (e : event) : option rig :=
  let (h, f) := r in
  match e with
  | DigitalWrite HEAT_PIN HIGH =>
      match f with
      | HIGH => None
      | LOW => Some (match h with Off => On 0 | On t => On t end, f)
      end
  | DigitalWrite HEAT_PIN LOW => Some (Off, f)
  | DigitalWrite FAN_PIN HIGH =>
      match h with
      | On _ => None
      | Off => Some (Off, HIGH)
      end
  | DigitalWrite FAN_PIN LOW => Some (h, LOW)
  | Delay ms =>
      match h with
      | Off => Some r
      | On t =>
          if (0 <=? ms) && (t + ms <=? MAX_PULSE_DURATION)
          then Some (On (t + ms), f)
          else None
      end
  | _ => Some r
  end.

Fixpoint watch (r : rig) (es : list event) : option rig :=
  match es with
  | [] => Some r
  | e :: es' =>
      match drive r e with
      | Some r' => watch r' es'
      | None => None
      end
  end.

Lemma watch_app r es1 es2 :
  watch r (es1 ++ es2)
  = match watch r es1 with
    | Some r' => watch r' es2
    | None => None
    end.
Proof.
  revert r. induction es1 as [|e es1 IH]; intros r; cbn [watch app].
  - reflexivity.
  - destruct (drive r e); [apply IH | reflexivity].
Qed.

(** [went s r s' r']: the commands given from [s] to [s'] take the rig
    from [r] to [r'] and none of them is one that must not happen. *)
Definition went (s : state) (r : rig) (s' : state) (r' : rig) : Prop :=
  exists es, trace s' = trace s ++ es /\ watch r es = Some r'.

(** The same of two traces, the second reached from the first. *)
Definition led (t : list event) (r : rig) (t' : list event) (r' : rig)
  : Prop :=
  exists es, t' = t ++ es /\ watch r es = Some r'.

Lemma led_refl t r : led t r t r.
Proof. exists []. split; [symmetry; apply app_nil_r | reflexivity]. Qed.

Lemma led_app t r t' r' es r'' :
  led t r t' r' -> watch r' es = Some r'' -> led t r (t' ++ es) r''.
Proof.
  intros (e1 & -> & Hw1) Hw2. exists (e1 ++ es). split.
  - symmetry. apply app_assoc.
  - rewrite watch_app, Hw1. exact Hw2.
Qed.

Lemma went_led s r s' r' : led (trace s) r (trace s') r' -> went s r s' r'.
Proof. intros H. exact H. Qed.

(** A trace written as the trace of the start followed by what was
    appended to it, piece by piece; the pieces are checked in order. *)
Ltac led_steps :=
  lazymatch goal with
  | |- led ?t _ (_ ++ _) _ => eapply led_app; [led_steps|]
  | |- led ?t _ ?t _ => apply led_refl
  end.

Lemma went_refl s r : went s r s r.
Proof. exists []. split; [symmetry; apply app_nil_r | reflexivity]. Qed.

Lemma went_trans a ra b rb c rc :
  went a ra b rb -> went b rb c rc -> went a ra c rc.
Proof.
  intros (e1 & Ht1 & Hw1) (e2 & Ht2 & Hw2). exists (e1 ++ e2). split.
  - rewrite Ht2, Ht1. symmetry. apply app_assoc.
  - rewrite watch_app, Hw1. exact Hw2.
Qed.

(** *** Code run with the heater off *)

(** [spares m]: run while the heater is off, [m] gives no command to the
    heater or the fan. *)
Definition spares {A} (m : prog A) : Prop :=
  forall s f, post (m s) (fun _ s' => went s (Off, f) s' (Off, f))
                   (fun s' => went s (Off, f) s' (Off, f)).

Lemma spares_ret {A} (a : A) : spares (ret a).
Proof. intros s f. apply went_refl. Qed.

Lemma spares_gets {A} (g : state -> A) : spares (gets g).
Proof. intros s f. apply went_refl. Qed.

Lemma spares_upd (g : state -> state) :
  (forall s, trace (g s) = trace s) -> spares (upd g).
Proof.
  intros H s f. exists []. cbn. rewrite H, app_nil_r. split; reflexivity.
Qed.

Lemma spares_bind {A B} (m : prog A) (k : A -> prog B) :
  spares m -> (forall a, spares (k a)) -> spares (bind m k).
Proof.
  intros Hm Hk s f. apply post_bind.
  eapply post_mono; [apply (Hm s f)| |auto]. cbn beta. intros a s1 H1.
  eapply post_mono; [apply (Hk a s1 f)| |]; cbn beta; intros;
    eapply went_trans; eassumption.
Qed.

Lemma spares_if {A} (c : bool) (a b : prog A) :
  spares a -> spares b -> spares (if c then a else b).
Proof. destruct c; auto. Qed.

Lemma spares_millis : spares millis.
Proof. apply spares_gets. Qed.

Lemma spares_delay ms : spares (delay ms).
Proof.
  intros s f. exists [Delay ms]. split; [destruct s|]; reflexivity.
Qed.

Lemma spares_led p l :
  p <> HEAT_PIN -> p <> FAN_PIN -> spares (digitalWrite p l).
Proof.
  intros H1 H2 s f. exists [DigitalWrite p l].
  split; [destruct s; reflexivity|]. destruct p, l; cbn; congruence.
Qed.

Lemma spares_readCelsius : spares readCelsius.
Proof. intros s f. exists []. cbn. destruct s. cbn. now rewrite app_nil_r. Qed.

Lemma spares_digitalRead_START_STOP : spares digitalRead_START_STOP.
Proof. intros s f. exists []. cbn. destruct s. cbn. now rewrite app_nil_r. Qed.

Lemma watch_log_out force s r : watch r (log_out force s) = Some r.
Proof.
  unfold log_out. destruct (due force s); [|reflexivity].
  destruct r as [[|t] f]; reflexivity.
Qed.

Lemma spares_log force : spares (log force).
Proof.
  intros s f. rewrite log_eq. cbn [post]. exists (log_out force s).
  split; [apply trace_log_upd | apply watch_log_out].
Qed.

Create HintDb spares.
Hint Resolve spares_ret spares_gets spares_bind spares_if spares_millis
  spares_delay spares_readCelsius spares_digitalRead_START_STOP spares_log
  : spares.
Hint Extern 1 (spares (upd _)) =>
  apply spares_upd; intros []; reflexivity : spares.
Hint Extern 1 (spares (digitalWrite _ _)) =>
  apply spares_led; discriminate : spares.

Ltac spares := solve [unfold when; eauto 40 with spares].

Lemma spares_buttonPressed : spares buttonPressed.
Proof. unfold buttonPressed. spares. Qed.

Lemma spares_setStatus p : spares (setStatus p).
Proof. unfold setStatus. destruct v; [spares|]. destruct p; cbn; spares. Qed.

Hint Resolve spares_buttonPressed spares_setStatus : spares.

Ltac spares_at :=
  match goal with
  | |- post (?m ?s) _ _ => apply ((ltac:(spares) : spares m) s)
  end.

Lemma spares_overheat_wait fuel : spares (overheat_wait fuel).
Proof.
  induction fuel as [|fuel IH]; intros s f; cbn [overheat_wait].
  - apply went_refl.
  - spares_at.
Qed.

Lemma spares_slope_wait fuel : spares (slope_wait fuel).
Proof.
  induction fuel as [|fuel IH]; intros s f; cbn [slope_wait];
    (destruct (dge _ _); [|apply went_refl]).
  - apply went_refl.
  - spares_at.
Qed.

Lemma spares_ceiling_wait fuel : spares (ceiling_wait fuel).
Proof.
  induction fuel as [|fuel IH]; intros s f; cbn [ceiling_wait];
    (destruct (dge _ _); [|apply went_refl]).
  - apply went_refl.
  - spares_at.
Qed.

Hint Resolve spares_overheat_wait spares_slope_wait spares_ceiling_wait
  : spares.

Lemma spares_heatUp_after_pulse inner setpoint curIteration :
  spares (heatUp_after_pulse inner setpoint curIteration).
Proof. unfold heatUp_after_pulse. spares. Qed.


(** *** Code that drives the heater and the fan *)

(** Between two pulses the heater is off; the fan is then at either level
    ([Cold]), off ([Idle]) or on ([Blowing]). *)
Inductive mode := Cold | Idle | Blowing.

Definition holds (a : mode) (r : rig) : Prop :=
  match a with
  | Cold => fst r = Off
  | Idle => r = (Off, LOW)
  | Blowing => r = (Off, HIGH)
  end.

Lemma holds_off a r : holds a r -> exists f, r = (Off, f).
Proof.
  destruct a, r as [h f]; cbn; intros H; [subst h|inversion H..]; eauto.
Qed.

Lemma holds_Cold a r : holds a r -> holds Cold r.
Proof. intros H. apply holds_off in H. destruct H as [f ->]. reflexivity. Qed.

(** What is known of the rig when [m], called in [s] with the rig at [r],
    has reached [s']. *)
Definition rig_post (b : mode) (s : state) (r : rig) (s' : state) : Prop :=
  exists r', went s r s' r' /\ holds b r'.

Definition rig_safe (s : state) (r : rig) (s' : state) : Prop :=
  exists r', went s r s' r'.

(** [tends m a b]: called in mode [a], [m] gives no command that must not
    happen, whether it returns or not, and it returns in mode [b]. *)
Definition tends {A} (m : prog A) (a b : mode) : Prop :=
  forall s r, holds a r ->
              post (m s) (fun _ s' => rig_post b s r s') (rig_safe s r).

Lemma tends_bind {A B} (m : prog A) (k : A -> prog B) (a b c : mode) :
  tends m a b -> (forall x, tends (k x) b c) -> tends (bind m k) a c.
Proof.
  intros Hm Hk s r Ha. apply post_bind.
  eapply post_mono; [apply (Hm s r Ha)| |auto]. cbn beta.
  intros x s1 H1. destruct H1 as (r1 & Hw1 & Hb).
  eapply post_mono; [apply (Hk x s1 r1 Hb)| |]; cbn beta.
  - intros _ s2 (r2 & Hw2 & Hc). exists r2.
    split; [eapply went_trans; eassumption | exact Hc].
  - intros s2 (r2 & Hw2). exists r2. eapply went_trans; eassumption.
Qed.

Lemma tends_spares {A} (m : prog A) (a : mode) : spares m -> tends m a a.
Proof.
  intros Hm s r Ha. destruct (holds_off a r Ha) as [f ->].
  eapply post_mono; [apply (Hm s f)| |]; cbn beta.
  - intros _ s' H. exists (Off, f). split; assumption.
  - intros s' H. exists (Off, f). exact H.
Qed.

Lemma tends_from {A} (m : prog A) (a b : mode) : tends m Cold b -> tends m a b.
Proof. intros H s r Ha. apply H. eapply holds_Cold, Ha. Qed.

Lemma tends_to {A} (m : prog A) (a b : mode) : tends m a b -> tends m a Cold.
Proof.
  intros H s r Ha. eapply post_mono; [apply (H s r Ha)| |auto]. cbn beta.
  intros _ s' (r' & Hw & Hb). exists r'. split; [exact Hw|].
  eapply holds_Cold, Hb.
Qed.

Lemma tends_if {A} (c : bool) (m n : prog A) (a b : mode) :
  tends m a b -> tends n a b -> tends (if c then m else n) a b.
Proof. destruct c; auto. Qed.

Lemma tends_fan_off : tends (digitalWrite FAN_PIN LOW) Cold Idle.
Proof.
  intros s r Ha. destruct (holds_off _ r Ha) as [f ->].
  exists (Off, LOW). split; [|reflexivity].
  exists [DigitalWrite FAN_PIN LOW]. split; [destruct s|]; reflexivity.
Qed.

Lemma tends_fan_on : tends (digitalWrite FAN_PIN HIGH) Cold Blowing.
Proof.
  intros s r Ha. destruct (holds_off _ r Ha) as [f ->].
  exists (Off, HIGH). split; [|reflexivity].
  exists [DigitalWrite FAN_PIN HIGH]. split; [destruct s|]; reflexivity.
Qed.

(** The correction of a hold turn: one pulse of the heater or of the fan,
    of [HOLD_PULSE_DURATION] milliseconds. *)
Lemma tends_hold_adjust setpoint : tends (hold_adjust setpoint) Idle Idle.
Proof.
  intros s r Hr. cbn in Hr. subst r. destruct s. unfold hold_adjust. exec.
  destruct (dlt _ _); [|destruct (dgt _ _); [|destruct v]]; exec;
    (exists (Off, LOW); split; [|reflexivity]);
    apply went_led; cbn [trace]; led_steps; destruct v; reflexivity.
Qed.

Lemma pulseDuration_bounds (S T : double) :
  (T < S)%Q -> MIN_PULSE_DURATION <= pulseDuration S T <= MAX_PULSE_DURATION.
Proof.
  intros H. rewrite pulseDuration_floor by exact H. split.
  - rewrite <- (Qfloor_Z MIN_PULSE_DURATION).
    apply Qfloor_resp_le, pulse_ms_ge, H.
  - rewrite <- (Qfloor_Z MAX_PULSE_DURATION).
    apply Qfloor_resp_le, dmin_le_l.
Qed.

Lemma watch_pulse (ms : Z) (f : level) :
  0 <= ms <= MAX_PULSE_DURATION ->
  watch (On 0, f) [Delay ms] = Some (On ms, f).
Proof.
  intros H. cbn.
  replace (0 <=? ms) with true by (symmetry; apply Z.leb_le; lia).
  replace (ms <=? MAX_PULSE_DURATION) with true
    by (symmetry; apply Z.leb_le; lia).
  reflexivity.
Qed.

(** A turn of the rise ramp: one pulse of the heater, of
    [pulseDuration] milliseconds, then the waits with the heater off. *)
Lemma heatUp_body_rig inner setpoint curIteration s r :
  (currTemp s < setpoint)%Q -> holds Idle r ->
  post (heatUp_body inner setpoint curIteration s)
       (fun _ s' => rig_post Idle s r s') (rig_safe s r).
Proof.
  intros Hlt Hr. cbn in Hr. subst r. apply pulseDuration_bounds in Hlt.
  unfold MIN_PULSE_DURATION in Hlt.
  destruct s. unfold heatUp_body. cbn [currTemp] in Hlt. exec.
  destruct (_ && _); exec.
  - exists (Off, LOW). split; [apply went_led, led_refl | reflexivity].
  - match goal with
    | |- post (heatUp_after_pulse ?i ?S ?c ?x) _ _ =>
        pose proof (spares_heatUp_after_pulse i S c x LOW) as H;
        assert (Hx : went
                       (mkState currInButton0 prevInButton0 startCycleTime0
                          startPhaseTime0 timeCounter0 currCycle0 currPhase0
                          currTemp0 prevTemp0 faultCode0 clock0 pins0 reads0
                          polls0 trace0)
                       (Off, LOW) x (Off, LOW))
    end.
    { apply went_led. cbn [trace]. led_steps.
      - reflexivity.
      - apply watch_pulse. lia.
      - apply watch_log_out.
      - reflexivity. }
    eapply post_mono; [exact H| |]; cbn beta.
    + intros _ s' Hw. exists (Off, LOW).
      split; [eapply went_trans; eassumption | reflexivity].
    + intros s' Hw. exists (Off, LOW). eapply went_trans; eassumption.
Qed.


Lemma rig_post_refl (a : mode) (s : state) (r : rig) :
  holds a r -> rig_post a s r s.
Proof. intros H. exists r. split; [apply went_refl | exact H]. Qed.

Lemma rig_safe_refl (s : state) (r : rig) : rig_safe s r s.
Proof. exists r. apply went_refl. Qed.

Lemma tends_ret {A} (x : A) (a : mode) : tends (ret x) a a.
Proof. intros s r H. now apply rig_post_refl. Qed.

Lemma tends_heatUp_while inner fuel setpoint curIteration ris :
  tends (heatUp_while inner fuel setpoint curIteration ris) Idle Idle.
Proof.
  revert curIteration.
  induction fuel as [|fuel IH]; intros curIteration s r Hr;
    cbn [heatUp_while];
    (destruct (dlt _ _) eqn:E; [|now apply rig_post_refl]).
  - apply rig_safe_refl.
  - apply dlt_true in E. apply post_bind.
    eapply post_mono;
      [apply (heatUp_body_rig inner setpoint curIteration s r E Hr)| |auto].
    cbn beta. intros [b|c] s1 H1.
    + exact H1.
    + destruct H1 as (r1 & Hw1 & Hr1).
      eapply post_mono; [apply (IH c s1 r1 Hr1)| |]; cbn beta.
      * intros _ s2 (r3 & Hw3 & Hr3). exists r3.
        split; [eapply went_trans; eassumption | exact Hr3].
      * intros s2 (r3 & Hw3). exists r3. eapply went_trans; eassumption.
Qed.

Ltac tends_spares := apply tends_spares; spares.

(** [heatUp] switches the fan off before anything else. *)
Lemma tends_heatUp fuel setpoint : tends (heatUp fuel setpoint) Cold Idle.
Proof.
  unfold heatUp.
  apply tends_bind with Idle; [apply tends_fan_off|intros _].
  do 7 (apply tends_bind with Idle; [tends_spares|intros ?]).
  apply tends_bind with Idle; [tends_spares|intros ?].
  repeat apply tends_if; try tends_spares.
  apply tends_heatUp_while.
Qed.

Lemma tends_coolDown_while fuel setpoint maxTimeout ris :
  tends (coolDown_while fuel setpoint maxTimeout ris) Cold Cold.
Proof.
  induction fuel as [|fuel IH]; cbn [coolDown_while]; intros s r Hr;
    (destruct (dgt _ _); [|now apply rig_post_refl]).
  - apply rig_safe_refl.
  - revert s r Hr.
    change (tends (r <- coolDown_body maxTimeout;;
                   match r with
                   | Break ris' => ret ris'
                   | Continue _ => coolDown_while fuel setpoint maxTimeout ris
                   end) Cold Cold).
    apply tends_bind with Cold.
    + unfold coolDown_body. apply tends_to with Blowing.
      apply tends_bind with Blowing; [apply tends_fan_on|intros _].
      tends_spares.
    + intros [b|c]; [apply tends_ret | exact IH].
Qed.

(** [coolDown] switches the fan off after everything else. *)
Lemma tends_coolDown fuel setpoint maxTimeout :
  tends (coolDown fuel setpoint maxTimeout) Cold Idle.
Proof.
  unfold coolDown.
  do 5 (apply tends_bind with Cold; [tends_spares|intros ?]).
  apply tends_bind with Cold; [apply tends_coolDown_while|intros ?].
  apply tends_bind with Idle; [apply tends_fan_off|intros _].
  apply tends_ret.
Qed.

Lemma tends_holdConstantTemp_while fuel duration setpoint elapsed ris :
  tends (holdConstantTemp_while fuel duration setpoint elapsed ris) Idle Idle.
Proof.
  revert elapsed.
  induction fuel as [|fuel IH]; cbn [holdConstantTemp_while];
    intros elapsed s r Hr;
    (destruct (_ <? _); [|now apply rig_post_refl]).
  - apply rig_safe_refl.
  - revert s r Hr.
    change (tends (r <- holdConstantTemp_body setpoint;;
                   match r with
                   | Break ris' => ret ris'
                   | Continue e =>
                       holdConstantTemp_while fuel duration setpoint e ris
                   end) Idle Idle).
    apply tends_bind with Idle.
    + unfold holdConstantTemp_body.
      apply tends_bind with Idle; [tends_spares|intros b].
      apply tends_if; [tends_spares|].
      do 3 (apply tends_bind with Idle; [tends_spares|intros ?]).
      apply tends_bind with Idle; [apply tends_hold_adjust|intros _].
      tends_spares.
    + intros [b|e]; [apply tends_ret | apply IH].
Qed.

Lemma tends_holdConstantTemp fuel duration setpoint :
  tends (holdConstantTemp fuel duration setpoint) Idle Idle.
Proof.
  unfold holdConstantTemp.
  do 2 (apply tends_bind with Idle; [tends_spares|intros ?]).
  apply tends_holdConstantTemp_while.
Qed.

Lemma tends_phase_step p call next (a : mode) :
  tends call a Idle -> tends next Idle Idle ->
  tends (phase_step p call next) a Idle.
Proof.
  intros Hc Hn. unfold phase_step.
  apply tends_bind with a; [tends_spares|intros _].
  apply tends_bind with Idle; [exact Hc|intros ris].
  apply tends_if; [tends_spares | exact Hn].
Qed.

Lemma tends_cycle fuel : tends (cycle fuel) Cold Idle.
Proof.
  unfold cycle, denaturation, extension.
  apply tends_phase_step; [apply tends_heatUp|].
  apply tends_phase_step.
  { apply tends_bind with Idle; [tends_spares|intros c].
    apply tends_if; apply tends_holdConstantTemp. }
  apply tends_phase_step; [apply tends_from, tends_coolDown|].
  apply tends_phase_step; [apply tends_holdConstantTemp|].
  apply tends_phase_step; [apply tends_from, tends_heatUp|].
  apply tends_phase_step.
  { apply tends_bind with Idle; [tends_spares|intros c].
    apply tends_if; apply tends_holdConstantTemp. }
  apply tends_ret.
Qed.

Lemma tends_runPCR_for inner fuel : tends (runPCR_for inner fuel) Cold Cold.
Proof.
  induction fuel as [|fuel IH]; cbn [runPCR_for]; intros s r Hr;
    (destruct (_ <? _); [|now apply rig_post_refl]).
  - apply rig_safe_refl.
  - revert s r Hr.
    change (tends (r <- cycle inner;;
                   match r with
                   | Break _ => ret tt
                   | Continue _ =>
                       c <- gets currCycle;;
                       upd (set_currCycle (int16 (c + 1)));;
                       runPCR_for inner fuel
                   end) Cold Cold).
    apply tends_bind with Cold; [apply tends_to with Idle, tends_cycle|].
    intros [b|c]; [apply tends_ret|].
    do 2 (apply tends_bind with Cold; [tends_spares|intros ?]).
    exact IH.
Qed.

(** [runPCR] leaves the fan on. *)
Lemma tends_runPCR fuel : tends (runPCR fuel) Cold Blowing.
Proof.
  unfold runPCR.
  do 5 (apply tends_bind with Cold; [tends_spares|intros ?]).
  apply tends_bind with Cold; [apply tends_runPCR_for|intros _].
  unfold runPCR_end.
  apply tends_bind with Blowing; [apply tends_fan_on|intros _].
  tends_spares.
Qed.

(** X6.  Replay the commands of a call of [runPCR] on a rig whose heater
    is off, the fan at either level.  Whether [runPCR] returns or is still
    running, the heater is never switched on while the fan is on, nor the
    fan while the heater is on, and the sketch never waits in [delay] for
    more than [MAX_PULSE_DURATION] milliseconds altogether while the
    heater is on.  When [runPCR] returns the heater is off and the fan is
    on. *)
Theorem runPCR_rig (fuel : nat) (s : state) (f : level) :
  post (runPCR fuel s)
       (fun _ s' => exists es, trace s' = trace s ++ es
                               /\ watch (Off, f) es = Some (Off, HIGH))
       (fun s' => exists es r', trace s' = trace s ++ es
                                /\ watch (Off, f) es = Some r').
Proof.
  eapply post_mono;
    [apply (tends_runPCR fuel s (Off, f)); reflexivity| |]; cbn beta.
  - intros _ s' (r' & (es & Ht & Hw) & Hr). cbn in Hr. subst r'.
    exists es. split; assumption.
  - intros s' (r' & es & Ht & Hw). exists es, r'. split; assumption.
Qed.


(** ** The fields of a log line *)

Lemma log_prints (force : bool) (s : state) (r : logline) :
  trace (final (log force s)) = trace s ++ [LogLine r] -> r = log_line s.
Proof.
  rewrite log_eq. cbn [final]. rewrite trace_log_upd. intros H.
  apply app_inv_head in H. unfold log_out in H.
  destruct (due force s); [|discriminate]. injection H as <-. reflexivity.
Qed.

(** X7.  The times of a line that [log] prints.  Hours, minutes and
    seconds of the first field make up the whole seconds of the run,
    minutes and seconds below 60.  In [pcrssv.ino] the minutes and seconds
    of the phase field are those of the whole seconds of the phase, the
    hours dropped; in [pcrfv.ino], where the remainder is taken of the
    run's seconds again ([t = t % 3600]), the phase field repeats the
    minutes and seconds of the run. *)
Theorem log_line_times (force : bool) (s : state) (r : logline) :
  trace (final (log force s)) = trace s ++ [LogLine r] ->
  let run := usub (ulong (clock s)) (startCycleTime s) / 1000 in
  let phase := usub (ulong (clock s)) (startPhaseTime s) / 1000 in
  ll_h r * 3600 + ll_m r * 60 + ll_s r = run
  /\ 0 <= ll_h r /\ 0 <= ll_m r < 60 /\ 0 <= ll_s r < 60
  /\ match v with
     | pcrssv => ll_pm r * 60 + ll_ps r = phase mod 3600
                 /\ 0 <= ll_pm r < 60 /\ 0 <= ll_ps r < 60
     | pcrfv => ll_pm r = ll_m r /\ ll_ps r = ll_s r
     end.
Proof.
  intros H run phase. apply log_prints in H. subst r.
  unfold log_line. cbn [ll_h ll_m ll_s ll_pm ll_ps]. fold run. fold phase.
  change (seconds s) with run.
  assert (Hrun : 0 <= run).
  { apply Z.div_pos; [apply Z.mod_pos_bound|]; lia. }
  assert (Hphase : 0 <= phase).
  { apply Z.div_pos; [apply Z.mod_pos_bound|]; lia. }
  clearbody run phase.
  rewrite (Z.mod_small (run mod 3600) 3600) by (apply Z.mod_pos_bound; lia).
  repeat split; try (destruct v; repeat split);
    Z.to_euclidean_division_equations; lia.
Qed.

Lemma double_to_int_Z (q : Q) (z : Z) :
  0 <= z -> (q == inject_Z z)%Q -> double_to_int q = z.
Proof.
  intros Hz H. rewrite double_to_int_floor.
  - rewrite H. apply Qfloor_Z.
  - rewrite H. unfold Qle, inject_Z. cbn. lia.
Qed.

(** X8.  The temperature of a line that [log] prints.  For a sample that
    is a multiple of a quarter of a degree, not negative and below 32768
    degrees -- the MAX6675 delivers 0 to 1023.75 -- the two fields are its
    whole degrees and its hundredths, 0, 25, 50 or 75; both fit the
    16-bit [int] they are kept in. *)
Theorem log_line_temperature (force : bool) (s : state) (r : logline)
  (k : Z) :
  trace (final (log force s)) = trace s ++ [LogLine r] ->
  0 <= k < 4 * 2 ^ 15 -> (currTemp s == k # 4)%Q ->
  ll_iPart r = k / 4 /\ ll_dPart r = 25 * (k mod 4)
  /\ int16 (ll_iPart r) = ll_iPart r /\ int16 (ll_dPart r) = ll_dPart r
  /\ (inject_Z (ll_iPart r) + inject_Z (ll_dPart r) / 100 == currTemp s)%Q.
Proof.
  intros H Hk Hq. apply log_prints in H. subst r.
  unfold log_line. cbn [ll_iPart ll_dPart].
  pose proof (Z.div_mod k 4 ltac:(lia)) as Hdm.
  pose proof (Z.mod_pos_bound k 4 ltac:(lia)) as Hmod.
  assert (Hdiv : 0 <= k / 4 < 2 ^ 15).
  { split; [apply Z.div_pos; lia|].
    apply Z.div_lt_upper_bound; lia. }
  assert (Hi : double_to_int (currTemp s) = k / 4).
  { rewrite double_to_int_floor.
    - rewrite Hq. reflexivity.
    - rewrite Hq. unfold Qle. cbn. lia. }
  rewrite Hi.
  assert (Hd : double_to_int ((currTemp s - inject_Z (k / 4)) * 100)%Q
               = 25 * (k mod 4)).
  { apply double_to_int_Z; [lia|]. rewrite Hq.
    remember (k / 4) as d eqn:Ed. remember (25 * (k mod 4)) as x eqn:Ex.
    unfold Qeq, Qminus, Qplus, Qmult, Qopp, inject_Z. cbn. lia. }
  rewrite Hd. split; [reflexivity|]. split; [reflexivity|].
  split; [unfold int16; rewrite Z.mod_small; lia|].
  split; [unfold int16; rewrite Z.mod_small; lia|].
  rewrite Hq.
  remember (k / 4) as d eqn:Ed. remember (25 * (k mod 4)) as x eqn:Ex.
  unfold Qeq, Qdiv, Qplus, Qmult, Qinv, inject_Z. cbn. lia.
Qed.


(** ** The ceiling of the rise ramp *)

Lemma ceiling_wait_exit (fuel : nat) (s : state) :
  post (ceiling_wait fuel s)
       (fun _ s' => dge (currTemp s') MAX_ALLOWED_TEMP = false)
       (fun _ => True).
Proof.
  revert s. induction fuel as [|fuel IH]; intros s; cbn [ceiling_wait];
    (destruct (dge _ _) eqn:E; [|exact E]).
  - exact I.
  - destruct s. exec. apply IH.
Qed.

(** What a turn of the rise ramp hands over to the loop test: its count
    of turns and a sample of which the test of the ceiling,
    [currTemp >= MAX_ALLOWED_TEMP], is false. *)
Definition handed_over (curIteration : Z) (r : flow bool Z) (s' : state)
  : Prop :=
  match r with
  | Break _ => True
  | Continue c =>
      c = curIteration /\ dge (currTemp s') MAX_ALLOWED_TEMP = false
  end.

Lemma heatUp_after_pulse_guard inner setpoint curIteration s :
  post (heatUp_after_pulse inner setpoint curIteration s)
       (handed_over curIteration) (fun _ => True).
Proof.
  unfold heatUp_after_pulse.
  apply post_bind_any. intros ct x.
  destruct (dge ct setpoint).
  { apply post_bind_any. intros _ y. exact I. }
  apply post_bind_any. intros _ y.
  apply post_bind_any. intros ct' z.
  destruct (dge ct' setpoint).
  { apply post_bind_any. intros _ y'. exact I. }
  apply post_bind_any. intros pt w. cbv zeta.
  assert (Hrest : forall x,
             post ((slope_wait inner;; ceiling_wait inner;;
                    ret (Continue curIteration)) x)
                  (handed_over curIteration) (fun _ => True)).
  { intros x0. apply post_bind_any. intros _ x1. apply post_bind.
    eapply post_mono; [apply ceiling_wait_exit| |auto]. cbn beta.
    intros _ x2 H. split; [reflexivity | exact H]. }
  destruct (Z.rem curIteration 2 =? 0).
  - destruct (dlt _ _); [|apply Hrest].
    apply post_bind_any. intros _ y'. exact I.
  - apply post_bind_any. intros _ y'. apply Hrest.
Qed.

(** X9.  A turn of the rise ramp of [heatUp] hands over to the next, its
    count of turns one more (as an [int]), only with a last sample of
    which the test of the ceiling, [currTemp >= MAX_ALLOWED_TEMP], is
    false: the ramp starts no further turn on a sample found at or above
    the ceiling. *)
Theorem heatUp_turn_below_ceiling (inner : nat) (setpoint : double)
  (curIteration c : Z) (s s' : state) :
  heatUp_body inner setpoint curIteration s = Done (Continue c) s' ->
  c = int16 (curIteration + 1) /\ dge (currTemp s') MAX_ALLOWED_TEMP = false.
Proof.
  intros H.
  assert (Hg : post (heatUp_body inner setpoint curIteration s)
                 (handed_over (int16 (curIteration + 1))) (fun _ => True)).
  { unfold heatUp_body. apply post_bind_any. intros b x.
    destruct b.
    { apply post_bind_any. intros _ y. exact I. }
    cbv zeta. do 7 (apply post_bind_any; intros ? ?).
    apply heatUp_after_pulse_guard. }
  rewrite H in Hg. exact Hg.
Qed.


(** ** setup and loop *)

(** The console of [pcrssv.ino] as [serialEvent] finds it: at its [n]-th
    call, the byte it reads if one is available. *)
Variable console : nat -> option ascii.

(** [setup].  Opening the console, the pin modes and the banner on the LCD
    of [pcrfv.ino] are no events of the model; the five seconds the banner
    is shown are. *)
Definition setup : prog unit :=
  setStatus IDLE;;
  digitalWrite HEAT_PIN LOW;;
  digitalWrite FAN_PIN LOW;;
  match v with
  | pcrssv => ret tt
  | pcrfv => delay 5000
  end.

(** [serialEvent] of [pcrssv.ino], at its [n]-th call. *)
Definition serialEvent (n : nat) : prog bool :=
  let ris := false in
  match console n with
  | Some rx =>
      if (rx =? "s")%char || (rx =? "S")%char then
        ph <- gets currPhase;;
        if phase_eqb ph IDLE || phase_eqb ph FAULT then ret true
        else ret ris
      else ret ris
  | None => ret ris
  end.

(** [updateTemperature] of [pcrfv.ino]; its static local [updateTime] is
    passed in and handed back. *)
Definition updateTemperature (updateTime : Z) : prog Z :=
  now <- millis;;
  if 1000 <? usub now updateTime then
    t <- readCelsius;;
    upd (set_currTemp t);;
    now' <- millis;;
    ret now'
  else ret updateTime.

(** [loop], the [n]-th time round. *)
Definition loop (fuel : nat) (n : nat) (updateTime : Z) : prog Z :=
  b <- buttonPressed;;
  when b (runPCR fuel);;
  match v with
  | pcrssv =>
      b <- serialEvent n;;
      when b (runPCR fuel);;
      ret updateTime
  | pcrfv => updateTemperature updateTime
  end.

(** Between two runs the sketch shows [IDLE] or [FAULT]. *)
Definition resting (s : state) : Prop :=
  currPhase s = IDLE \/ currPhase s = FAULT.

(** The console asks for a run. *)
Definition start_command (n : nat) : bool :=
  match console n with
  | Some rx => (rx =? "s")%char || (rx =? "S")%char
  | None => false
  end.

Lemma serialEvent_eq (n : nat) (s : state) :
  serialEvent n s
  = Done (start_command n
          && (phase_eqb (currPhase s) IDLE || phase_eqb (currPhase s) FAULT))
         s.
Proof.
  unfold serialEvent, start_command. destruct (console n) as [rx|];
    [|reflexivity].
  destruct (_ || _); [|reflexivity]. cbn.
  destruct (_ || _); reflexivity.
Qed.

Lemma resting_phase (s : state) :
  resting s ->
  phase_eqb (currPhase s) IDLE || phase_eqb (currPhase s) FAULT = true.
Proof. intros [H|H]; rewrite H; reflexivity. Qed.

Lemma runPCR_end_resting (s : state) :
  post (runPCR_end s) (fun _ s' => resting s') (fun _ => True).
Proof.
  unfold runPCR_end. destruct s. exec.
  destruct currPhase0; cbn [phase_eqb negb when]; exec;
    try (right; reflexivity);
    unfold bind; rewrite setStatus_eq, log_eq; cbn [post];
    left; rewrite currPhase_log_upd; apply status_upd_frame.
Qed.

Lemma runPCR_resting (fuel : nat) (s : state) :
  post (runPCR fuel s) (fun _ s' => resting s') (fun _ => True).
Proof.
  rewrite runPCR_eq. apply post_bind_any. intros _ x.
  apply runPCR_end_resting.
Qed.

Lemma when_runPCR_resting (b : bool) (fuel : nat) (s : state) :
  resting s ->
  post (when b (runPCR fuel) s) (fun _ s' => resting s') (fun _ => True).
Proof. intros H. destruct b; [apply runPCR_resting | exact H]. Qed.

Lemma updateTemperature_eq (updateTime : Z) (s : state) :
  updateTemperature updateTime s
  = if 1000 <? usub (ulong (clock s)) updateTime
    then Done (ulong (clock s))
              (set_currTemp (thermocouple (reads s))
                 (set_reads (S (reads s)) s))
    else Done updateTime s.
Proof.
  destruct s. unfold updateTemperature. exec.
  destruct (1000 <? _); reflexivity.
Qed.

Lemma loop_resting (fuel n : nat) (updateTime : Z) (s : state) :
  resting s ->
  post (loop fuel n updateTime s) (fun _ s' => resting s') (fun _ => True).
Proof.
  intros Hs. unfold loop. apply post_bind. rewrite buttonPressed_eq.
  cbn [post]. apply post_bind.
  eapply post_mono; [apply when_runPCR_resting| |auto].
  - destruct s. exact Hs.
  - cbn beta. intros _ x Hx. destruct v.
    + apply post_bind. rewrite serialEvent_eq. cbn [post].
      apply post_bind.
      eapply post_mono; [apply when_runPCR_resting, Hx| |auto].
      cbn beta. intros _ y Hy. exact Hy.
    + rewrite updateTemperature_eq.
      destruct (1000 <? _); [|exact Hx].
      destruct x. exact Hx.
Qed.

Lemma spares_serialEvent n : spares (serialEvent n).
Proof.
  intros s f. rewrite serialEvent_eq. apply went_refl.
Qed.

Lemma spares_updateTemperature u : spares (updateTemperature u).
Proof. unfold updateTemperature. spares. Qed.

Lemma tends_when_runPCR (b : bool) (fuel : nat) :
  tends (when b (runPCR fuel)) Cold Cold.
Proof.
  destruct b; [apply tends_to with Blowing, tends_runPCR|].
  apply tends_ret.
Qed.

Lemma tends_loop (fuel n : nat) (updateTime : Z) :
  tends (loop fuel n updateTime) Cold Cold.
Proof.
  unfold loop.
  apply tends_bind with Cold; [tends_spares|intros b].
  apply tends_bind with Cold; [apply tends_when_runPCR|intros _].
  destruct v.
  - apply tends_bind with Cold;
      [apply tends_spares, spares_serialEvent|intros b'].
    apply tends_bind with Cold; [apply tends_when_runPCR|intros _].
    apply tends_ret.
  - apply tends_spares, spares_updateTemperature.
Qed.

(** X10.  [setup] leaves the sketch in the phase [IDLE] with the heater
    and the fan switched off, wherever the rig was.  From then on every
    round of [loop] that starts with the sketch in [IDLE] or [FAULT] ends
    so; and replayed on a rig whose heater is off, its commands -- those
    of the runs it makes -- never have the heater and the fan on together
    nor the heater on through more than [MAX_PULSE_DURATION] milliseconds
    of [delay], and leave the heater off. *)
Theorem setup_loop_rest :
  (forall (s : state) (r : rig),
      exists s' es,
        setup s = Done tt s' /\ currPhase s' = IDLE
        /\ trace s' = trace s ++ es /\ watch r es = Some (Off, LOW))
  /\ (forall (fuel n : nat) (updateTime : Z) (s : state) (f : level),
         resting s ->
         post (loop fuel n updateTime s)
              (fun _ s' =>
                 resting s'
                 /\ exists es f', trace s' = trace s ++ es
                                  /\ watch (Off, f) es = Some (Off, f'))
              (fun s' =>
                 exists es r', trace s' = trace s ++ es
                               /\ watch (Off, f) es = Some r')).
Proof.
  split.
  - intros s r.
    assert (H : exists s',
               setup s = Done tt s' /\ currPhase s' = IDLE
               /\ led (trace s) r (trace s') (Off, LOW)).
    { destruct s, r as [h f]. unfold setup, setStatus.
      destruct v; cbn [rgb]; exec; eexists;
        (split; [reflexivity|]); (split; [reflexivity|]);
        exec; led_steps; reflexivity. }
    destruct H as (s' & H1 & H2 & es & H3 & H4).
    exists s', es. repeat split; assumption.
  - intros fuel n updateTime s f Hs.
    eapply post_mono;
      [exact (post_and _ _ _ _ _
                (loop_resting fuel n updateTime s Hs)
                (tends_loop fuel n updateTime s (Off, f) eq_refl))| |];
      cbn beta.
    + intros _ s' (H1 & r' & (es & Ht & Hw) & Hr).
      split; [exact H1|]. destruct r' as [h f']. cbn in Hr. subst h.
      exists es, f'. split; assumption.
    + intros s' (_ & r' & es & Ht & Hw). exists es, r'. split; assumption.
Qed.


(** X11.  A round of [loop] in which nothing asks for a run -- no falling
    edge on the button and, in [pcrssv.ino], no 's' or 'S' read from the
    console -- returns having commanded nothing and printed nothing: the
    trace, the outputs, the clock, the phase, the cycle and the fault code
    are as before.  [pcrssv.ino] then takes no sample either;
    [pcrfv.ino] takes one, into [currTemp], when more than 1000 ms have
    passed since [updateTime], which becomes the time of that sample. *)
Theorem loop_without_request (fuel n : nat) (updateTime : Z) (s : state) :
  pressed s = false ->
  (v = pcrssv -> start_command n = false) ->
  exists u' s',
    loop fuel n updateTime s = Done u' s'
    /\ trace s' = trace s /\ pins s' = pins s /\ clock s' = clock s
    /\ currPhase s' = currPhase s /\ currCycle s' = currCycle s
    /\ faultCode s' = faultCode s
    /\ match v with
       | pcrssv =>
           u' = updateTime /\ reads s' = reads s /\ currTemp s' = currTemp s
       | pcrfv =>
           if 1000 <? usub (ulong (clock s)) updateTime
           then u' = ulong (clock s) /\ reads s' = S (reads s)
                /\ currTemp s' = thermocouple (reads s)
           else u' = updateTime /\ reads s' = reads s
                /\ currTemp s' = currTemp s
       end.
Proof.
  intros Hp Hc. unfold loop, bind. rewrite buttonPressed_eq, Hp.
  cbn [when ret]. revert Hc. destruct v; intros Hc.
  - rewrite serialEvent_eq, (Hc eq_refl). cbn [andb when ret].
    destruct s. do 2 eexists. split; [reflexivity|]. repeat split.
  - rewrite updateTemperature_eq. destruct s.
    cbn [clock set_prevInButton set_currInButton set_polls].
    destruct (1000 <? _); do 2 eexists; (split; [reflexivity|]);
      repeat split.
Qed.

(** X12.  In [pcrssv.ino] the test of the phase in [serialEvent] never
    refuses a start command within [loop]: called between two runs, with
    the sketch in [IDLE] or [FAULT], [loop] does what it would do without
    the test, and starts a run for every 's' or 'S' it reads. *)
Theorem loop_serial_start (fuel n : nat) (updateTime : Z) (s : state) :
  v = pcrssv -> resting s ->
  loop fuel n updateTime s
  = (b <- buttonPressed;;
     when b (runPCR fuel);;
     when (start_command n) (runPCR fuel);;
     ret updateTime) s.
Proof.
  intros Hv Hs. unfold loop, bind. rewrite buttonPressed_eq.
  revert Hv. destruct v; [intros _ | discriminate].
  match goal with
  | |- context [when (pressed s) (runPCR fuel) ?x] =>
      assert (Hx : resting x) by (destruct s; exact Hs);
      pose proof (when_runPCR_resting (pressed s) fuel x Hx) as Hr;
      destruct (when (pressed s) (runPCR fuel) x) as [[] y|y];
      [|reflexivity]
  end.
  cbn [post] in Hr. rewrite serialEvent_eq, (resting_phase y Hr).
  rewrite andb_true_r. reflexivity.
Qed.

(** ** How a run ends *)

(** What a phase of a cycle does to the cycle counter. *)
Definition count_post (s : state) (r : flow unit unit) (s' : state) : Prop :=
  match r with
  | Break _ => currCycle s' = NUM_CYCLES
  | Continue _ => currCycle s' = currCycle s
  end.

Lemma phase_step_count p (call : prog bool) (next : prog (flow unit unit)) :
  brings call ->
  (forall x, post (next x) (count_post x) (fun _ => True)) ->
  forall s, post (phase_step p call next s) (count_post s) (fun _ => True).
Proof.
  intros Hb Hnext s.
  destruct (status_upd_frame p s) as (_ & Hc & _).
  destruct ((setStatus p;; call) s) as [r s1|s1] eqn:E.
  - assert (Hc1 : currCycle s1 = currCycle s).
    { unfold bind in E. rewrite setStatus_eq in E.
      rewrite (brings_currCycle call Hb _ _ _ E). exact Hc. }
    destruct r.
    + rewrite (phase_step_succeeds p call next s s1 E).
      eapply post_mono; [apply Hnext| |auto]. cbn beta.
      intros [[]|[]] x H; cbn in H |- *; congruence.
    + rewrite (phase_step_fails p call next s s1 E). cbn.
      apply stopped_frame.
  - rewrite (phase_step_out p call next s s1 E). exact I.
Qed.

Lemma cycle_count fuel s :
  post (cycle fuel s) (count_post s) (fun _ => True).
Proof.
  revert s. unfold cycle.
  apply phase_step_count; [apply brings_heatUp|].
  apply phase_step_count; [apply brings_denaturation|].
  apply phase_step_count; [apply brings_coolDown|].
  apply phase_step_count; [apply brings_holdConstantTemp|].
  apply phase_step_count; [apply brings_heatUp|].
  apply phase_step_count; [apply brings_extension|].
  intros x. reflexivity.
Qed.

Lemma runPCR_for_count inner fuel s :
  0 <= currCycle s <= NUM_CYCLES ->
  post (runPCR_for inner fuel s) (fun _ s' => currCycle s' = NUM_CYCLES)
       (fun _ => True).
Proof.
  revert s. induction fuel as [|fuel IH]; intros s Hs; cbn [runPCR_for];
    (destruct (_ <? _) eqn:E;
     [apply Z.ltb_lt in E | apply Z.ltb_ge in E; cbn; lia]).
  - exact I.
  - apply post_bind.
    eapply post_mono; [apply cycle_count| |auto]. cbn beta.
    intros [[]|[]] x Hx; cbn in Hx; [exact Hx|].
    destruct x. cbn [currCycle] in Hx. exec. apply IH. cbn [currCycle].
    unfold NUM_CYCLES, int16 in *. rewrite Z.mod_small; lia.
Qed.

Lemma runPCR_end_eq (s : state) :
  runPCR_end s
  = Done tt (log_upd true (if phase_eqb (currPhase s) FAULT
                           then fan_on s
                           else status_upd IDLE (fan_on s))).
Proof.
  unfold runPCR_end, bind, digitalWrite, upd, gets. fold (fan_on s).
  destruct (fan_on_frame s) as (Hp & _). rewrite Hp.
  destruct (phase_eqb (currPhase s) FAULT); cbn [negb when ret].
  - rewrite log_eq. reflexivity.
  - rewrite setStatus_eq, log_eq. reflexivity.
Qed.

(** The line of a forced [log] shows the globals it leaves. *)
Lemma forced_line_shows (s : state) :
  exists r,
    trace (log_upd true s) = trace s ++ [LogLine r]
    /\ ll_cycle r = currCycle (log_upd true s) + 1
    /\ ll_phase r = currPhase (log_upd true s)
    /\ ll_fault r = faultCode (log_upd true s).
Proof.
  exists (log_line s). split; [apply forced_line|].
  rewrite currCycle_log_upd, currPhase_log_upd, faultCode_log_upd.
  repeat split.
Qed.

(** X13.  When [runPCR] returns, [currCycle] is [NUM_CYCLES], the phase is
    [IDLE] or [FAULT], and the last thing it did was to print a line: one
    that shows this phase, the fault code and, for the cycle,
    [NUM_CYCLES + 1] -- one more than the number of cycles of the run. *)
Theorem runPCR_returns (fuel : nat) (s s' : state) :
  runPCR fuel s = Done tt s' ->
  currCycle s' = NUM_CYCLES
  /\ (currPhase s' = IDLE \/ currPhase s' = FAULT)
  /\ exists l r,
      trace s' = l ++ [LogLine r]
      /\ ll_cycle r = NUM_CYCLES + 1
      /\ ll_phase r = currPhase s'
      /\ ll_fault r = faultCode s'.
Proof.
  intros H.
  pose proof (runPCR_resting fuel s) as Hr. rewrite H in Hr. cbn in Hr.
  rewrite runPCR_eq in H. unfold bind in H.
  pose proof (runPCR_for_count fuel fuel (runPCR_entry s)) as Hc.
  destruct (runPCR_for fuel fuel (runPCR_entry s)) as [[] x|x];
    [|discriminate].
  cbn [post] in Hc.
  assert (Hx : currCycle x = NUM_CYCLES).
  { apply Hc. destruct s. cbn. unfold NUM_CYCLES. lia. }
  rewrite runPCR_end_eq in H. injection H as <-.
  match goal with
  | |- context [log_upd true ?y] =>
      destruct (forced_line_shows y) as (r & Ht & H1 & H2 & H3);
      assert (Hy : currCycle y = NUM_CYCLES)
  end.
  { destruct (phase_eqb (currPhase x) FAULT).
    - destruct (fan_on_frame x) as (_ & E & _). congruence.
    - destruct (status_upd_frame IDLE (fan_on x)) as (_ & E & _).
      destruct (fan_on_frame x) as (_ & E' & _). congruence. }
  rewrite currCycle_log_upd in H1 |- *.
  split; [exact Hy|]. split; [exact Hr|].
  eexists. exists r. split; [exact Ht|]. split; [congruence|].
  split; assumption.
Qed.


(** ** The diagnostic LED of [pcrfv.ino] *)

(** The three outputs of the LED are at the levels of the current
    phase. *)
Definition led_shows (s : state) : Prop :=
  v = pcrfv ->
  (pins s RED_PIN, pins s GREEN_PIN, pins s BLUE_PIN) = rgb (currPhase s).

(** [lit m]: [m] leaves the LED showing the phase, whether it returns or
    not. *)
Definition lit {A} (m : prog A) : Prop :=
  forall s, led_shows s -> post (m s) (fun _ s' => led_shows s') led_shows.

Lemma lit_ret {A} (a : A) : lit (ret a).
Proof. intros s H. exact H. Qed.

Lemma lit_gets {A} (g : state -> A) : lit (gets g).
Proof. intros s H. exact H. Qed.

Lemma lit_upd (g : state -> state) :
  (forall s, pins (g s) = pins s /\ currPhase (g s) = currPhase s) ->
  lit (upd g).
Proof.
  intros Hg s H Hv. cbn. destruct (Hg s) as [-> ->]. exact (H Hv).
Qed.

Lemma lit_bind {A B} (m : prog A) (k : A -> prog B) :
  lit m -> (forall a, lit (k a)) -> lit (bind m k).
Proof.
  intros Hm Hk s H. apply post_bind.
  eapply post_mono; [apply (Hm s H)| |auto]. cbn beta.
  intros a s1 H1. apply (Hk a s1 H1).
Qed.

Lemma lit_if {A} (c : bool) (a b : prog A) :
  lit a -> lit b -> lit (if c then a else b).
Proof. destruct c; auto. Qed.

Lemma lit_millis : lit millis.
Proof. apply lit_gets. Qed.

Lemma lit_delay ms : lit (delay ms).
Proof. intros s H. destruct s. exact H. Qed.

Lemma lit_load p l :
  p = HEAT_PIN \/ p = FAN_PIN -> lit (digitalWrite p l).
Proof. intros [-> | ->] s H; destruct s; exact H. Qed.

Lemma lit_readCelsius : lit readCelsius.
Proof. intros s H. destruct s. exact H. Qed.

Lemma lit_digitalRead_START_STOP : lit digitalRead_START_STOP.
Proof. intros s H. destruct s. exact H. Qed.

Lemma lit_log force : lit (log force).
Proof. intros s H. rewrite log_eq. destruct s. exact H. Qed.

Lemma lit_setStatus p : lit (setStatus p).
Proof.
  intros s _. rewrite setStatus_eq. cbn [post]. intros Hv. revert Hv.
  unfold status_upd. destruct v; [discriminate|intros _].
  destruct s, p; reflexivity.
Qed.

Create HintDb lit.
Hint Resolve lit_ret lit_gets lit_bind lit_if lit_millis lit_delay
  lit_readCelsius lit_digitalRead_START_STOP lit_log lit_setStatus : lit.
Hint Extern 1 (lit (upd _)) =>
  apply lit_upd; intros []; split; reflexivity : lit.
Hint Extern 1 (lit (digitalWrite _ _)) =>
  apply lit_load; auto : lit.

Ltac lit := solve [unfold when; eauto 40 with lit].

Ltac lit_at :=
  match goal with
  | H : led_shows ?s |- post (?m ?s) _ _ =>
      apply ((ltac:(lit) : lit m) s H)
  end.

Lemma lit_buttonPressed : lit buttonPressed.
Proof. unfold buttonPressed. lit. Qed.

Hint Resolve lit_buttonPressed : lit.

Lemma lit_overheat_wait fuel : lit (overheat_wait fuel).
Proof.
  induction fuel as [|fuel IH]; intros s H; cbn [overheat_wait].
  - exact H.
  - lit_at.
Qed.

Lemma lit_slope_wait fuel : lit (slope_wait fuel).
Proof.
  induction fuel as [|fuel IH]; intros s H; cbn [slope_wait];
    (destruct (dge _ _); [|exact H]).
  - exact H.
  - lit_at.
Qed.

Lemma lit_ceiling_wait fuel : lit (ceiling_wait fuel).
Proof.
  induction fuel as [|fuel IH]; intros s H; cbn [ceiling_wait];
    (destruct (dge _ _); [|exact H]).
  - exact H.
  - lit_at.
Qed.

Hint Resolve lit_overheat_wait lit_slope_wait lit_ceiling_wait : lit.

Lemma lit_heatUp_while inner fuel setpoint curIteration ris :
  lit (heatUp_while inner fuel setpoint curIteration ris).
Proof.
  revert curIteration.
  induction fuel as [|fuel IH]; intros curIteration s H;
    cbn [heatUp_while]; (destruct (dlt _ _); [|exact H]).
  - exact H.
  - assert (Hk : forall r : flow bool Z,
               lit (match r with
                    | Break ris' => ret ris'
                    | Continue c => heatUp_while inner fuel setpoint c ris
                    end))
      by (intros [b|c]; [apply lit_ret | apply IH]).
    unfold heatUp_body, heatUp_after_pulse. lit_at.
Qed.

Lemma lit_heatUp fuel setpoint : lit (heatUp fuel setpoint).
Proof.
  pose proof (lit_heatUp_while fuel fuel setpoint 0 false).
  unfold heatUp. lit.
Qed.

Lemma lit_coolDown_while fuel setpoint maxTimeout ris :
  lit (coolDown_while fuel setpoint maxTimeout ris).
Proof.
  induction fuel as [|fuel IH]; intros s H; cbn [coolDown_while];
    (destruct (dgt _ _); [|exact H]).
  - exact H.
  - assert (Hk : forall r : flow bool unit,
               lit (match r with
                    | Break ris' => ret ris'
                    | Continue _ =>
                        coolDown_while fuel setpoint maxTimeout ris
                    end))
      by (intros [b|c]; [apply lit_ret | apply IH]).
    unfold coolDown_body. lit_at.
Qed.

Lemma lit_coolDown fuel setpoint maxTimeout :
  lit (coolDown fuel setpoint maxTimeout).
Proof.
  pose proof (lit_coolDown_while fuel setpoint maxTimeout true).
  unfold coolDown. lit.
Qed.

Lemma lit_holdConstantTemp_while fuel duration setpoint elapsed ris :
  lit (holdConstantTemp_while fuel duration setpoint elapsed ris).
Proof.
  revert elapsed.
  induction fuel as [|fuel IH]; intros elapsed s H;
    cbn [holdConstantTemp_while]; (destruct (_ <? _); [|exact H]).
  - exact H.
  - assert (Hk : forall r : flow bool Z,
               lit (match r with
                    | Break ris' => ret ris'
                    | Continue e =>
                        holdConstantTemp_while fuel duration setpoint e ris
                    end))
      by (intros [b|c]; [apply lit_ret | apply IH]).
    assert (Ha : lit (hold_adjust setpoint))
      by (unfold hold_adjust; destruct v; lit).
    unfold holdConstantTemp_body. lit_at.
Qed.

Lemma lit_holdConstantTemp fuel duration setpoint :
  lit (holdConstantTemp fuel duration setpoint).
Proof.
  pose proof (lit_holdConstantTemp_while fuel duration setpoint 0 true).
  unfold holdConstantTemp. lit.
Qed.

Hint Resolve lit_heatUp lit_coolDown lit_holdConstantTemp : lit.

Lemma lit_phase_step p call next :
  lit call -> lit next -> lit (phase_step p call next).
Proof. intros Hc Hn. unfold phase_step. lit. Qed.

Lemma lit_cycle fuel : lit (cycle fuel).
Proof.
  assert (lit (denaturation fuel)) by (unfold denaturation; lit).
  assert (lit (extension fuel)) by (unfold extension; lit).
  unfold cycle. repeat apply lit_phase_step; auto with lit.
Qed.

Lemma lit_runPCR_for inner fuel : lit (runPCR_for inner fuel).
Proof.
  induction fuel as [|fuel IH]; intros s H; cbn [runPCR_for];
    (destruct (_ <? _); [|exact H]).
  - exact H.
  - assert (Hk : forall r : flow unit unit,
               lit (match r with
                    | Break _ => ret tt
                    | Continue _ =>
                        c <- gets currCycle;;
                        upd (set_currCycle (int16 (c + 1)));;
                        runPCR_for inner fuel
                    end))
      by (intros [b|c]; [apply lit_ret | lit]).
    pose proof (lit_cycle inner). lit_at.
Qed.

Lemma lit_runPCR fuel : lit (runPCR fuel).
Proof.
  pose proof (lit_runPCR_for fuel fuel).
  unfold runPCR, runPCR_end. lit.
Qed.

Lemma lit_loop fuel n updateTime : lit (loop fuel n updateTime).
Proof.
  pose proof (lit_runPCR fuel).
  assert (lit (serialEvent n)).
  { intros s Hs. rewrite serialEvent_eq. exact Hs. }
  unfold loop, updateTemperature. destruct v; lit.
Qed.

(** X14.  In [pcrfv.ino] the LED shows the phase: [setup] sets it to the
    colour of [IDLE], and a round of [loop] that finds the three outputs
    at the levels of the current phase leaves them so, through the runs it
    makes and also when a run never ends.  No two phases have the same
    colour. *)
Theorem led_shows_phase :
  v = pcrfv ->
  (forall p q : phase, rgb p = rgb q -> p = q)
  /\ (forall s : state,
         exists s', setup s = Done tt s'
                    /\ (pins s' RED_PIN, pins s' GREEN_PIN, pins s' BLUE_PIN)
                       = rgb (currPhase s'))
  /\ (forall (fuel n : nat) (updateTime : Z) (s : state),
         (pins s RED_PIN, pins s GREEN_PIN, pins s BLUE_PIN)
         = rgb (currPhase s) ->
         let shown s' :=
           (pins s' RED_PIN, pins s' GREEN_PIN, pins s' BLUE_PIN)
           = rgb (currPhase s') in
         post (loop fuel n updateTime s) (fun _ s' => shown s') shown).
Proof.
  intros Hv. split; [|split].
  - intros [] []; cbn; congruence.
  - intros s. unfold setup, setStatus. revert Hv.
    destruct v; [discriminate|intros _].
    destruct s. cbn [rgb]. exec. eexists. split; reflexivity.
  - intros fuel n updateTime s Hs shown.
    eapply post_mono;
      [apply (lit_loop fuel n updateTime s (fun _ => Hs))| |];
      cbn beta.
    + intros _ s' H. exact (H Hv).
    + intros s' H. exact (H Hv).
Qed.


(** ** The stop button *)

(** X15.  A falling edge on the button stops a regulator at the poll that
    sees it, with the fault code '1'.  The rise ramp of [heatUp] and the
    loop of [holdConstantTemp] poll at the head of a turn: they return
    [false] at once, with no command and no line.  The loop of [coolDown]
    polls at the end of a turn: it returns [false] after one more run of
    the fan. *)
Theorem stop_button_stops (s : state) :
  pressed s = true ->
  (forall (inner fuel : nat) (setpoint : double) (curIteration : Z)
          (ris : bool),
      (currTemp s < setpoint)%Q ->
      exists s',
        heatUp_while inner (S fuel) setpoint curIteration ris s
        = Done false s'
        /\ faultCode s' = "1"%char /\ trace s' = trace s
        /\ pins s' = pins s)
  /\ (forall (fuel : nat) (duration : Z) (setpoint : double)
             (holdTimeElapsed : Z) (ris : bool),
         holdTimeElapsed < ulong duration ->
         exists s',
           holdConstantTemp_while (S fuel) duration setpoint holdTimeElapsed
             ris s = Done false s'
           /\ faultCode s' = "1"%char /\ trace s' = trace s
           /\ pins s' = pins s)
  /\ (forall (fuel : nat) (setpoint : double) (maxTimeout : Z) (ris : bool),
         (setpoint + FAN_THRESHOLD_TEMP < currTemp s)%Q ->
         exists s' es,
           coolDown_while (S fuel) setpoint maxTimeout ris s = Done false s'
           /\ faultCode s' = "1"%char /\ trace s' = trace s ++ es
           /\ commands es = [DigitalWrite FAN_PIN HIGH; Delay maxTimeout]).
Proof.
  intros Hp. split; [|split].
  - intros inner fuel setpoint curIteration ris Hlt.
    apply dlt_true in Hlt. cbn [heatUp_while]. rewrite Hlt.
    revert Hp. destruct s. unfold heatUp_body, pressed.
    cbn [polls prevInButton]. intros Hp. exec. rewrite Hp. exec.
    eexists. split; [reflexivity|]. repeat split.
  - intros fuel duration setpoint holdTimeElapsed ris Hlt.
    apply Z.ltb_lt in Hlt. cbn [holdConstantTemp_while]. rewrite Hlt.
    revert Hp. destruct s. unfold holdConstantTemp_body, pressed.
    cbn [polls prevInButton]. intros Hp. exec. rewrite Hp. exec.
    eexists. split; [reflexivity|]. repeat split.
  - intros fuel setpoint maxTimeout ris Hgt.
    apply dgt_true in Hgt. cbn [coolDown_while]. rewrite Hgt.
    unfold bind. rewrite coolDown_body_eq, Hp. cbn [ret].
    exists (set_faultCode "1" (coolDown_turn maxTimeout s)).
    exists ([DigitalWrite FAN_PIN HIGH; Delay maxTimeout]
            ++ log_out false
                 (set_currTemp (thermocouple (reads s))
                    (set_reads (S (reads s))
                       (emit (Delay maxTimeout)
                          (set_clock (clock s + maxTimeout)
                             (emit (DigitalWrite FAN_PIN HIGH)
                                (set_pins
                                   (fun q => if pin_eqb q FAN_PIN then HIGH
                                             else pins s q) s))))))).
    split; [reflexivity|]. split; [apply faultCode_set_faultCode|].
    split.
    + destruct s. cbn [coolDown_turn set_faultCode trace set_prevInButton
                       set_currInButton set_polls log_upd emits
                       set_timeCounter set_currTemp set_reads emit set_clock
                       set_pins app].
      rewrite <- !app_assoc. reflexivity.
    + rewrite commands_app, commands_log_out. reflexivity.
Qed.


(** ** The rise ramp given up *)

(** How the checks that follow a pulse can end the ramp with [false]. *)
Definition unstable (setpoint : double) (curIteration : Z)
  (r : flow bool Z) (s' : state) : Prop :=
  r = Break false ->
  faultCode s' = "4"%char
  /\ Z.rem curIteration 2 = 0
  /\ (currTemp s' < prevTemp s' - STABILITY_THRESHOLD_TEMP)%Q
  /\ (currTemp s' < setpoint)%Q.

Lemma heatUp_after_pulse_unstable inner setpoint curIteration s :
  post (heatUp_after_pulse inner setpoint curIteration s)
       (unstable setpoint curIteration) (fun _ => True).
Proof.
  unfold heatUp_after_pulse, bind, gets.
  destruct (dge (currTemp s) setpoint); [cbn; discriminate|].
  destruct (when _ _ s) as [[] s1|s1]; [|exact I].
  destruct (dge (currTemp s1) setpoint) eqn:E1; [cbn; discriminate|].
  cbv zeta.
  assert (Hrest : forall x,
             post (match slope_wait inner x with
                   | Done _ x1 =>
                       match ceiling_wait inner x1 with
                       | Done _ x2 => ret (Continue curIteration) x2
                       | OutOfFuel x2 => OutOfFuel x2
                       end
                   | OutOfFuel x1 => OutOfFuel x1
                   end)
                  (unstable setpoint curIteration) (fun _ => True)).
  { intros x. destruct (slope_wait inner x) as [[] x1|x1]; [|exact I].
    destruct (ceiling_wait inner x1) as [[] x2|x2]; [|exact I].
    cbn. discriminate. }
  destruct (Z.rem curIteration 2 =? 0) eqn:E2.
  - destruct (dlt _ _) eqn:E3; [|apply Hrest].
    apply Z.eqb_eq in E2. apply dlt_true in E3. apply dge_false in E1.
    destruct s1. cbn in *. intros _. auto.
  - cbn [upd]. apply Hrest.
Qed.

(** X16.  A turn of the rise ramp of [heatUp] gives up -- leaves the loop
    with [false] -- in two cases only.  The stop button: fault code '1',
    nothing commanded.  Or, with the heater pulse given, on a turn of even
    count, a last sample still below the setpoint and more than
    [STABILITY_THRESHOLD_TEMP] below the sample kept in [prevTemp]: fault
    code '4'. *)
Theorem heatUp_turn_gives_up (inner : nat) (setpoint : double)
  (curIteration : Z) (s s' : state) :
  heatUp_body inner setpoint curIteration s = Done (Break false) s' ->
  (pressed s = true /\ faultCode s' = "1"%char /\ trace s' = trace s)
  \/ (pressed s = false /\ faultCode s' = "4"%char
      /\ Z.rem (int16 (curIteration + 1)) 2 = 0
      /\ (currTemp s' < prevTemp s' - STABILITY_THRESHOLD_TEMP)%Q
      /\ (currTemp s' < setpoint)%Q).
Proof.
  destruct s. unfold heatUp_body, pressed. cbn [polls prevInButton]. exec.
  destruct (_ && _); exec.
  - intros H. injection H as <-. left. repeat split.
  - intros H. right. split; [reflexivity|].
    match type of H with
    | heatUp_after_pulse ?i ?S ?c ?x = _ =>
        pose proof (heatUp_after_pulse_unstable i S c x) as Hu
    end.
    rewrite H in Hu. exact (Hu eq_refl).
Qed.


(** * A run, cycle by cycle *)

(** The six phases of a cycle, each with its regulator, in the order of
    the body of the [for] loop. *)
Definition phases (fuel : nat) : list (phase * prog bool) :=
  [(HEATING, heatUp fuel DENATURE_TEMP);
   (DENATURATION, denaturation fuel);
   (COOLING, coolDown fuel ANNEALING_TEMP COOL_SAMPLE_TIME);
   (ANNEALING, holdConstantTemp fuel ANNEALING_TIME ANNEALING_TEMP);
   (HEATING, heatUp fuel EXTENSION_TEMP);
   (EXTENSION, extension fuel)].

(** Phases run one after the other, each with the handler of its fault. *)
Fixpoint steps (l : list (phase * prog bool)) : prog (flow unit unit) :=
  match l with
  | [] => ret (Continue tt)
  | (p, call) :: l' => phase_step p call (steps l')
  end.

Lemma cycle_steps (fuel : nat) : cycle fuel = steps (phases fuel).
Proof. reflexivity. Qed.

(** [passes l s s']: run from [s], the phases [l] have all returned
    [true], the last of them in [s']. *)
Inductive passes : list (phase * prog bool) -> state -> state -> Prop :=
| passes_nil (s : state) : passes [] s s
| passes_cons (p : phase) (call : prog bool) (l : list (phase * prog bool))
    (s s1 s' : state) :
    (setStatus p;; call) s = Done true s1 ->
    passes l s1 s' ->
    passes ((p, call) :: l) s s'.

(** [cycles_to inner n s s']: from [s], at the test of the [for] loop,
    [n] cycles have been run to their end, and the loop is at its test
    again in [s']. *)
Inductive cycles_to (inner : nat) : nat -> state -> state -> Prop :=
| cycles_O (s : state) : cycles_to inner O s s
| cycles_S (n : nat) (s s1 s' : state) :
    currCycle s < NUM_CYCLES ->
    cycle inner s = Done (Continue tt) s1 ->
    cycles_to inner n (set_currCycle (int16 (currCycle s1 + 1)) s1) s' ->
    cycles_to inner (S n) s s'.

Lemma steps_fail (pre rest : list (phase * prog bool)) (p : phase)
  (call : prog bool) (x s0 s1 : state) :
  passes pre x s0 ->
  (setStatus p;; call) s0 = Done false s1 ->
  steps (pre ++ (p, call) :: rest) x = Done (Break tt) (stopped s1).
Proof.
  intros Hp Hf. induction Hp as [s|q c l s s2 s' Hq Hl IH].
  - now apply phase_step_fails.
  - cbn [app steps]. rewrite (phase_step_succeeds q c _ s s2 Hq).
    now apply IH.
Qed.

Lemma steps_pass (l : list (phase * prog bool)) (x y : state) :
  passes l x y -> steps l x = Done (Continue tt) y.
Proof.
  intros Hp. induction Hp as [s|q c l s s2 s' Hq Hl IH].
  - reflexivity.
  - cbn [steps]. rewrite (phase_step_succeeds q c _ s s2 Hq). exact IH.
Qed.

Lemma passes_currCycle (l : list (phase * prog bool)) (s s' : state) :
  Forall (fun pc => brings (snd pc)) l ->
  passes l s s' -> currCycle s' = currCycle s.
Proof.
  intros Hb Hp. induction Hp as [s|q c l s s1 s' Hq Hl IH].
  - reflexivity.
  - inversion Hb as [|? ? Hc Hb']; subst. rewrite (IH Hb').
    unfold bind in Hq. rewrite setStatus_eq in Hq.
    rewrite (brings_currCycle c Hc _ _ _ Hq).
    apply status_upd_frame.
Qed.

Lemma brings_phases (fuel : nat) :
  Forall (fun pc => brings (snd pc)) (phases fuel).
Proof.
  repeat constructor; cbn [snd].
  - apply brings_heatUp.
  - apply brings_denaturation.
  - apply brings_coolDown.
  - apply brings_holdConstantTemp.
  - apply brings_heatUp.
  - apply brings_extension.
Qed.

Lemma brings_firstn (k fuel : nat) :
  Forall (fun pc => brings (snd pc)) (firstn k (phases fuel)).
Proof.
  generalize (brings_phases fuel). generalize (phases fuel). revert k.
  induction k as [|k IH]; intros l Hl; [constructor|].
  destruct Hl as [|pc l Hpc Hl]; [constructor|].
  cbn [firstn]. constructor; [exact Hpc | now apply IH].
Qed.

Lemma int16_next (c : Z) : 0 <= c < NUM_CYCLES -> int16 (c + 1) = c + 1.
Proof.
  unfold NUM_CYCLES, int16. intros H. rewrite Z.mod_small; lia.
Qed.

(** A run counts its cycles from 0, one by one. *)
Lemma cycles_to_currCycle (inner n : nat) (s s' : state) :
  cycles_to inner n s s' -> 0 <= currCycle s ->
  currCycle s' = currCycle s + Z.of_nat n.
Proof.
  intros H. induction H as [s|n s s1 s' Hlt Hc Hn IH]; intros H0.
  - cbn. lia.
  - pose proof (cycle_count inner s) as Hs. rewrite Hc in Hs. cbn in Hs.
    assert (E : currCycle (set_currCycle (int16 (currCycle s1 + 1)) s1)
                = currCycle s + 1).
    { destruct s1. cbn [currCycle set_currCycle] in *.
      rewrite Hs. apply int16_next. lia. }
    rewrite IH, E by lia. lia.
Qed.

Lemma runPCR_for_cycles (inner n : nat) (s s' : state) :
  cycles_to inner n s s' ->
  forall fuel, runPCR_for inner (n + fuel) s = runPCR_for inner fuel s'.
Proof.
  intros H. induction H as [s|n s s1 s' Hlt Hc Hn IH]; intros fuel.
  - reflexivity.
  - cbn [Nat.add runPCR_for]. apply Z.ltb_lt in Hlt. rewrite Hlt.
    unfold bind at 1. rewrite Hc. rewrite <- IH. destruct s1. reflexivity.
Qed.

Lemma status_upd_board (p : phase) (s : state) :
  reads (status_upd p s) = reads s /\ polls (status_upd p s) = polls s
  /\ clock (status_upd p s) = clock s
  /\ startPhaseTime (status_upd p s) = startPhaseTime s.
Proof.
  destruct s. unfold status_upd. destruct v; [repeat split|].
  destruct (rgb p) as [[red green] blue]. repeat split.
Qed.

Lemma commands_only_status (p : phase) : commands (status_out p) = status_out p.
Proof.
  unfold status_out. destruct v; [reflexivity|].
  destruct (rgb p) as [[red green] blue]. reflexivity.
Qed.

(** After a call of [log], a call that is not forced prints nothing as
    long as the clock stands. *)
Lemma due_after_log (force : bool) (s : state) :
  due false (log_upd force s) = false.
Proof.
  destruct (log_upd_frame force s) as (_ & _ & Hs & _ & _ & _ & Hc & _).
  unfold due, seconds. rewrite timeCounter_log_upd, Hs, Hc.
  fold (seconds s). unfold log_mark, due.
  destruct ((timeCounter s <? seconds s) || force) eqn:E.
  - rewrite Z.ltb_irrefl. reflexivity.
  - apply orb_false_elim in E. destruct E as [-> _]. reflexivity.
Qed.

Lemma fan_on_board (s : state) :
  reads (fan_on s) = reads s /\ polls (fan_on s) = polls s
  /\ clock (fan_on s) = clock s
  /\ forall force, due force (fan_on s) = due force s.
Proof. destruct s. repeat split. Qed.

(** What the handler of a fault and the end of [runPCR] do, after the
    regulator has returned [false] in [s1]. *)
Lemma stopped_end (s1 : state) :
  let s2 := stopped s1 in
  let s3 := log_upd true (fan_on s2) in
  runPCR_end s2 = Done tt s3
  /\ currCycle s3 = NUM_CYCLES /\ currPhase s3 = FAULT
  /\ faultCode s3 = faultCode s1
  /\ (exists es r,
         trace s3 = trace s1 ++ es ++ [DigitalWrite FAN_PIN HIGH; LogLine r]
         /\ commands es = status_out FAULT
         /\ ll_phase r = FAULT /\ ll_fault r = faultCode s1
         /\ ll_cycle r = NUM_CYCLES + 1)
  /\ reads s3 = reads s1 /\ polls s3 = polls s1 /\ clock s3 = clock s1
  /\ log false (fan_on s2) = Done tt (fan_on s2).
Proof.
  intros s2 s3.
  destruct (stopped_frame s1) as (Hc & Hp & Hf). fold s2 in Hc, Hp, Hf.
  destruct (fan_on_frame s2) as (Hp' & Hc' & Hf' & _ & Ht').
  destruct (fan_on_board s2) as (Hr2 & Hpo2 & Hcl2 & Hdue).
  destruct (log_upd_frame true (fan_on s2))
    as (_ & _ & _ & _ & _ & _ & Hcl3 & _ & Hr3 & Hpo3).
  fold s3 in Hcl3, Hr3, Hpo3.
  set (y := status_upd FAULT (set_currCycle NUM_CYCLES s1)).
  assert (Hy : trace y = trace s1 ++ status_out FAULT
               /\ reads y = reads s1 /\ polls y = polls s1
               /\ clock y = clock s1).
  { unfold y.
    destruct (status_upd_frame FAULT (set_currCycle NUM_CYCLES s1))
      as (_ & _ & _ & _ & _ & Ht).
    destruct (status_upd_board FAULT (set_currCycle NUM_CYCLES s1))
      as (Hr & Hpo & Hcl & _).
    rewrite Ht, Hr, Hpo, Hcl. destruct s1. repeat split. }
  destruct Hy as (Hty & Hry & Hpoy & Hcly).
  destruct (log_upd_frame false y)
    as (_ & _ & _ & _ & _ & _ & Hcly' & _ & Hry' & Hpoy').
  change (log_upd false y) with s2 in Hcly', Hry', Hpoy'.
  split; [now apply runPCR_end_fault|].
  split; [unfold s3; rewrite currCycle_log_upd; congruence|].
  split; [unfold s3; rewrite currPhase_log_upd; congruence|].
  split; [unfold s3; rewrite faultCode_log_upd; congruence|].
  split.
  { exists (status_out FAULT ++ log_out false y), (log_line (fan_on s2)).
    split.
    - unfold s3. rewrite forced_line, Ht'.
      change s2 with (log_upd false y). rewrite trace_log_upd, Hty.
      rewrite <- !app_assoc. reflexivity.
    - split; [rewrite commands_app, commands_log_out, commands_only_status;
              apply app_nil_r|].
      unfold log_line. cbn [ll_phase ll_fault ll_cycle].
      repeat split; congruence. }
  split; [congruence|]. split; [congruence|]. split; [congruence|].
  rewrite log_eq. f_equal. apply log_upd_idle.
  rewrite Hdue. apply due_after_log.
Qed.

(** C4.  A phase of a run that returns [false] -- in whichever cycle of
    [runPCR], after whichever phases of that cycle have returned [true],
    whichever phase [p] and regulator [call] it is -- ends the run there.
    [runPCR] sets [currCycle] to [NUM_CYCLES] and the phase to [FAULT];
    none of the phases that follow in the cycle is run, and no further
    cycle: after the regulator has returned, [runPCR] takes no sample,
    polls no button and waits no time, and all it commands is the LED of
    [FAULT] (in [pcrfv.ino]) and the fan switched on.  It returns having
    printed, last of all, a line that shows the phase [FAULT], the fault
    code of the regulator and the cycle [NUM_CYCLES + 1].  That line is
    the forced one: a call of [log] that is not forced would print
    nothing there. *)
Theorem runPCR_stops_on_fault (fuel n : nat) (s x s0 s1 : state)
  (pre rest : list (phase * prog bool)) (p : phase) (call : prog bool) :
  cycles_to fuel n (runPCR_entry s) x ->
  (n < fuel)%nat ->
  currCycle x < NUM_CYCLES ->
  phases fuel = pre ++ (p, call) :: rest ->
  passes pre x s0 ->
  (setStatus p;; call) s0 = Done false s1 ->
  let s2 := stopped s1 in
  let s3 := log_upd true (fan_on s2) in
  phase_step p call (steps rest) s0 = Done (Break tt) s2
  /\ cycle fuel x = Done (Break tt) s2
  /\ currCycle s2 = NUM_CYCLES /\ currPhase s2 = FAULT
  /\ runPCR fuel s = Done tt s3
  /\ currCycle s3 = NUM_CYCLES /\ currPhase s3 = FAULT
  /\ faultCode s3 = faultCode s1
  /\ (exists es r,
         trace s3 = trace s1 ++ es ++ [DigitalWrite FAN_PIN HIGH; LogLine r]
         /\ commands es = status_out FAULT
         /\ ll_phase r = FAULT /\ ll_fault r = faultCode s1
         /\ ll_cycle r = NUM_CYCLES + 1)
  /\ reads s3 = reads s1 /\ polls s3 = polls s1 /\ clock s3 = clock s1
  /\ log false (fan_on s2) = Done tt (fan_on s2).
Proof.
  intros Hn Hfuel Hlt Hph Hpre Hfail s2 s3.
  destruct (stopped_frame s1) as (Hc & Hp & _). fold s2 in Hc, Hp.
  assert (Hcycle : cycle fuel x = Done (Break tt) s2).
  { rewrite cycle_steps, Hph.
    exact (steps_fail pre rest p call x s0 s1 Hpre Hfail). }
  destruct (stopped_end s1) as (Hend & Hrest). fold s2 s3 in Hend, Hrest.
  split; [now apply phase_step_fails|].
  split; [exact Hcycle|]. split; [exact Hc|]. split; [exact Hp|].
  split; [|exact Hrest].
  rewrite runPCR_eq. unfold bind.
  replace fuel with (n + S (fuel - S n))%nat at 2 by lia.
  rewrite (runPCR_for_cycles fuel n _ _ Hn).
  rewrite (runPCR_for_break fuel _ x s2 Hlt Hcycle). exact Hend.
Qed.


(** A hold that returns [true] has lasted its duration, by the clock of
    the sketch. *)
Lemma holdConstantTemp_held (fuel : nat) (duration : Z) (setpoint : double)
  (s s' : state) :
  holdConstantTemp fuel duration setpoint s = Done true s' ->
  ulong duration <= phase_elapsed s'.
Proof.
  rewrite holdConstantTemp_eq. intros H.
  pose proof (holdConstantTemp_while_result fuel duration setpoint
                (holdConstantTemp_entry s)) as Hr.
  rewrite H in Hr. apply Hr.
Qed.

Lemma held_in_phase (p : phase) (fuel : nat) (duration : Z)
  (setpoint : double) (y y' : state) :
  0 <= duration < 2 ^ 32 ->
  (setStatus p;; holdConstantTemp fuel duration setpoint) y = Done true y' ->
  duration <= phase_elapsed y'.
Proof.
  intros Hd. unfold bind. rewrite setStatus_eq. intros H.
  apply holdConstantTemp_held in H. unfold ulong in H.
  rewrite Z.mod_small in H; assumption.
Qed.

(** C5.  The cycles of a run and their holds.  [runPCR] counts its cycles
    in [currCycle] from 0, one by one: after [n] cycles run to their end
    the loop is at its test with [currCycle = n], and what [runPCR] does
    is what its loop does from there.  The cycle it runs then
    is heat, hold, cool, hold, heat, hold, in which the denaturation hold
    is [holdConstantTemp] called with [INITIAL_DENATURE_TIME] in cycle 0
    and with [DENATURE_TIME] in every other cycle, and the extension hold
    is [holdConstantTemp] called with [FINAL_EXTENSION_TIME] in cycle
    [NUM_CYCLES - 1] and with [EXTENSION_TIME] in every other cycle.  A
    hold of the cycle that returns [true] has lasted that long by the
    clock of the sketch.  A cycle that runs to its end hands over to the
    next with [currCycle = n + 1]. *)
Theorem cycle_hold_durations (fuel n : nat) (s x : state) :
  cycles_to fuel n (runPCR_entry s) x ->
  currCycle x < NUM_CYCLES ->
  let i := Z.of_nat n in
  let denature := if i =? 0 then INITIAL_DENATURE_TIME else DENATURE_TIME in
  let extend :=
    if i =? NUM_CYCLES - 1 then FINAL_EXTENSION_TIME else EXTENSION_TIME in
  currCycle x = i
  /\ ((n <= fuel)%nat ->
      runPCR fuel s = (runPCR_for fuel (fuel - n);; runPCR_end) x)
  /\ cycle fuel x
     = steps
         [(HEATING, heatUp fuel DENATURE_TEMP);
          (DENATURATION, holdConstantTemp fuel denature DENATURE_TEMP);
          (COOLING, coolDown fuel ANNEALING_TEMP COOL_SAMPLE_TIME);
          (ANNEALING, holdConstantTemp fuel ANNEALING_TIME ANNEALING_TEMP);
          (HEATING, heatUp fuel EXTENSION_TEMP);
          (EXTENSION, holdConstantTemp fuel extend EXTENSION_TEMP)] x
  /\ (forall y : state,
         passes (firstn 1 (phases fuel)) x y ->
         (setStatus DENATURATION;; denaturation fuel) y
         = (setStatus DENATURATION;;
            holdConstantTemp fuel denature DENATURE_TEMP) y
         /\ forall y' : state,
             (setStatus DENATURATION;; denaturation fuel) y = Done true y' ->
             denature <= phase_elapsed y')
  /\ (forall y : state,
         passes (firstn 5 (phases fuel)) x y ->
         (setStatus EXTENSION;; extension fuel) y
         = (setStatus EXTENSION;;
            holdConstantTemp fuel extend EXTENSION_TEMP) y
         /\ forall y' : state,
             (setStatus EXTENSION;; extension fuel) y = Done true y' ->
             extend <= phase_elapsed y')
  /\ (forall x1 : state,
         cycle fuel x = Done (Continue tt) x1 ->
         let x' := set_currCycle (int16 (currCycle x1 + 1)) x1 in
         cycles_to fuel (S n) (runPCR_entry s) x'
         /\ currCycle x' = i + 1).
Proof.
  intros Hn Hlt i denature extend.
  assert (H0 : currCycle (runPCR_entry s) = 0) by (destruct s; reflexivity).
  assert (Hi : currCycle x = i).
  { rewrite (cycles_to_currCycle fuel n _ _ Hn) by lia. rewrite H0.
    reflexivity. }
  assert (Hi0 : 0 <= i) by (unfold i; lia).
  assert (Hde : denature_time i = denature) by reflexivity.
  assert (Hex : extension_time i = extend) by reflexivity.
  assert (Hbd : 0 <= denature < 2 ^ 32)
    by (unfold denature; destruct (i =? 0); vm_compute; split; congruence).
  assert (Hbe : 0 <= extend < 2 ^ 32)
    by (unfold extend; destruct (i =? NUM_CYCLES - 1); vm_compute;
        split; congruence).
  split; [exact Hi|]. split; [|split; [|split; [|split]]].
  - intros Hle. rewrite runPCR_eq. unfold bind.
    rewrite <- (runPCR_for_cycles fuel n _ _ Hn (fuel - n)).
    replace (n + (fuel - n))%nat with fuel by lia. reflexivity.
  - rewrite (proj1 (cycle_agrees fuel x ltac:(lia))), Hi. reflexivity.
  - intros y Hy.
    assert (Hcy : currCycle y = i).
    { rewrite <- Hi.
      apply (passes_currCycle _ _ _ (brings_firstn 1 fuel) Hy). }
    assert (E : (setStatus DENATURATION;; denaturation fuel) y
                = (setStatus DENATURATION;;
                   holdConstantTemp fuel denature DENATURE_TEMP) y).
    { unfold bind. rewrite setStatus_eq, denaturation_eq.
      destruct (status_upd_frame DENATURATION y) as (_ & -> & _).
      rewrite Hcy, Hde. reflexivity. }
    split; [exact E|]. rewrite E. intros y'.
    now apply held_in_phase.
  - intros y Hy.
    assert (Hcy : currCycle y = i).
    { rewrite <- Hi.
      apply (passes_currCycle _ _ _ (brings_firstn 5 fuel) Hy). }
    assert (E : (setStatus EXTENSION;; extension fuel) y
                = (setStatus EXTENSION;;
                   holdConstantTemp fuel extend EXTENSION_TEMP) y).
    { unfold bind. rewrite setStatus_eq.
      destruct (status_upd_frame EXTENSION y) as (_ & Hc & _).
      rewrite extension_eq by (rewrite Hc; lia).
      rewrite Hc, Hcy, Hex. reflexivity. }
    split; [exact E|]. rewrite E. intros y'.
    now apply held_in_phase.
  - intros x1 Hx1 x'.
    pose proof (cycle_count fuel x) as Hs. rewrite Hx1 in Hs. cbn in Hs.
    split.
    + clear - Hn Hlt Hx1. revert Hlt Hx1.
      induction Hn as [a|m a a1 b Hlt' Hc Hm IH]; intros Hlt Hx1.
      * econstructor; [exact Hlt | exact Hx1 | constructor].
      * econstructor; [exact Hlt' | exact Hc | now apply IH].
    + unfold x'. destruct x1. cbn [currCycle set_currCycle] in *.
      rewrite Hs, Hi. apply int16_next. lia.
Qed.


(** * Fault code and phase, regulator by regulator *)

Lemma brings_currPhase (m : prog bool) :
  brings m ->
  forall x r x', m x = Done r x' -> currPhase x' = currPhase x.
Proof.
  intros Hm x r x' H. specialize (Hm x). rewrite H in Hm.
  destruct Hm as [[_ Hp _ _] _]. exact Hp.
Qed.

Lemma heatUp_false (fuel : nat) (setpoint : double) (x x' : state) :
  heatUp fuel setpoint x = Done false x' ->
  heatUp_result setpoint (faultCode x) false x'.
Proof.
  rewrite heatUp_eq. cbv zeta. rewrite <- (faultCode_heatUp_entry x).
  destruct (dlt _ ROOM_TEMP).
  { intros H. injection H as <-. right. left.
    apply faultCode_set_faultCode. }
  destruct (dgt _ setpoint).
  { intros H. injection H as <-. right. right. left.
    apply faultCode_set_faultCode. }
  intros H.
  pose proof (heatUp_while_result fuel fuel setpoint 0 (heatUp_entry x))
    as Hw.
  rewrite H in Hw. exact Hw.
Qed.

Lemma coolDown_false (fuel : nat) (setpoint : double) (maxTimeout : Z)
  (x x' : state) :
  coolDown fuel setpoint maxTimeout x = Done false x' ->
  faultCode x' = "1"%char.
Proof.
  intros H. apply coolDown_done in H. destruct H as (x1 & Hw & ->).
  pose proof (coolDown_while_result fuel setpoint maxTimeout
                (coolDown_entry x)) as Hr.
  rewrite Hw in Hr. cbn [post] in Hr.
  destruct (fan_off_globals x1) as [_ ->]. exact Hr.
Qed.

Lemma holdConstantTemp_false (fuel : nat) (duration : Z)
  (setpoint : double) (x x' : state) :
  holdConstantTemp fuel duration setpoint x = Done false x' ->
  faultCode x' = "1"%char.
Proof.
  rewrite holdConstantTemp_eq. intros H.
  pose proof (holdConstantTemp_while_result fuel duration setpoint
                (holdConstantTemp_entry x)) as Hr.
  rewrite H in Hr. apply Hr.
Qed.

(** C6, as the code has it.  Every line that [runPCR] prints shows the
    fault code '0' unless it shows the phase [FAULT] -- along the whole
    run, also one that never ends; [runPCR] returns in the phase [FAULT],
    or in [IDLE] with the fault code '0'.  A regulator that returns
    [true] to [runPCR] returns with the fault code '0' in the phase it was
    called in.  A regulator that returns [false] returns in the phase it
    was called in too, [runPCR] setting [FAULT] only then: [coolDown] and
    [holdConstantTemp] have set the fault code '1'; [heatUp] has set '1',
    '2', '3' or '4', or has left the fault code as it was, the test
    [currTemp < setpoint] of its loop being false. *)
Theorem fault_code_none_outside_fault (fuel : nat) (s : state) :
  lines_ok (trace s) ->
  lines_ok (trace (final (runPCR fuel s)))
  /\ (forall s', runPCR fuel s = Done tt s' ->
                 currPhase s' = FAULT
                 \/ currPhase s' = IDLE /\ faultCode s' = "0"%char)
  /\ (forall setpoint, returns_clean (heatUp fuel setpoint))
  /\ (forall setpoint maxTimeout,
         returns_clean (coolDown fuel setpoint maxTimeout))
  /\ (forall duration setpoint,
         returns_clean (holdConstantTemp fuel duration setpoint))
  /\ (forall setpoint x x',
         heatUp fuel setpoint x = Done false x' ->
         currPhase x' = currPhase x
         /\ (faultCode x' = "1"%char \/ faultCode x' = "2"%char
             \/ faultCode x' = "3"%char \/ faultCode x' = "4"%char
             \/ faultCode x' = faultCode x
                /\ dlt (currTemp x') setpoint = false))
  /\ (forall setpoint maxTimeout x x',
         coolDown fuel setpoint maxTimeout x = Done false x' ->
         currPhase x' = currPhase x /\ faultCode x' = "1"%char)
  /\ (forall duration setpoint x x',
         holdConstantTemp fuel duration setpoint x = Done false x' ->
         currPhase x' = currPhase x /\ faultCode x' = "1"%char).
Proof.
  intros Hl.
  destruct (runPCR_lines fuel s Hl) as (H1 & H2 & H3 & H4 & H5).
  split; [exact H1|]. split; [exact H2|]. split; [exact H3|].
  split; [exact H4|]. split; [exact H5|]. split; [|split].
  - intros setpoint x x' H. split.
    + exact (brings_currPhase _ (brings_heatUp fuel setpoint) _ _ _ H).
    + exact (heatUp_false fuel setpoint x x' H).
  - intros setpoint maxTimeout x x' H. split.
    + exact (brings_currPhase _ (brings_coolDown fuel setpoint maxTimeout)
               _ _ _ H).
    + exact (coolDown_false fuel setpoint maxTimeout x x' H).
  - intros duration setpoint x x' H. split.
    + exact (brings_currPhase _
               (brings_holdConstantTemp fuel duration setpoint) _ _ _ H).
    + exact (holdConstantTemp_false fuel duration setpoint x x' H).
Qed.

End Sketch.

(** * Runs on a bench

    The globals as they are when the sketch starts (zero, [faultCode] '0'),
    the outputs low and nothing commanded yet; a chamber at a fixed
    temperature; the start/stop button released (the pin is pulled up). *)

Definition power_up : state :=
  {| currInButton := LOW; prevInButton := LOW;
     startCycleTime := 0; startPhaseTime := 0; timeCounter := 0;
     currCycle := 0; currPhase := IDLE;
     currTemp := 0%Q; prevTemp := 0%Q; faultCode := "0"%char;
     clock := 0; pins := fun _ => LOW; reads := 0; polls := 0;
     trace := [] |}.

Definition chamber_at (t : double) : nat -> double := fun _ => t.

Definition released : nat -> level := fun _ => HIGH.

(** A chamber that heats from 60 degrees: 62, 65, then 95 at once. *)
Definition chamber_jumps : nat -> double :=
  fun n => match n with
           | O => 60%Q
           | 1%nat => 62%Q
           | 2%nat => 65%Q
           | _ => 95%Q
           end.

(** ** heatUp returning [false] without a fault code *)

(** C3.  [heatUp(DENATURE_TEMP)] called with the chamber exactly at 94
    degrees returns [false] and leaves the fault code at '0', the value
    [runPCR] gave it: neither entry check fires, the rise ramp is not
    entered, and the initial [ris=false] is returned.  [runPCR] then stops
    the run in the phase [FAULT] with the fault code '0', and says so in
    its last line.  The same happens when the guards that close a turn of
    the ramp resample at or above the setpoint ([chamber_jumps]). *)
Theorem heatUp_false_without_fault_code :
  (exists s',
      heatUp pcrssv (chamber_at 94%Q) released 5 DENATURE_TEMP power_up
      = Done false s'
      /\ faultCode s' = "0"%char)
  /\ (exists s' l r,
         runPCR pcrssv (chamber_at 94%Q) released 5 power_up = Done tt s'
         /\ currPhase s' = FAULT
         /\ faultCode s' = "0"%char
         /\ trace s' = l ++ [LogLine r]
         /\ ll_phase r = FAULT
         /\ ll_fault r = "0"%char)
  /\ (exists s',
         heatUp pcrssv chamber_jumps released 5 DENATURE_TEMP power_up
         = Done false s'
         /\ faultCode s' = "0"%char).
Proof.
  split; [|split].
  - eexists. split; vm_compute; reflexivity.
  - eexists. exists [DigitalWrite FAN_PIN LOW; DigitalWrite FAN_PIN HIGH].
    eexists. split; [vm_compute; reflexivity|].
    repeat split.
  - eexists. split; vm_compute; reflexivity.
Qed.

(** ** The entry checks of heatUp on the bench *)

(** A chamber at 10 degrees: the sensor is taken for broken. *)
Lemma heatUp_sensor_failure_cold :
  (chamber_at 10%Q (reads power_up) < ROOM_TEMP)%Q
  /\ exists s' evs,
      heatUp pcrssv (chamber_at 10%Q) released 0 DENATURE_TEMP power_up
      = Done false s'
      /\ faultCode s' = "2"%char
      /\ trace s' = trace power_up ++ evs
      /\ commands evs = [DigitalWrite FAN_PIN LOW]
      /\ heater_untouched evs
      /\ pins s' HEAT_PIN = pins power_up HEAT_PIN.
Proof.
  split; [reflexivity|].
  apply (heatUp_sensor_failure pcrssv (chamber_at 10%Q) released 0
           DENATURE_TEMP power_up).
  reflexivity.
Defined.

(** A chamber at 95 degrees when 94 are asked for. *)
Lemma heatUp_entry_above_setpoint_hot :
  (ROOM_TEMP <= chamber_at 95%Q (reads power_up))%Q
  /\ (DENATURE_TEMP < chamber_at 95%Q (reads power_up))%Q
  /\ exists s' evs,
      heatUp pcrfv (chamber_at 95%Q) released 0 DENATURE_TEMP power_up
      = Done false s'
      /\ faultCode s' = "3"%char
      /\ trace s' = trace power_up ++ evs
      /\ commands evs = [DigitalWrite FAN_PIN LOW]
      /\ heater_untouched evs
      /\ pins s' HEAT_PIN = pins power_up HEAT_PIN.
Proof.
  split; [discriminate|]. split; [reflexivity|].
  apply (heatUp_entry_above_setpoint pcrfv (chamber_at 95%Q) released 0
           DENATURE_TEMP power_up).
  - discriminate.
  - reflexivity.
Defined.

(** ** A run stopped by its first phase *)

(** With the chamber at 10 degrees the first [heatUp] fails. *)
Definition first_heatUp_failed : state :=
  final ((setStatus pcrssv HEATING;;
          heatUp pcrssv (chamber_at 10%Q) released 5 DENATURE_TEMP)%prog
           (runPCR_entry power_up)).

(** The whole run on that bench: no heater pulse, fault code '2', phase
    [FAULT], cycle index [NUM_CYCLES]. *)
Example runPCR_cold_chamber :
  exists s' r,
    runPCR pcrssv (chamber_at 10%Q) released 5 power_up = Done tt s'
    /\ currCycle s' = NUM_CYCLES
    /\ currPhase s' = FAULT
    /\ faultCode s' = "2"%char
    /\ trace s' = [DigitalWrite FAN_PIN LOW; DigitalWrite FAN_PIN HIGH;
                   LogLine r]
    /\ ll_phase r = FAULT /\ ll_fault r = "2"%char.
Proof.
  do 2 eexists. split; [vm_compute; reflexivity|]. repeat split.
Qed.

(** ** Fault code and phase on the bench *)

(** The fault code is '0' while the phase is not [FAULT], and other than
    '0' exactly in the phase [FAULT]. *)
Definition fault_code_matches_phase (s : state) : Prop :=
  (currPhase s <> FAULT -> faultCode s = "0"%char)
  /\ (faultCode s <> "0"%char <-> currPhase s = FAULT).

(** C6 as it is written does not hold where a regulator returns to
    [runPCR] with a fault: [heatUp] has set the fault code '2' and the
    phase is still [HEATING]. *)
Lemma fault_code_set_before_phase :
  faultCode first_heatUp_failed = "2"%char
  /\ currPhase first_heatUp_failed = HEATING
  /\ ~ fault_code_matches_phase first_heatUp_failed.
Proof.
  split; [reflexivity|]. split; [reflexivity|].
  intros [H _]. assert (E : faultCode first_heatUp_failed = "0"%char).
  { apply H. discriminate. }
  discriminate E.
Qed.

(** ** The heating pulse at 94 degrees *)

Lemma pulseDuration_bounded_monotone_94 :
  (90 <= 375 # 4)%Q /\ (375 # 4 < DENATURE_TEMP)%Q
  /\ MIN_PULSE_DURATION <= pulseDuration DENATURE_TEMP (375 # 4)
  /\ pulseDuration DENATURE_TEMP (375 # 4) <= pulseDuration DENATURE_TEMP 90%Q
  /\ pulseDuration DENATURE_TEMP 90%Q <= MAX_PULSE_DURATION.
Proof.
  assert (H1 : (90 <= 375 # 4)%Q) by discriminate.
  assert (H2 : (375 # 4 < DENATURE_TEMP)%Q) by reflexivity.
  assert (H3 : (90 < DENATURE_TEMP)%Q) by reflexivity.
  destruct (pulseDuration_bounded_monotone pcrssv (chamber_at 90%Q) released
              DENATURE_TEMP) as (Hb & Hm & _).
  split; [exact H1|]. split; [exact H2|].
  split; [exact (proj1 (Hb (375 # 4)%Q H2))|].
  split; [exact (Hm 90%Q (375 # 4)%Q H1 H2)|].
  exact (proj2 (Hb 90%Q H3)).
Defined.

(** ** A dead-band turn of the hold loop in the two sketches *)

(** The commands of one turn of the hold loop at 60 degrees, the chamber
    being at 60 degrees. *)
Definition dead_band_turn (v : sketch) : list event :=
  commands
    (trace (final (holdConstantTemp_body v (chamber_at 60%Q) released
                     ANNEALING_TEMP power_up))).

(** C8 as it is written fails for [pcrfv.ino]: its dead-band turn does not
    wait [HOLD_PULSE_DURATION] before the pause. *)
Lemma dead_band_turn_pcrfv :
  (ANNEALING_TEMP <= chamber_at 60%Q (reads power_up))%Q
  /\ (chamber_at 60%Q (reads power_up)
      <= ANNEALING_TEMP + SETPOINT_THRESHOLD_TEMP)%Q
  /\ dead_band_turn pcrfv = [Delay (HOLD_PAUSE_DURATION pcrfv)]
  /\ dead_band_turn pcrfv
     <> [Delay (HOLD_PULSE_DURATION pcrfv); Delay (HOLD_PAUSE_DURATION pcrfv)].
Proof.
  split; [discriminate|]. split; [discriminate|].
  split; [vm_compute; reflexivity|].
  vm_compute. discriminate.
Qed.

Lemma holdConstantTemp_turn_bench :
  exists r s' evs,
    holdConstantTemp_body pcrssv (chamber_at 60%Q) released ANNEALING_TEMP
      power_up = Done r s'
    /\ trace s' = trace power_up ++ evs
    /\ commands evs
       = [Delay (HOLD_PULSE_DURATION pcrssv);
          Delay (HOLD_PAUSE_DURATION pcrssv)].
Proof.
  destruct (holdConstantTemp_turn pcrssv (chamber_at 60%Q) released
              ANNEALING_TEMP power_up)
    as (r & s' & evs & Hrun & Htr & _ & _ & H).
  exists r, s', evs. split; [exact Hrun|]. split; [exact Htr|].
  destruct (H eq_refl) as (_ & _ & _ & Hdead).
  apply Hdead; discriminate.
Defined.

(** ** The logger on the bench *)

Lemma log_rate_limited_bench :
  timeCounter (final (log pcrssv true power_up)) = seconds power_up
  /\ final (log pcrssv false power_up) = power_up.
Proof.
  destruct (log_rate_limited pcrssv false power_up)
    as (_ & _ & _ & _ & Hforced & Hsame).
  split; [exact Hforced|].
  apply Hsame; [reflexivity|]. rewrite Hforced. reflexivity.
Defined.

(** ** coolDown on the bench *)

Lemma coolDown_fan_bench :
  (chamber_at 60%Q (reads power_up) <= ANNEALING_TEMP + FAN_THRESHOLD_TEMP)%Q
  /\ exists s' evs,
      coolDown pcrssv (chamber_at 60%Q) released 0 ANNEALING_TEMP
        COOL_SAMPLE_TIME power_up = Done true s'
      /\ trace s' = trace power_up ++ evs
      /\ commands evs = [DigitalWrite FAN_PIN LOW]
      /\ polls s' = polls power_up
      /\ faultCode s' = faultCode power_up
      /\ pins s' FAN_PIN = LOW.
Proof.
  assert (H : (chamber_at 60%Q (reads power_up)
               <= ANNEALING_TEMP + FAN_THRESHOLD_TEMP)%Q) by discriminate.
  split; [exact H|].
  exact (proj1 (coolDown_fan pcrssv (chamber_at 60%Q) released 0
                  ANNEALING_TEMP COOL_SAMPLE_TIME power_up) H).
Defined.

(** * Further properties on the bench *)

(** The button held down, seen by a sketch that last read it released. *)
Definition pushed : nat -> level := fun _ => LOW.

Definition armed : state := set_prevInButton HIGH power_up.

(** A chamber found at 60 degrees that is at 95 after the first pulse. *)
Definition chamber_steps : nat -> double :=
  fun n => match n with
           | O => 60%Q
           | _ => 95%Q
           end.

(** Nothing on the console; an 's' on the console. *)
Definition silent : nat -> option ascii := fun _ => None.

Definition start_sent : nat -> option ascii := fun _ => Some "s"%char.

(** ** buttonPressed *)

Lemma buttonPressed_edge_armed :
  exists s1,
    buttonPressed pushed armed = Done true s1
    /\ prevInButton s1 = LOW
    /\ pressed pushed s1 = false.
Proof.
  destruct (buttonPressed_edge pushed armed)
    as (s1 & H1 & _ & H2 & _ & _ & H3).
  exists s1. split; [exact H1|]. split; [exact H2|].
  apply H3. reflexivity.
Defined.

(** ** The regulators *)

Definition heated : state :=
  final (heatUp pcrssv chamber_steps released 5 DENATURE_TEMP power_up).

Lemma heatUp_returns_steps :
  heatUp pcrssv chamber_steps released 5 DENATURE_TEMP power_up
  = Done true heated
  /\ (DENATURE_TEMP <= currTemp heated)%Q
  /\ faultCode heated = "0"%char.
Proof.
  assert (H : heatUp pcrssv chamber_steps released 5 DENATURE_TEMP power_up
              = Done true heated) by (vm_compute; reflexivity).
  split; [exact H|].
  exact (heatUp_returns pcrssv chamber_steps released 5 DENATURE_TEMP
           power_up true heated H).
Defined.

(** A chamber at 75 degrees that is at 60 after one run of the fan. *)
Definition chamber_cools : nat -> double :=
  fun n => match n with
           | O => 75%Q
           | _ => 60%Q
           end.

Definition cooled : state :=
  final (coolDown pcrssv chamber_cools released 5 ANNEALING_TEMP
           COOL_SAMPLE_TIME power_up).

Lemma coolDown_returns_cools :
  coolDown pcrssv chamber_cools released 5 ANNEALING_TEMP COOL_SAMPLE_TIME
    power_up = Done true cooled
  /\ dgt (currTemp cooled) (ANNEALING_TEMP + FAN_THRESHOLD_TEMP)%Q = false
  /\ faultCode cooled = faultCode power_up.
Proof.
  assert (H : coolDown pcrssv chamber_cools released 5 ANNEALING_TEMP
                COOL_SAMPLE_TIME power_up = Done true cooled)
    by (vm_compute; reflexivity).
  split; [exact H|].
  exact (coolDown_returns pcrssv chamber_cools released 5 ANNEALING_TEMP
           COOL_SAMPLE_TIME power_up true cooled H).
Defined.

Definition held : state :=
  final (holdConstantTemp pcrssv (chamber_at 94%Q) released 5 1000
           DENATURE_TEMP power_up).

Lemma holdConstantTemp_returns_second :
  holdConstantTemp pcrssv (chamber_at 94%Q) released 5 1000 DENATURE_TEMP
    power_up = Done true held
  /\ startPhaseTime held = ulong (clock power_up)
  /\ ulong 1000 <= usub (ulong (clock held)) (startPhaseTime held)
  /\ faultCode held = faultCode power_up.
Proof.
  assert (H : holdConstantTemp pcrssv (chamber_at 94%Q) released 5 1000
                DENATURE_TEMP power_up = Done true held)
    by (vm_compute; reflexivity).
  split; [exact H|].
  exact (holdConstantTemp_returns pcrssv (chamber_at 94%Q) released 5 1000
           DENATURE_TEMP power_up true held H).
Defined.

(** A hold of one second takes five turns at most. *)
Lemma holdConstantTemp_lasts_second :
  0 <= clock power_up
  /\ clock power_up + ulong 1000 + 300 <= 2 ^ 32
  /\ ulong 1000 <= 210 * Z.of_nat 5
  /\ exists ris s',
      holdConstantTemp pcrfv (chamber_at 94%Q) released 5 1000 DENATURE_TEMP
        power_up = Done ris s'
      /\ clock power_up <= clock s' < clock power_up + ulong 1000 + 300
      /\ (ris = true -> clock power_up + ulong 1000 <= clock s').
Proof.
  assert (H1 : 0 <= clock power_up) by (vm_compute; discriminate).
  assert (H2 : clock power_up + ulong 1000 + 300 <= 2 ^ 32)
    by (vm_compute; discriminate).
  assert (H3 : ulong 1000 <= 210 * Z.of_nat 5) by (vm_compute; discriminate).
  split; [exact H1|]. split; [exact H2|]. split; [exact H3|].
  exact (holdConstantTemp_lasts pcrfv (chamber_at 94%Q) released 5 1000
           DENATURE_TEMP power_up H1 H2 H3).
Defined.

(** The rig refuses the heater switched on while the fan runs, and a
    pulse of more than [MAX_PULSE_DURATION] milliseconds. *)
Example watch_refuses :
  watch (Off, HIGH) [DigitalWrite HEAT_PIN HIGH] = None
  /\ watch (Off, LOW) [DigitalWrite HEAT_PIN HIGH; DigitalWrite FAN_PIN HIGH]
     = None
  /\ watch (Off, LOW) [DigitalWrite HEAT_PIN HIGH; Delay 651] = None
  /\ watch (Off, LOW) [DigitalWrite HEAT_PIN HIGH; Delay 400; Delay 400]
     = None
  /\ watch (Off, LOW)
       [DigitalWrite HEAT_PIN HIGH; Delay 650; DigitalWrite HEAT_PIN LOW;
        DigitalWrite FAN_PIN HIGH; Delay 5000]
     = Some (Off, HIGH).
Proof. repeat split. Qed.

(** ** The log on the bench *)

(** One hour, two minutes and five seconds into a run, 65 seconds into a
    phase. *)
Definition in_a_run : state :=
  set_startPhaseTime 3660000 (set_clock 3725000 power_up).

Definition line_pcrssv : logline := log_line pcrssv in_a_run.

Definition line_pcrfv : logline := log_line pcrfv in_a_run.

(** [pcrssv.ino] prints 01:02:05 and 01:05; [pcrfv.ino], whose phase field
    repeats the minutes and seconds of the run, 01:02:05 and 02:05. *)
Lemma log_line_times_in_a_run :
  (trace (final (log pcrssv true in_a_run))
   = trace in_a_run ++ [LogLine line_pcrssv]
   /\ ll_h line_pcrssv * 3600 + ll_m line_pcrssv * 60 + ll_s line_pcrssv
      = 3725
   /\ 0 <= ll_h line_pcrssv
   /\ 0 <= ll_m line_pcrssv < 60 /\ 0 <= ll_s line_pcrssv < 60
   /\ ll_pm line_pcrssv * 60 + ll_ps line_pcrssv = 65
   /\ 0 <= ll_pm line_pcrssv < 60 /\ 0 <= ll_ps line_pcrssv < 60)
  /\ (trace (final (log pcrfv true in_a_run))
      = trace in_a_run ++ [LogLine line_pcrfv]
      /\ ll_h line_pcrfv * 3600 + ll_m line_pcrfv * 60 + ll_s line_pcrfv
         = 3725
      /\ 0 <= ll_h line_pcrfv
      /\ 0 <= ll_m line_pcrfv < 60 /\ 0 <= ll_s line_pcrfv < 60
      /\ ll_pm line_pcrfv = ll_m line_pcrfv
      /\ ll_ps line_pcrfv = ll_s line_pcrfv).
Proof.
  assert (H : trace (final (log pcrssv true in_a_run))
              = trace in_a_run ++ [LogLine line_pcrssv])
    by (vm_compute; reflexivity).
  assert (H' : trace (final (log pcrfv true in_a_run))
               = trace in_a_run ++ [LogLine line_pcrfv])
    by (vm_compute; reflexivity).
  split; (split; [eassumption|]).
  - exact (log_line_times pcrssv true in_a_run line_pcrssv H).
  - exact (log_line_times pcrfv true in_a_run line_pcrfv H').
Defined.

(** A sample of 94.25 degrees. *)
Definition sampled : state := set_currTemp (377 # 4)%Q power_up.

Lemma log_line_temperature_sampled :
  ll_iPart (log_line pcrssv sampled) = 94
  /\ ll_dPart (log_line pcrssv sampled) = 25.
Proof.
  assert (H : trace (final (log pcrssv true sampled))
              = trace sampled ++ [LogLine (log_line pcrssv sampled)])
    by (vm_compute; reflexivity).
  assert (Hk : 0 <= 377 < 4 * 2 ^ 15) by lia.
  assert (Hq : (currTemp sampled == 377 # 4)%Q) by reflexivity.
  destruct (log_line_temperature pcrssv true sampled
              (log_line pcrssv sampled) 377 H Hk Hq) as (H1 & H2 & _).
  split; [exact H1 | exact H2].
Defined.

(** ** A turn of the rise ramp on the bench *)

(** At 60 degrees, the next sample 62. *)
Definition at_60 : state := set_prevTemp 60%Q (set_currTemp 60%Q power_up).

Definition turned : state :=
  final (heatUp_body pcrssv (chamber_at 62%Q) released 5 DENATURE_TEMP 0
           at_60).

Lemma heatUp_turn_below_ceiling_at_60 :
  heatUp_body pcrssv (chamber_at 62%Q) released 5 DENATURE_TEMP 0 at_60
  = Done (Continue 1) turned
  /\ 1 = int16 (0 + 1) /\ dge (currTemp turned) MAX_ALLOWED_TEMP = false.
Proof.
  assert (H : heatUp_body pcrssv (chamber_at 62%Q) released 5 DENATURE_TEMP
                0 at_60 = Done (Continue 1) turned)
    by (vm_compute; reflexivity).
  split; [exact H|].
  exact (heatUp_turn_below_ceiling pcrssv (chamber_at 62%Q) released 5
           DENATURE_TEMP 0 1 at_60 turned H).
Defined.

(** ** setup and loop on the bench *)

Lemma setup_loop_rest_bench :
  resting power_up
  /\ post (loop pcrssv (chamber_at 10%Q) released start_sent 5 0 0 power_up)
          (fun _ s' =>
             resting s'
             /\ exists es f', trace s' = trace power_up ++ es
                              /\ watch (Off, LOW) es = Some (Off, f'))
          (fun s' =>
             exists es r', trace s' = trace power_up ++ es
                           /\ watch (Off, LOW) es = Some r').
Proof.
  assert (H : resting power_up) by (left; reflexivity).
  split; [exact H|].
  exact (proj2 (setup_loop_rest pcrssv (chamber_at 10%Q) released start_sent)
           5%nat 0%nat 0 power_up LOW H).
Defined.

(** Nothing asked: [pcrssv.ino] takes no sample; [pcrfv.ino], 1500 ms
    after power-up, takes one. *)
Lemma loop_without_request_bench :
  pressed released power_up = false
  /\ start_command silent 0 = false
  /\ (exists u' s',
         loop pcrssv (chamber_at 20%Q) released silent 5 0 0 power_up
         = Done u' s'
         /\ trace s' = trace power_up /\ reads s' = reads power_up)
  /\ (exists u' s',
         loop pcrfv (chamber_at 20%Q) released silent 5 0 0
           (set_clock 1500 power_up) = Done u' s'
         /\ trace s' = trace power_up
         /\ u' = 1500 /\ reads s' = 1%nat /\ currTemp s' = 20%Q).
Proof.
  assert (H1 : pressed released power_up = false) by reflexivity.
  assert (H2 : start_command silent 0 = false) by reflexivity.
  split; [exact H1|]. split; [exact H2|]. split.
  - destruct (loop_without_request pcrssv (chamber_at 20%Q) released silent
                5 0 0 power_up H1 (fun _ => H2))
      as (u' & s' & E & Ht & _ & _ & _ & _ & _ & _ & Hr & _).
    exists u', s'. split; [exact E|]. split; [exact Ht | exact Hr].
  - destruct (loop_without_request pcrfv (chamber_at 20%Q) released silent
                5 0 0 (set_clock 1500 power_up) H1 (fun _ => H2))
      as (u' & s' & E & Ht & _ & _ & _ & _ & _ & Hu & Hr & Hc).
    exists u', s'. split; [exact E|]. split; [exact Ht|].
    split; [exact Hu|]. split; [exact Hr | exact Hc].
Defined.

Lemma loop_serial_start_bench :
  resting power_up
  /\ loop pcrssv (chamber_at 10%Q) released start_sent 5 0 0 power_up
     = (b <- buttonPressed released;;
        when b (runPCR pcrssv (chamber_at 10%Q) released 5);;
        when (start_command start_sent 0)
          (runPCR pcrssv (chamber_at 10%Q) released 5);;
        ret 0)%prog power_up.
Proof.
  assert (H : resting power_up) by (left; reflexivity).
  split; [exact H|].
  exact (loop_serial_start pcrssv (chamber_at 10%Q) released start_sent
           5 0 0 power_up eq_refl H).
Defined.

(** ** The end of a run on the bench *)

Definition run_cold : state :=
  final (runPCR pcrssv (chamber_at 10%Q) released 5 power_up).

Lemma runPCR_returns_cold :
  runPCR pcrssv (chamber_at 10%Q) released 5 power_up = Done tt run_cold
  /\ currCycle run_cold = NUM_CYCLES
  /\ (currPhase run_cold = IDLE \/ currPhase run_cold = FAULT)
  /\ exists l r,
      trace run_cold = l ++ [LogLine r]
      /\ ll_cycle r = NUM_CYCLES + 1
      /\ ll_phase r = currPhase run_cold
      /\ ll_fault r = faultCode run_cold.
Proof.
  assert (H : runPCR pcrssv (chamber_at 10%Q) released 5 power_up
              = Done tt run_cold) by (vm_compute; reflexivity).
  split; [exact H|].
  exact (runPCR_returns pcrssv (chamber_at 10%Q) released 5 power_up
           run_cold H).
Defined.

(** ** The LED on the bench *)

Definition set_up : state := final (setup pcrfv power_up).

Lemma led_shows_phase_bench :
  (pins set_up RED_PIN, pins set_up GREEN_PIN, pins set_up BLUE_PIN)
  = rgb (currPhase set_up)
  /\ post (loop pcrfv (chamber_at 10%Q) pushed silent 5 0 0 set_up)
          (fun _ s' =>
             (pins s' RED_PIN, pins s' GREEN_PIN, pins s' BLUE_PIN)
             = rgb (currPhase s'))
          (fun s' =>
             (pins s' RED_PIN, pins s' GREEN_PIN, pins s' BLUE_PIN)
             = rgb (currPhase s')).
Proof.
  assert (H : (pins set_up RED_PIN, pins set_up GREEN_PIN,
               pins set_up BLUE_PIN) = rgb (currPhase set_up))
    by reflexivity.
  split; [exact H|].
  exact (proj2 (proj2 (led_shows_phase pcrfv (chamber_at 10%Q) pushed silent
                         eq_refl))
           5%nat 0%nat 0 set_up H).
Defined.

(** ** The stop button on the bench *)

Lemma stop_button_stops_armed :
  pressed pushed armed = true
  /\ exists s',
      holdConstantTemp_while pcrssv (chamber_at 94%Q) pushed 1 1000
        DENATURE_TEMP 0 true armed = Done false s'
      /\ faultCode s' = "1"%char /\ trace s' = trace armed.
Proof.
  assert (H : pressed pushed armed = true) by reflexivity.
  split; [exact H|].
  destruct (stop_button_stops pcrssv (chamber_at 94%Q) pushed armed H)
    as (_ & Hh & _).
  destruct (Hh 0%nat 1000 DENATURE_TEMP 0 true) as (s' & E & Hf & Ht & _).
  { reflexivity. }
  exists s'. split; [exact E|]. split; [exact Hf | exact Ht].
Defined.

(** ** A rise ramp given up on the bench *)

(** At 80 degrees on the second turn of the ramp, the next sample 70. *)
Definition at_80 : state := set_prevTemp 80%Q (set_currTemp 80%Q power_up).

Definition fallen : state :=
  final (heatUp_body pcrssv (chamber_at 70%Q) released 5 DENATURE_TEMP 1
           at_80).

Lemma heatUp_turn_gives_up_at_80 :
  heatUp_body pcrssv (chamber_at 70%Q) released 5 DENATURE_TEMP 1 at_80
  = Done (Break false) fallen
  /\ faultCode fallen = "4"%char
  /\ (currTemp fallen < prevTemp fallen - STABILITY_THRESHOLD_TEMP)%Q.
Proof.
  assert (H : heatUp_body pcrssv (chamber_at 70%Q) released 5 DENATURE_TEMP
                1 at_80 = Done (Break false) fallen)
    by (vm_compute; reflexivity).
  split; [exact H|].
  destruct (heatUp_turn_gives_up pcrssv (chamber_at 70%Q) released 5
              DENATURE_TEMP 1 at_80 fallen H)
    as [(Hp & _)|(_ & Hf & _ & Hd & _)].
  - discriminate Hp.
  - split; [exact Hf | exact Hd].
Defined.

(** * A run on the bench, cycle by cycle *)

(** ** A run stopped in its second phase *)

(** A chamber at 60 degrees that is at 80 after one pulse and at 94 after
    two; the button pressed when it is polled for the tenth time. *)
Definition chamber_rises : nat -> double :=
  fun n => match n with
           | O => 60%Q
           | 1%nat => 80%Q
           | _ => 94%Q
           end.

Definition stop_at (k : nat) : nat -> level :=
  fun n => if Nat.ltb n k then HIGH else LOW.

(** The first [heatUp] has returned [true]; the denaturation hold has
    been stopped; the run has ended. *)
Definition risen : state :=
  final ((setStatus pcrssv HEATING;;
          heatUp pcrssv chamber_rises (stop_at 9) 20 DENATURE_TEMP)%prog
           (runPCR_entry power_up)).

Definition hold_stopped : state :=
  final ((setStatus pcrssv DENATURATION;;
          denaturation pcrssv chamber_rises (stop_at 9) 20)%prog risen).

Definition handled : state := stopped pcrssv hold_stopped.

Definition ended : state := log_upd pcrssv true (fan_on handled).

Lemma runPCR_stops_on_fault_stopped :
  passes pcrssv
    [(HEATING, heatUp pcrssv chamber_rises (stop_at 9) 20 DENATURE_TEMP)]
    (runPCR_entry power_up) risen
  /\ (setStatus pcrssv DENATURATION;;
      denaturation pcrssv chamber_rises (stop_at 9) 20)%prog risen
     = Done false hold_stopped
  /\ phase_step pcrssv DENATURATION
       (denaturation pcrssv chamber_rises (stop_at 9) 20)
       (steps pcrssv
          [(COOLING,
            coolDown pcrssv chamber_rises (stop_at 9) 20 ANNEALING_TEMP
              COOL_SAMPLE_TIME);
           (ANNEALING,
            holdConstantTemp pcrssv chamber_rises (stop_at 9) 20
              ANNEALING_TIME ANNEALING_TEMP);
           (HEATING,
            heatUp pcrssv chamber_rises (stop_at 9) 20 EXTENSION_TEMP);
           (EXTENSION, extension pcrssv chamber_rises (stop_at 9) 20)])
       risen = Done (Break tt) handled
  /\ cycle pcrssv chamber_rises (stop_at 9) 20 (runPCR_entry power_up)
     = Done (Break tt) handled
  /\ currCycle handled = NUM_CYCLES /\ currPhase handled = FAULT
  /\ runPCR pcrssv chamber_rises (stop_at 9) 20 power_up = Done tt ended
  /\ currCycle ended = NUM_CYCLES /\ currPhase ended = FAULT
  /\ faultCode ended = faultCode hold_stopped
  /\ (exists es r,
         trace ended
         = trace hold_stopped ++ es ++ [DigitalWrite FAN_PIN HIGH; LogLine r]
         /\ commands es = status_out pcrssv FAULT
         /\ ll_phase r = FAULT /\ ll_fault r = faultCode hold_stopped
         /\ ll_cycle r = NUM_CYCLES + 1)
  /\ reads ended = reads hold_stopped /\ polls ended = polls hold_stopped
  /\ clock ended = clock hold_stopped
  /\ log pcrssv false (fan_on handled) = Done tt (fan_on handled).
Proof.
  assert (H1 : (setStatus pcrssv HEATING;;
                heatUp pcrssv chamber_rises (stop_at 9) 20 DENATURE_TEMP)%prog
                 (runPCR_entry power_up) = Done true risen)
    by (vm_compute; reflexivity).
  assert (Hp : passes pcrssv
                 [(HEATING,
                   heatUp pcrssv chamber_rises (stop_at 9) 20 DENATURE_TEMP)]
                 (runPCR_entry power_up) risen)
    by (econstructor; [exact H1 | constructor]).
  assert (Hf : (setStatus pcrssv DENATURATION;;
                denaturation pcrssv chamber_rises (stop_at 9) 20)%prog risen
               = Done false hold_stopped)
    by (vm_compute; reflexivity).
  assert (Hlt : currCycle (runPCR_entry power_up) < NUM_CYCLES)
    by reflexivity.
  split; [exact Hp|]. split; [exact Hf|].
  exact (runPCR_stops_on_fault pcrssv chamber_rises (stop_at 9) 20 0
           power_up (runPCR_entry power_up) risen hold_stopped
           [(HEATING,
             heatUp pcrssv chamber_rises (stop_at 9) 20 DENATURE_TEMP)]
           _ DENATURATION
           (denaturation pcrssv chamber_rises (stop_at 9) 20)
           (cycles_O pcrssv chamber_rises (stop_at 9) 20
              (runPCR_entry power_up))
           (Nat.lt_0_succ 19) Hlt eq_refl Hp Hf).
Defined.

(** ** The fault code and the phase along that run *)

(** The phase and the fault code of the lines of a trace, in order. *)
Definition shown (l : list event) : list (phase * ascii) :=
  flat_map (fun e => match e with
                     | LogLine r => [(ll_phase r, ll_fault r)]
                     | _ => []
                     end) l.

Definition stopped_run : state :=
  final (runPCR pcrssv chamber_rises (stop_at 9) 20 power_up).

(** The run prints a line while heating, two while holding and, stopped
    by the button, one in [FAULT]; [holdConstantTemp] has returned
    [false] with the fault code '1' in the phase [DENATURATION]. *)
Lemma fault_code_none_outside_fault_bench :
  lines_ok (trace power_up)
  /\ shown (trace stopped_run)
     = [(HEATING, "0"); (DENATURATION, "0"); (DENATURATION, "0");
        (FAULT, "1")]%char
  /\ lines_ok (trace stopped_run)
  /\ holdConstantTemp pcrssv chamber_rises (stop_at 9) 20
       INITIAL_DENATURE_TIME DENATURE_TEMP
       (status_upd pcrssv DENATURATION risen) = Done false hold_stopped
  /\ currPhase hold_stopped = DENATURATION
  /\ faultCode hold_stopped = "1"%char.
Proof.
  assert (H : lines_ok (trace power_up)) by (intros r []).
  assert (Hh : holdConstantTemp pcrssv chamber_rises (stop_at 9) 20
                 INITIAL_DENATURE_TIME DENATURE_TEMP
                 (status_upd pcrssv DENATURATION risen)
               = Done false hold_stopped) by (vm_compute; reflexivity).
  destruct (fault_code_none_outside_fault pcrssv chamber_rises (stop_at 9)
              20 power_up H) as (H1 & _ & _ & _ & _ & _ & _ & H8).
  destruct (H8 _ _ _ _ Hh) as (Hph & Hfc).
  split; [exact H|]. split; [vm_compute; reflexivity|].
  split; [exact H1|]. split; [exact Hh|]. split; [exact Hph | exact Hfc].
Defined.

(** ** Two cycles and their holds *)

(** A chamber that follows the run: 94 degrees after the first pulse and
    through the first hold, 60 when cooled and through the annealing, 72
    after the next pulse and through the extension, then 94 again. *)
Definition chamber_cycles : nat -> double :=
  fun n => if Nat.ltb n 1 then 60%Q
           else if Nat.ltb n 1002 then 94%Q
           else if Nat.ltb n 1114 then 60%Q
           else if Nat.ltb n 1233 then 72%Q
           else 94%Q.

(** The phases of cycle 0, one after the other. *)
Definition after (p : phase) (call : prog bool) (s : state) : state :=
  final ((setStatus pcrssv p;; call)%prog s).

Definition says_true (o : outcome bool) : bool :=
  match o with
  | Done b _ => b
  | OutOfFuel _ => false
  end.

Lemma returned_true (p : phase) (call : prog bool) (s : state) :
  says_true ((setStatus pcrssv p;; call)%prog s) = true ->
  (setStatus pcrssv p;; call)%prog s = Done true (after p call s).
Proof.
  unfold after. destruct ((setStatus pcrssv p;; call)%prog s) as [[]|];
    cbn; intros H; [reflexivity | discriminate H | discriminate H].
Qed.

Definition heated_0 : state :=
  after HEATING (heatUp pcrssv chamber_cycles released 1200 DENATURE_TEMP)
    (runPCR_entry power_up).

Definition denatured_0 : state :=
  after DENATURATION (denaturation pcrssv chamber_cycles released 1200)
    heated_0.

Definition cooled_0 : state :=
  after COOLING
    (coolDown pcrssv chamber_cycles released 1200 ANNEALING_TEMP
       COOL_SAMPLE_TIME) denatured_0.

Definition annealed_0 : state :=
  after ANNEALING
    (holdConstantTemp pcrssv chamber_cycles released 1200 ANNEALING_TIME
       ANNEALING_TEMP) cooled_0.

Definition heated_again_0 : state :=
  after HEATING (heatUp pcrssv chamber_cycles released 1200 EXTENSION_TEMP)
    annealed_0.

Definition extended_0 : state :=
  after EXTENSION (extension pcrssv chamber_cycles released 1200)
    heated_again_0.

(** Cycle 1 at the test of the loop, and its first two phases. *)
Definition cycle_1 : state :=
  set_currCycle (int16 (currCycle extended_0 + 1)) extended_0.

Definition heated_1 : state :=
  after HEATING (heatUp pcrssv chamber_cycles released 1200 DENATURE_TEMP)
    cycle_1.

Definition denatured_1 : state :=
  after DENATURATION (denaturation pcrssv chamber_cycles released 1200)
    heated_1.

(** In cycle 0 the denaturation hold lasts 300 s and the extension hold
    35 s at least; in cycle 1 the denaturation hold lasts 33 s. *)
Lemma cycle_hold_durations_two :
  currCycle (runPCR_entry power_up) = 0
  /\ (setStatus pcrssv DENATURATION;;
      denaturation pcrssv chamber_cycles released 1200)%prog heated_0
     = Done true denatured_0
  /\ INITIAL_DENATURE_TIME <= phase_elapsed denatured_0
  /\ phase_elapsed denatured_0 = 300000
  /\ (setStatus pcrssv EXTENSION;;
      extension pcrssv chamber_cycles released 1200)%prog heated_again_0
     = Done true extended_0
  /\ EXTENSION_TIME <= phase_elapsed extended_0
  /\ cycle pcrssv chamber_cycles released 1200 (runPCR_entry power_up)
     = Done (Continue tt) extended_0
  /\ cycles_to pcrssv chamber_cycles released 1200 1 (runPCR_entry power_up)
       cycle_1
  /\ currCycle cycle_1 = 1
  /\ runPCR pcrssv chamber_cycles released 1200 power_up
     = (runPCR_for pcrssv chamber_cycles released 1200 1199;;
        runPCR_end pcrssv)%prog cycle_1
  /\ (setStatus pcrssv DENATURATION;;
      denaturation pcrssv chamber_cycles released 1200)%prog heated_1
     = Done true denatured_1
  /\ DENATURE_TIME <= phase_elapsed denatured_1
  /\ phase_elapsed denatured_1 = 33000.
Proof.
  pose (w := chamber_cycles).
  assert (E1 : (setStatus pcrssv HEATING;;
                heatUp pcrssv w released 1200 DENATURE_TEMP)%prog
                 (runPCR_entry power_up) = Done true heated_0)
    by (apply returned_true; vm_compute; reflexivity).
  assert (E2 : (setStatus pcrssv DENATURATION;;
                denaturation pcrssv w released 1200)%prog heated_0
               = Done true denatured_0)
    by (apply returned_true; vm_compute; reflexivity).
  assert (E3 : (setStatus pcrssv COOLING;;
                coolDown pcrssv w released 1200 ANNEALING_TEMP
                  COOL_SAMPLE_TIME)%prog denatured_0 = Done true cooled_0)
    by (apply returned_true; vm_compute; reflexivity).
  assert (E4 : (setStatus pcrssv ANNEALING;;
                holdConstantTemp pcrssv w released 1200 ANNEALING_TIME
                  ANNEALING_TEMP)%prog cooled_0 = Done true annealed_0)
    by (apply returned_true; vm_compute; reflexivity).
  assert (E5 : (setStatus pcrssv HEATING;;
                heatUp pcrssv w released 1200 EXTENSION_TEMP)%prog annealed_0
               = Done true heated_again_0)
    by (apply returned_true; vm_compute; reflexivity).
  assert (E6 : (setStatus pcrssv EXTENSION;;
                extension pcrssv w released 1200)%prog heated_again_0
               = Done true extended_0)
    by (apply returned_true; vm_compute; reflexivity).
  assert (P5 : passes pcrssv (firstn 5 (phases pcrssv w released 1200))
                 (runPCR_entry power_up) heated_again_0).
  { econstructor; [exact E1|]. econstructor; [exact E2|].
    econstructor; [exact E3|]. econstructor; [exact E4|].
    econstructor; [exact E5 | constructor]. }
  assert (Ec : cycle pcrssv w released 1200 (runPCR_entry power_up)
               = Done (Continue tt) extended_0).
  { rewrite (cycle_steps pcrssv w released 1200). apply steps_pass.
    econstructor; [exact E1|]. econstructor; [exact E2|].
    econstructor; [exact E3|]. econstructor; [exact E4|].
    econstructor; [exact E5|]. econstructor; [exact E6 | constructor]. }
  assert (E7 : (setStatus pcrssv HEATING;;
                heatUp pcrssv w released 1200 DENATURE_TEMP)%prog cycle_1
               = Done true heated_1)
    by (apply returned_true; vm_compute; reflexivity).
  assert (E8 : (setStatus pcrssv DENATURATION;;
                denaturation pcrssv w released 1200)%prog heated_1
               = Done true denatured_1)
    by (apply returned_true; vm_compute; reflexivity).
  assert (Hlt : currCycle (runPCR_entry power_up) < NUM_CYCLES)
    by reflexivity.
  destruct (cycle_hold_durations pcrssv w released 1200 0 power_up
              (runPCR_entry power_up)
              (cycles_O pcrssv w released 1200 (runPCR_entry power_up)) Hlt)
    as (C0 & _ & _ & D0 & X0 & N0).
  destruct (D0 heated_0) as (_ & D0').
  { econstructor; [exact E1 | constructor]. }
  destruct (X0 heated_again_0 P5) as (_ & X0').
  destruct (N0 extended_0 Ec) as (N1 & N2).
  assert (Hlt1 : currCycle cycle_1 < NUM_CYCLES)
    by (unfold cycle_1; rewrite N2; reflexivity).
  destruct (cycle_hold_durations pcrssv w released 1200 1 power_up cycle_1
              N1 Hlt1) as (_ & R1 & _ & D1 & _).
  destruct (D1 heated_1) as (_ & D1').
  { econstructor; [exact E7 | constructor]. }
  split; [exact C0|]. split; [exact E2|].
  split; [exact (D0' denatured_0 E2)|]. split; [vm_compute; reflexivity|].
  split; [exact E6|]. split; [exact (X0' extended_0 E6)|].
  split; [exact Ec|].
  split; [exact N1|]. split; [exact N2|].
  split; [exact (R1 ltac:(lia))|].
  split; [exact E8|].
  split; [exact (D1' denatured_1 E8) | vm_compute; reflexivity].
Defined.
